(** * Spotify analyzer: track sanitation, aggregation and recommendation
      reconciliation

    A shallow embedding of the data-handling core of the repository:
    [sanitize_track_list], [analyze_genres], [analyze_popularity],
    [get_decade_distribution], [get_all_user_tracks_heavy] and the search
    loop of [create_spotify_playlist] from [appv2.py], together with the
    older variants of the aggregation functions and of the search loop
    from [app.py] ([SpotifyPlaylistAnalyzer.py] carries the aggregation
    functions in the same form as [app.py]).

    Around that core, the calls to the catalog client: the retry
    decorator, the fetchers of the top lists, of the library and of the
    playlists with their paging, the writing part of
    [create_spotify_playlist], the [top_tracks] entry of the report, and
    the batches of the audio analysis of [app.py].

    The programs are dynamically typed, so the embedding starts from a
    type of decoded JSON values and from the handful of interpreter
    operations the code applies to them (truthiness, [dict.get],
    subscripting, [len], slicing, [int]). *)

From Stdlib Require Import ZArith QArith String Ascii List Lia.
From stdpp Require Import base option list gmap strings pretty sorting.

Set Warnings "-register-all".

Open Scope string_scope.
Open Scope Z_scope.
Open Scope list_scope.

(** ** Interpreter values *)

Module Py.

(** Exceptions the modelled code can meet. [ServiceError] stands for any
    exception raised inside a call to the catalog client. *)
Inductive exn : Type :=
  | TypeError | ValueError | KeyError | IndexError | AttributeError
  | ServiceError.

Inductive result (A : Type) : Type :=
  | Ok (a : A)
  | Raise (e : exn).
Arguments Ok {A} a.
Arguments Raise {A} e.

Definition bind {A B : Type} (r : result A) (k : A -> result B) : result B :=
  match r with
  | Ok a => k a
  | Raise e => Raise e
  end.

Notation "x <- r ;; k" := (bind r (fun x => k))
  (at level 100, r at next level, right associativity).

(** Decoded JSON: the values the catalog client hands to the code. A
    [str] is kept as its UTF-8 bytes; a [dict] is kept in insertion order
    with string keys. Numbers with a fractional part are outside the
    model. *)
Inductive pyval : Type :=
  | VNone
  | VBool (b : bool)
  | VInt (z : Z)
  | VStr (s : string)
  | VList (l : list pyval)
  | VDict (d : list (string * pyval)).

Definition pydict : Type := list (string * pyval).

(** [bool(v)] *)
Definition truthy (v : pyval) : bool :=
  match v with
  | VNone => false
  | VBool b => b
  | VInt z => negb (z =? 0)
  | VStr s => match s with EmptyString => false | _ => true end
  | VList l => match l with [] => false | _ => true end
  | VDict d => match d with [] => false | _ => true end
  end.

Definition is_dict (v : pyval) : bool :=
  match v with VDict _ => true | _ => false end.

Definition is_list (v : pyval) : bool :=
  match v with VList _ => true | _ => false end.

(** *** Dictionaries *)

Fixpoint dict_lookup (k : string) (d : pydict) : option pyval :=
  match d with
  | [] => None
  | (k', v) :: rest => if String.eqb k k' then Some v else dict_lookup k rest
  end.

(** [k in d] *)
Definition dict_has (k : string) (d : pydict) : bool :=
  match dict_lookup k d with Some _ => true | None => false end.

(** [d.get(k, default)] *)
Definition dict_get (k : string) (d : pydict) (default : pyval) : pyval :=
  match dict_lookup k d with Some v => v | None => default end.

(** [d[k] = v]: an existing key keeps its position, a new key goes last. *)
Fixpoint dict_set (k : string) (v : pyval) (d : pydict) : pydict :=
  match d with
  | [] => [(k, v)]
  | (k', v') :: rest =>
      if String.eqb k k' then (k', v) :: rest else (k', v') :: dict_set k v rest
  end.

(** [v.get(k, default)] on a value of unknown type. *)
Definition py_get (v : pyval) (k : string) (default : pyval) : result pyval :=
  match v with
  | VDict d => Ok (dict_get k d default)
  | _ => Raise AttributeError
  end.

(** *** Strings: lengths and slices count code points *)

(** A UTF-8 continuation byte, [10xxxxxx]. *)
Definition is_continuation (c : ascii) : bool :=
  match c with Ascii _ _ _ _ _ _ b6 b7 => b7 && negb b6 end.

Fixpoint str_len (s : string) : nat :=
  match s with
  | EmptyString => 0%nat
  | String c r => ((if is_continuation c then 0 else 1) + str_len r)%nat
  end.

(** [s[:n]] *)
Fixpoint str_take (n : nat) (s : string) : string :=
  match s with
  | EmptyString => EmptyString
  | String c r =>
      if is_continuation c then String c (str_take n r)
      else match n with
           | O => EmptyString
           | S n' => String c (str_take n' r)
           end
  end.

(** The bytes of the first code point of [s], and what follows it. *)
Fixpoint continuation_run (s : string) : string * string :=
  match s with
  | EmptyString => (EmptyString, EmptyString)
  | String c r =>
      if is_continuation c
      then let '(h, t) := continuation_run r in (String c h, t)
      else (EmptyString, s)
  end.

Fixpoint str_chars_fuel (fuel : nat) (s : string) : list string :=
  match fuel, s with
  | S f, String c r =>
      let '(h, t) := continuation_run r in String c h :: str_chars_fuel f t
  | _, _ => []
  end.

(** [list(s)]: the one-character strings of [s]. *)
Definition str_chars (s : string) : list string :=
  str_chars_fuel (String.length s) s.

(** [len(v)] *)
Definition py_len (v : pyval) : result nat :=
  match v with
  | VStr s => Ok (str_len s)
  | VList l => Ok (length l)
  | VDict d => Ok (length d)
  | _ => Raise TypeError
  end.

(** [v[:n]]. Slicing a [dict] raises [TypeError] (unhashable slice) on
    the interpreters before 3.12. *)
Definition py_slice_to (n : nat) (v : pyval) : result pyval :=
  match v with
  | VStr s => Ok (VStr (str_take n s))
  | VList l => Ok (VList (take n l))
  | _ => Raise TypeError
  end.

(** [iter(v)] as the list of the items it yields. *)
Definition py_iter (v : pyval) : result (list pyval) :=
  match v with
  | VList l => Ok l
  | VStr s => Ok (map VStr (str_chars s))
  | VDict d => Ok (map (fun kv => VStr (fst kv)) d)
  | _ => Raise TypeError
  end.

(** [v[k]] for a string key. *)
Definition py_item (v : pyval) (k : string) : result pyval :=
  match v with
  | VDict d => match dict_lookup k d with
               | Some x => Ok x
               | None => Raise KeyError
               end
  | _ => Raise TypeError
  end.

(** [v[0]] *)
Definition py_first (v : pyval) : result pyval :=
  match v with
  | VList (x :: _) => Ok x
  | VList [] => Raise IndexError
  | VStr s => match str_chars s with
              | c :: _ => Ok (VStr c)
              | [] => Raise IndexError
              end
  | VDict _ => Raise KeyError
  | _ => Raise TypeError
  end.

(** *** [int(...)] *)

Definition is_space (c : ascii) : bool :=
  let n := nat_of_ascii c in
  ((9 <=? n)%nat && (n <=? 13)%nat) || (n =? 32)%nat.

Definition digit_value (c : ascii) : option Z :=
  let n := nat_of_ascii c in
  if ((48 <=? n)%nat && (n <=? 57)%nat) then Some (Z.of_nat (n - 48)) else None.

Fixpoint all_space (s : string) : bool :=
  match s with
  | EmptyString => true
  | String c r => is_space c && all_space r
  end.

(** Decimal digits with single underscores between them, then optional
    trailing blanks. [after_digit] tells whether the previous character
    was a digit. *)
Fixpoint parse_digits (acc : Z) (after_digit : bool) (s : string) : option Z :=
  match s with
  | EmptyString => if after_digit then Some acc else None
  | String c r =>
      match digit_value c with
      | Some d => parse_digits (10 * acc + d) true r
      | None =>
          if after_digit then
            if Ascii.eqb c "_"%char then parse_digits acc false r
            else if all_space s then Some acc else None
          else None
      end
  end.

Definition parse_signed (s : string) : option Z :=
  match s with
  | String c r =>
      if Ascii.eqb c "-"%char then option_map Z.opp (parse_digits 0 false r)
      else if Ascii.eqb c "+"%char then parse_digits 0 false r
      else parse_digits 0 false s
  | EmptyString => None
  end.

Fixpoint skip_space (s : string) : string :=
  match s with
  | String c r => if is_space c then skip_space r else s
  | EmptyString => EmptyString
  end.

(** Before it parses, [int] rewrites its text: every blank beyond ASCII
    becomes a space, every decimal digit of any script its ASCII digit,
    and any other character beyond ASCII makes the text invalid. *)

(** The code point a UTF-8 encoded character stands for. *)
Definition code_point (c : string) : Z :=
  match c with
  | EmptyString => 0
  | String lead rest =>
      let n := Z.of_nat (nat_of_ascii lead) in
      let first :=
        if n <? 128 then n
        else if n <? 224 then Z.land n 31
        else if n <? 240 then Z.land n 15
        else Z.land n 7 in
      fold_left
        (fun cp b => cp * 64 + Z.land (Z.of_nat (nat_of_ascii b)) 63)
        (list_ascii_of_string rest) first
  end.

(** The blanks beyond ASCII, as [str.isspace] knows them. *)
Definition unicode_space (cp : Z) : bool :=
  (cp =? 133) || (cp =? 160) || (cp =? 5760)
  || ((8192 <=? cp) && (cp <=? 8202))
  || (cp =? 8232) || (cp =? 8233) || (cp =? 8239) || (cp =? 8287)
  || (cp =? 12288).

(** The code point of the digit zero of every script with decimal
    digits, in the character table of the interpreter the model follows
    (CPython 3.11, Unicode 14); the nine code points after a zero are
    the digits one to nine of its script. *)
Definition decimal_zeros : list Z :=
  [48; 1632; 1776; 1984; 2406; 2534; 2662; 2790; 2918; 3046; 3174; 3302;
   3430; 3558; 3664; 3792; 3872; 4160; 4240; 6112; 6160; 6470; 6608; 6784;
   6800; 6992; 7088; 7232; 7248; 42528; 43216; 43264; 43472; 43504; 43600;
   44016; 65296; 66720; 68912; 69734; 69872; 69942; 70096; 70384; 70736;
   70864; 71248; 71360; 71472; 71904; 72016; 72784; 73040; 73120; 92768;
   92864; 93008; 120782; 120792; 120802; 120812; 120822; 123200; 123632;
   125264; 130032].

Definition decimal_value (cp : Z) : option Z :=
  match List.find (fun zero => (zero <=? cp) && (cp <=? zero + 9))
          decimal_zeros with
  | Some zero => Some (cp - zero)
  | None => None
  end.

(** The rewriting, character by character; it stops with a question
    mark at the first character it cannot place. *)
Fixpoint to_ascii_decimal (chars : list string) : string :=
  match chars with
  | [] => EmptyString
  | c :: rest =>
      let cp := code_point c in
      if cp <? 127 then String.append c (to_ascii_decimal rest)
      else if unicode_space cp then String " "%char (to_ascii_decimal rest)
      else match decimal_value cp with
           | Some d =>
               String (ascii_of_nat (48 + Z.to_nat d)) (to_ascii_decimal rest)
           | None => String "?"%char EmptyString
           end
  end.

Fixpoint count_digits (s : string) : nat :=
  match s with
  | EmptyString => 0%nat
  | String c r =>
      ((match digit_value c with Some _ => 1 | None => 0 end)
       + count_digits r)%nat
  end.

(** [sys.get_int_max_str_digits()], which the program leaves as it is. *)
Definition MAX_STR_DIGITS : nat := 4300.

(** [int(s)] for a string in base ten: blanks, a sign, digits with
    single underscores between them, blanks. A text of more than
    [MAX_STR_DIGITS] digits is refused. *)
Definition int_of_string (s : string) : option Z :=
  let text := to_ascii_decimal (str_chars s) in
  if (MAX_STR_DIGITS <? count_digits text)%nat then None
  else parse_signed (skip_space text).

(** [int(v)] *)
Definition py_int (v : pyval) : result Z :=
  match v with
  | VInt z => Ok z
  | VBool b => Ok (Z.b2z b)
  | VStr s => match int_of_string s with
              | Some z => Ok z
              | None => Raise ValueError
              end
  | _ => Raise TypeError
  end.

(** *** Hashable values as dictionary and set keys

    [True == 1] and [False == 0] as keys; lists and dicts are
    unhashable. *)
Inductive key : Type :=
  | KNone
  | KInt (z : Z)
  | KStr (s : string).

Definition key_of (v : pyval) : option key :=
  match v with
  | VNone => Some KNone
  | VBool b => Some (KInt (Z.b2z b))
  | VInt z => Some (KInt z)
  | VStr s => Some (KStr s)
  | VList _ | VDict _ => None
  end.

(** [hash(v)] succeeds or raises. *)
Definition py_hash (v : pyval) : result key :=
  match key_of v with
  | Some k => Ok k
  | None => Raise TypeError
  end.

#[global] Instance key_eq_dec : EqDecision key.
Proof. solve_decision. Defined.

Definition key_encode (k : key) : unit + (Z + string) :=
  match k with
  | KNone => inl tt
  | KInt z => inr (inl z)
  | KStr s => inr (inr s)
  end.

Definition key_decode (x : unit + (Z + string)) : key :=
  match x with
  | inl _ => KNone
  | inr (inl z) => KInt z
  | inr (inr s) => KStr s
  end.

#[global] Instance key_countable : Countable key.
Proof.
  apply (inj_countable' key_encode key_decode).
  intros []; reflexivity.
Defined.

(** [c[k] += 1] on a [Counter]. *)
Definition counter_incr `{Countable K} (k : K) (c : gmap K nat) : gmap K nat :=
  <[k := S (default 0%nat (c !! k))]> c.

(** [c[k]] on a [Counter]: a missing key counts zero. *)
Definition counter_get `{Countable K} (k : K) (c : gmap K nat) : nat :=
  default 0%nat (c !! k).

(** Counting the items of a list into a [Counter] under the keys [f]
    gives them; items without a key are passed over. *)
Definition tally {A : Type} `{Countable K} (f : A -> option K)
    (c : gmap K nat) (a : A) : gmap K nat :=
  match f a with
  | Some k => counter_incr k c
  | None => c
  end.

(** How many items of [l] have the key [k]. *)
Definition occurrences {A : Type} `{Countable K} (f : A -> option K)
    (k : K) (l : list A) : nat :=
  length (List.filter (fun a => bool_decide (f a = Some k)) l).

(** A [Counter] entry: a key never counted has none. *)
Definition entry_of (n : nat) : option nat :=
  match n with O => None | S _ => Some n end.

(** *** The [statistics] functions on whole numbers *)

(** The numeric value of a list element handed to [statistics]. *)
Definition number_of (v : pyval) : result Z :=
  match v with
  | VInt z => Ok z
  | VBool b => Ok (Z.b2z b)
  | _ => Raise TypeError
  end.

Fixpoint numbers_of (vs : list pyval) : result (list Z) :=
  match vs with
  | [] => Ok []
  | v :: rest =>
      z <- number_of v;;
      zs <- numbers_of rest;;
      Ok (z :: zs)
  end.

Definition sum_Z (zs : list Z) : Z := fold_right Z.add 0 zs.

(** [statistics.mean] *)
Definition mean (zs : list Z) : Q := Qred (sum_Z zs # Pos.of_nat (length zs)).

(** [max(zs)] and [min(zs)]; both raise on an empty list, which the
    caller below never passes. *)
Definition py_max (zs : list Z) : Z :=
  match zs with
  | z :: rest => fold_left Z.max rest z
  | [] => 0
  end.

Definition py_min (zs : list Z) : Z :=
  match zs with
  | z :: rest => fold_left Z.min rest z
  | [] => 0
  end.

(** [statistics.median] *)
Definition median (zs : list Z) : Q :=
  let data := merge_sort Z.le zs in
  let n := length data in
  if Nat.odd n then nth (n / 2) data 0 # 1
  else Qred ((nth (n / 2 - 1) data 0 + nth (n / 2) data 0) # 2).

(** The double-quote character, as a string. *)
Definition dquote : string := String (ascii_of_nat 34) EmptyString.

End Py.

(** ** appv2.py *)

Module AppV2.
Import Py.

(** [config.PLAYLIST_TARGET_SIZE] *)
Definition PLAYLIST_TARGET_SIZE : nat := 10.

(** [safe_get(data, *keys, default=default)] *)
Fixpoint safe_get (data : pyval) (keys : list string) (default : pyval) : pyval :=
  match keys with
  | [] => data
  | k :: ks =>
      match data with
      | VDict d => safe_get (dict_get k d default) ks default
      | _ => default
      end
  end.

(** *** Track sanitizer *)

Definition NAME_PLACEHOLDER : pyval := VStr "İsimsiz Parça".

Definition ARTISTS_PLACEHOLDER : pyval :=
  VList [VDict [("id", VNone); ("name", VStr "Bilinmeyen Sanatçı")]].

Definition ALBUM_PLACEHOLDER : pyval :=
  VDict [("name", VStr "Bilinmeyen Albüm"); ("release_date", VStr "1900")].

(** Step 1 of the loop body: the candidate track object of a raw item,
    [None] when the item has no track shape. *)
Definition track_object (item : pyval) : option pydict :=
  match item with
  | VDict d =>
      if dict_has "track" d && is_dict (dict_get "track" d VNone) then
        match dict_get "track" d VNone with
        | VDict t => Some t
        | _ => None
        end
      else if dict_has "id" d then Some d
      else None
  | _ => None
  end.

(** Step 4 of the loop body: the four field checks, each on the track
    object and the [is_patched] flag the previous one left. *)
Definition patch_name (s : pydict * bool) : pydict * bool :=
  let '(track_obj, is_patched) := s in
  if negb (truthy (dict_get "name" track_obj VNone))
  then (dict_set "name" NAME_PLACEHOLDER track_obj, true)
  else (track_obj, is_patched).

Definition patch_artists (s : pydict * bool) : pydict * bool :=
  let '(track_obj, is_patched) := s in
  if negb (truthy (dict_get "artists" track_obj VNone))
     || negb (is_list (dict_get "artists" track_obj VNone))
     || negb (truthy (dict_get "artists" track_obj VNone))
  then (dict_set "artists" ARTISTS_PLACEHOLDER track_obj, true)
  else (track_obj, is_patched).

Definition patch_album (s : pydict * bool) : pydict * bool :=
  let '(track_obj, is_patched) := s in
  if negb (truthy (dict_get "album" track_obj VNone))
     || negb (is_dict (dict_get "album" track_obj VNone))
  then (dict_set "album" ALBUM_PLACEHOLDER track_obj, true)
  else (track_obj, is_patched).

Definition patch_popularity (s : pydict * bool) : pydict * bool :=
  let '(track_obj, is_patched) := s in
  if negb (dict_has "popularity" track_obj)
  then (dict_set "popularity" (VInt 0) track_obj, true)
  else (track_obj, is_patched).

Definition patch_track (track_obj : pydict) : pydict * bool :=
  let is_patched := false in
  patch_popularity (patch_album (patch_artists (patch_name (track_obj, is_patched)))).

Record sanitize_state : Type := {
  clean_tracks : list pyval;
  invalid_count : nat;
  patched_count : nat
}.

Definition count_invalid (st : sanitize_state) : sanitize_state :=
  {| clean_tracks := clean_tracks st;
     invalid_count := S (invalid_count st);
     patched_count := patched_count st |}.

(** One iteration of [for item in tracks]. The code patches the record
    in place and appends that same record; here the patched record is a
    new value. The two agree on decoded JSON, where no record is shared
    between two items. *)
Definition sanitize_item (st : sanitize_state) (item : pyval) : sanitize_state :=
  match track_object item with
  | None => count_invalid st
  | Some track_obj =>
      if negb (truthy (VDict track_obj)) then count_invalid st
      else if negb (truthy (dict_get "id" track_obj VNone)) then count_invalid st
      else
        let '(patched, is_patched) := patch_track track_obj in
        {| clean_tracks := clean_tracks st ++ [VDict patched];
           invalid_count := invalid_count st;
           patched_count :=
             if is_patched then S (patched_count st) else patched_count st |}
  end.

Definition sanitize_init : sanitize_state :=
  {| clean_tracks := []; invalid_count := 0; patched_count := 0 |}.

(** The whole function with its two local counters. *)
Definition sanitize_run (tracks : list pyval) : sanitize_state :=
  match tracks with
  | [] => sanitize_init
  | _ => fold_left sanitize_item tracks sanitize_init
  end.

Definition sanitize_track_list (tracks : list pyval) : list pyval :=
  clean_tracks (sanitize_run tracks).

(** *** Aggregator: decades *)

(** [f"{decade}'ler"] *)
Definition decade_label (decade : Z) : string := pretty decade +:+ "'ler".

(** What the [try] block of one iteration computes. *)
Definition decade_of (release_date : pyval) : result Z :=
  prefix <- py_slice_to 4 release_date;;
  year <- py_int prefix;;
  Ok ((year / 10) * 10).

(** One iteration of [for track in tracks]. *)
Definition decade_step (decades : gmap string nat) (track : pyval)
  : result (gmap string nat) :=
  let release_date := safe_get track ["album"; "release_date"] (VStr "") in
  if truthy release_date then
    n <- py_len release_date;;
    if (4 <=? n)%nat then
      match decade_of release_date with
      | Ok decade => Ok (counter_incr (decade_label decade) decades)
      | Raise ValueError | Raise TypeError => Ok decades
      | Raise e => Raise e
      end
    else Ok decades
  else Ok decades.

Fixpoint decade_loop (tracks : list pyval) (decades : gmap string nat)
  : result (gmap string nat) :=
  match tracks with
  | [] => Ok decades
  | track :: rest =>
      decades' <- decade_step decades track;;
      decade_loop rest decades'
  end.

Definition get_decade_distribution (tracks : list pyval)
  : result (gmap string nat) :=
  decade_loop tracks ∅.

(** *** Aggregator: popularity *)

(** [{'avg': ..., 'max': ..., 'min': ..., 'median': ...}]. The mean and
    the median are kept as exact fractions. *)
Record popularity_stats : Type := {
  stat_avg : Q;
  stat_max : Z;
  stat_min : Z;
  stat_median : Q
}.

(** The list comprehension: the condition, then the element. *)
Fixpoint popularities_of (tracks : list pyval) : result (list pyval) :=
  match tracks with
  | [] => Ok []
  | track :: rest =>
      cond <- py_get track "popularity" VNone;;
      if truthy cond then
        v <- py_get track "popularity" (VInt 0);;
        vs <- popularities_of rest;;
        Ok (v :: vs)
      else popularities_of rest
  end.

Definition stats_of (popularities : list pyval) : result (option popularity_stats) :=
  match popularities with
  | [] => Ok None
  | _ =>
      zs <- numbers_of popularities;;
      Ok (Some {| stat_avg := mean zs;
                  stat_max := py_max zs;
                  stat_min := py_min zs;
                  stat_median := median zs |})
  end.

Definition analyze_popularity (tracks : list pyval)
  : result (option popularity_stats) :=
  popularities <- popularities_of tracks;;
  stats_of popularities.

(** *** Aggregator: genres and artists

    The catalog client is a collaborator with state of its own: a call
    takes the world before it and gives the world after it together with
    the response or the exception. *)

Section Genres.
Context {World : Type}.
Variable sp_artist : World -> pyval -> World * result pyval.

Record genre_state : Type := {
  genre_counter : gmap key nat;
  artist_counter : gmap key nat;
  genre_by_artist : gmap key (gset key);
  processed_artists : gset key;
  artist_calls : list pyval;
  genre_world : World
}.

Definition genre_init (w : World) : genre_state :=
  {| genre_counter := ∅; artist_counter := ∅; genre_by_artist := ∅;
     processed_artists := ∅; artist_calls := []; genre_world := w |}.

(** [for genre in genres: ...] inside the [try]: an unhashable genre
    raises, the handler swallows it, and what was counted stays. *)
Fixpoint count_genres (artist_name : key) (genres : list pyval)
    (gc : gmap key nat) (gba : gmap key (gset key))
  : gmap key nat * gmap key (gset key) :=
  match genres with
  | [] => (gc, gba)
  | genre :: rest =>
      match key_of genre with
      | None => (gc, gba)
      | Some g =>
          count_genres artist_name rest (counter_incr g gc)
            (<[g := {[artist_name]} ∪ default ∅ (gba !! g)]> gba)
      end
  end.

(** [genres = artist_info.get('genres', [])] and the iterator over it. *)
Definition genres_of (artist_info : pyval) : result (list pyval) :=
  genres <- py_get artist_info "genres" (VList []);;
  py_iter genres.

(** The body of [for artist in artists]. *)
Definition artist_step (st : genre_state) (artist : pyval) : result genre_state :=
  match artist with
  | VDict a =>
      if negb (truthy (dict_get "id" a VNone)) then Ok st
      else
        let artist_id := dict_get "id" a VNone in
        let artist_name := dict_get "name" a (VStr "Unknown") in
        name <- py_hash artist_name;;
        let ac := counter_incr name (artist_counter st) in
        id <- py_hash artist_id;;
        if decide (id ∈ processed_artists st) then
          Ok {| genre_counter := genre_counter st;
                artist_counter := ac;
                genre_by_artist := genre_by_artist st;
                processed_artists := processed_artists st;
                artist_calls := artist_calls st;
                genre_world := genre_world st |}
        else
          let processed := {[id]} ∪ processed_artists st in
          let '(w, response) := sp_artist (genre_world st) artist_id in
          let '(gc, gba) :=
            match (artist_info <- response;; genres_of artist_info) with
            | Ok genres =>
                count_genres name genres (genre_counter st) (genre_by_artist st)
            | Raise _ => (genre_counter st, genre_by_artist st)
            end in
          Ok {| genre_counter := gc;
                artist_counter := ac;
                genre_by_artist := gba;
                processed_artists := processed;
                artist_calls := artist_calls st ++ [artist_id];
                genre_world := w |}
  | _ => Ok st
  end.

Fixpoint artists_loop (artists : list pyval) (st : genre_state)
  : result genre_state :=
  match artists with
  | [] => Ok st
  | artist :: rest =>
      st' <- artist_step st artist;;
      artists_loop rest st'
  end.

(** The body of [for track in tracks]. *)
Definition track_step (st : genre_state) (track : pyval) : result genre_state :=
  artists <- py_get track "artists" (VList []);;
  items <- py_iter artists;;
  artists_loop items st.

Fixpoint tracks_loop (tracks : list pyval) (st : genre_state)
  : result genre_state :=
  match tracks with
  | [] => Ok st
  | track :: rest =>
      st' <- track_step st track;;
      tracks_loop rest st'
  end.

Definition analyze_genres (w : World) (tracks : list pyval) : result genre_state :=
  tracks_loop tracks (genre_init w).
End Genres.

(** *** Merging the library with the playlists *)

(** [all_tracks_dict], in insertion order. *)
Definition tracks_dict : Type := list (key * pyval).

(** [all_tracks_dict[k] = track] *)
Fixpoint tracks_dict_set (k : key) (track : pyval) (d : tracks_dict) : tracks_dict :=
  match d with
  | [] => [(k, track)]
  | (k', t') :: rest =>
      if decide (k = k') then (k', track) :: rest
      else (k', t') :: tracks_dict_set k track rest
  end.

(** The body shared by the two [for track in ...] loops. *)
Definition add_track (d : tracks_dict) (track : pyval) : result tracks_dict :=
  if truthy track then
    id <- py_get track "id" VNone;;
    if truthy id then
      k <- py_hash id;;
      Ok (tracks_dict_set k track d)
    else Ok d
  else Ok d.

(** Phase 1: nothing catches an exception here. *)
Fixpoint add_saved (saved_tracks : list pyval) (d : tracks_dict) : result tracks_dict :=
  match saved_tracks with
  | [] => Ok d
  | track :: rest =>
      d' <- add_track d track;;
      add_saved rest d'
  end.

(** Phase 3, inside the [try]: an exception ends the scan of this
    playlist and keeps the entries made so far. *)
Fixpoint add_playlist_tracks (playlist_tracks : list pyval) (d : tracks_dict)
  : tracks_dict :=
  match playlist_tracks with
  | [] => d
  | track :: rest =>
      match add_track d track with
      | Ok d' => add_playlist_tracks rest d'
      | Raise _ => d
      end
  end.

Section Merge.
(** [self.get_playlist_tracks]: the tracks it returns for a playlist id,
    or the exception the call ends with. *)
Variable get_playlist_tracks : pyval -> result (list pyval).

(** One iteration of [for i, playlist in enumerate(playlists)]: the
    whole of it is inside the [try]. *)
Definition scan_playlist (d : tracks_dict) (playlist : pyval) : tracks_dict :=
  match (playlist_id <- py_item playlist "id";;
         get_playlist_tracks playlist_id) with
  | Ok playlist_tracks => add_playlist_tracks playlist_tracks d
  | Raise _ => d
  end.

(** [get_all_user_tracks_heavy], given what [get_all_saved_tracks] and
    [get_user_playlists] returned. *)
Definition get_all_user_tracks_heavy (saved_tracks playlists : list pyval)
  : result (list pyval) :=
  d <- add_saved saved_tracks [];;
  Ok (map snd (fold_left scan_playlist playlists d)).
End Merge.

(** *** Recommendation reconciler: the search loop of
        [create_spotify_playlist] *)

Section Reconciler.
Context {World : Type}.
Variable sp_search : World -> string -> World * result pyval.
(** The text an f-string puts for a value. *)
Variable format : pyval -> string.

Record search_state : Type := {
  track_uris : list pyval;
  songs_found_count : nat;
  not_found_songs : list string;
  search_calls : list string;
  search_world : World
}.

Definition search_init (w : World) : search_state :=
  {| track_uris := []; songs_found_count := 0; not_found_songs := [];
     search_calls := []; search_world := w |}.

(** [if results['tracks']['items']: track_uri = results['tracks']['items'][0]['uri']] *)
Definition first_uri (results : pyval) (track_uri : pyval) : result pyval :=
  tracks <- py_item results "tracks";;
  items <- py_item tracks "items";;
  if truthy items then
    tracks' <- py_item results "tracks";;
    items' <- py_item tracks' "items";;
    first <- py_first items';;
    py_item first "uri"
  else Ok track_uri.

(** One [try: ... except Exception: ...] phase: the search call and the
    reading of its result. *)
Definition search_phase (query : string) (w : World) (track_uri : pyval)
  : World * pyval :=
  let '(w', response) := sp_search w query in
  match (results <- response;; first_uri results track_uri) with
  | Ok uri => (w', uri)
  | Raise _ => (w', track_uri)
  end.

Definition query_specific (track_name artist_name : pyval) : string :=
  "track:" +:+ dquote +:+ format track_name +:+ dquote +:+
  " artist:" +:+ dquote +:+ format artist_name +:+ dquote.

Definition query_general (track_name artist_name : pyval) : string :=
  format artist_name +:+ " " +:+ format track_name.

(** The loop body after the target test. *)
Definition search_song (st : search_state) (song : pyval) : result search_state :=
  let track_uri := VNone in
  artist_name <- py_get song "artist" (VStr "Unknown");;
  track_name <- py_get song "track" (VStr "Unknown");;
  let q1 := query_specific track_name artist_name in
  let '(w1, track_uri) := search_phase q1 (search_world st) track_uri in
  let calls1 := (search_calls st ++ [q1])%list in
  let '(w2, track_uri, calls2) :=
    if negb (truthy track_uri) then
      let q2 := query_general track_name artist_name in
      let '(w2, uri) := search_phase q2 w1 track_uri in
      (w2, uri, (calls1 ++ [q2])%list)
    else (w1, track_uri, calls1) in
  if truthy track_uri then
    Ok {| track_uris := track_uris st ++ [track_uri];
          songs_found_count := S (songs_found_count st);
          not_found_songs := not_found_songs st;
          search_calls := calls2;
          search_world := w2 |}
  else
    Ok {| track_uris := track_uris st;
          songs_found_count := songs_found_count st;
          not_found_songs :=
            not_found_songs st ++ [format track_name +:+ " - " +:+ format artist_name];
          search_calls := calls2;
          search_world := w2 |}.

(** [for i, song in enumerate(songs_to_search)] with its [break]. *)
Fixpoint search_loop (songs : list pyval) (st : search_state) : result search_state :=
  match songs with
  | [] => Ok st
  | song :: rest =>
      if (PLAYLIST_TARGET_SIZE <=? songs_found_count st)%nat then Ok st
      else
        st' <- search_song st song;;
        search_loop rest st'
  end.

Definition reconcile (w : World) (songs_to_search : list pyval) : result search_state :=
  search_loop songs_to_search (search_init w).
End Reconciler.

End AppV2.

(** ** app.py: the earlier variants of the same functions *)

Module App.
Import Py.

(** [track.get('track', track)] *)
Definition unwrap (track : pyval) : result pyval := py_get track "track" track.

Section Genres.
Context {World : Type}.
Variable sp_artist : World -> pyval -> World * result pyval.

Record genre_state : Type := {
  genre_counter : gmap key nat;
  artist_counter : gmap key nat;
  genre_by_artist : gmap key (gset key);
  artist_calls : list pyval;
  genre_world : World
}.

Definition genre_init (w : World) : genre_state :=
  {| genre_counter := ∅; artist_counter := ∅; genre_by_artist := ∅;
     artist_calls := []; genre_world := w |}.

(** The body of [for artist in track_obj.get('artists', [])]. The
    subscript [artist['id']] is inside the [try], [artist['name']] is
    not. *)
Definition artist_step (st : genre_state) (artist : pyval) : result genre_state :=
  artist_name <- py_item artist "name";;
  name <- py_hash artist_name;;
  let ac := counter_incr name (artist_counter st) in
  match py_item artist "id" with
  | Raise _ =>
      Ok {| genre_counter := genre_counter st;
            artist_counter := ac;
            genre_by_artist := genre_by_artist st;
            artist_calls := artist_calls st;
            genre_world := genre_world st |}
  | Ok artist_id =>
      let '(w, response) := sp_artist (genre_world st) artist_id in
      let '(gc, gba) :=
        match (artist_info <- response;; AppV2.genres_of artist_info) with
        | Ok genres =>
            AppV2.count_genres name genres (genre_counter st) (genre_by_artist st)
        | Raise _ => (genre_counter st, genre_by_artist st)
        end in
      Ok {| genre_counter := gc;
            artist_counter := ac;
            genre_by_artist := gba;
            artist_calls := artist_calls st ++ [artist_id];
            genre_world := w |}
  end.

Fixpoint artists_loop (artists : list pyval) (st : genre_state)
  : result genre_state :=
  match artists with
  | [] => Ok st
  | artist :: rest =>
      st' <- artist_step st artist;;
      artists_loop rest st'
  end.

Definition track_step (st : genre_state) (track : pyval) : result genre_state :=
  track_obj <- unwrap track;;
  artists <- py_get track_obj "artists" (VList []);;
  items <- py_iter artists;;
  artists_loop items st.

Fixpoint tracks_loop (tracks : list pyval) (st : genre_state)
  : result genre_state :=
  match tracks with
  | [] => Ok st
  | track :: rest =>
      st' <- track_step st track;;
      tracks_loop rest st'
  end.

Definition analyze_genres (w : World) (tracks : list pyval) : result genre_state :=
  tracks_loop tracks (genre_init w).
End Genres.

(** The list comprehension of [analyze_popularity]. *)
Fixpoint popularities_of (tracks : list pyval) : result (list pyval) :=
  match tracks with
  | [] => Ok []
  | track :: rest =>
      track_obj <- unwrap track;;
      cond <- py_get track_obj "popularity" VNone;;
      if truthy cond then
        track_obj' <- unwrap track;;
        v <- py_get track_obj' "popularity" (VInt 0);;
        vs <- popularities_of rest;;
        Ok (v :: vs)
      else popularities_of rest
  end.

Definition analyze_popularity (tracks : list pyval)
  : result (option AppV2.popularity_stats) :=
  popularities <- popularities_of tracks;;
  AppV2.stats_of popularities.

(** One iteration of the loop of [get_decade_distribution]: no length
    test, and a bare [except]. *)
Definition decade_step (decades : gmap string nat) (track : pyval)
  : result (gmap string nat) :=
  track_obj <- unwrap track;;
  album <- py_get track_obj "album" (VDict []);;
  release_date <- py_get album "release_date" (VStr "");;
  if truthy release_date then
    match AppV2.decade_of release_date with
    | Ok decade => Ok (counter_incr (AppV2.decade_label decade) decades)
    | Raise _ => Ok decades
    end
  else Ok decades.

Fixpoint decade_loop (tracks : list pyval) (decades : gmap string nat)
  : result (gmap string nat) :=
  match tracks with
  | [] => Ok decades
  | track :: rest =>
      decades' <- decade_step decades track;;
      decade_loop rest decades'
  end.

Definition get_decade_distribution (tracks : list pyval)
  : result (gmap string nat) :=
  decade_loop tracks ∅.

Section Reconciler.
Context {World : Type}.
Variable sp_search : World -> string -> World * result pyval.
Variable format : pyval -> string.

Record search_state : Type := {
  track_uris : list pyval;
  songs_found_count : nat;
  search_calls : list string;
  search_world : World
}.

Definition search_init (w : World) : search_state :=
  {| track_uris := []; songs_found_count := 0;
     search_calls := []; search_world := w |}.

(** [f"track:\"{song['track']}\" artist:\"{song['artist']}\""] *)
Definition query_specific (song : pyval) : result string :=
  track <- py_item song "track";;
  artist <- py_item song "artist";;
  Ok ("track:" +:+ dquote +:+ format track +:+ dquote +:+
      " artist:" +:+ dquote +:+ format artist +:+ dquote).

(** [f"{song['artist']} {song['track']}"] *)
Definition query_general (song : pyval) : result string :=
  artist <- py_item song "artist";;
  track <- py_item song "track";;
  Ok (format artist +:+ " " +:+ format track).

(** One [try: ... except Exception: pass] phase, the building of the
    query included. It gives the queries it issued. *)
Definition search_phase (query : result string) (w : World) (track_uri : pyval)
  : World * pyval * list string :=
  match query with
  | Raise _ => (w, track_uri, [])
  | Ok q =>
      let '(w', response) := sp_search w q in
      match (results <- response;; AppV2.first_uri results track_uri) with
      | Ok uri => (w', uri, [q])
      | Raise _ => (w', track_uri, [q])
      end
  end.

(** The loop body after the target test. Both branches of the final
    [if] format [song['track']] for the progress text, outside any
    [try]. *)
Definition search_song (st : search_state) (song : pyval) : result search_state :=
  let track_uri := VNone in
  let '(w1, track_uri, calls1) :=
    search_phase (query_specific song) (search_world st) track_uri in
  let '(w2, track_uri, calls2) :=
    if negb (truthy track_uri)
    then search_phase (query_general song) w1 track_uri
    else (w1, track_uri, []) in
  if truthy track_uri then
    _ <- py_item song "track";;
    Ok {| track_uris := track_uris st ++ [track_uri];
          songs_found_count := S (songs_found_count st);
          search_calls := (search_calls st ++ calls1 ++ calls2)%list;
          search_world := w2 |}
  else
    _ <- py_item song "track";;
    Ok {| track_uris := track_uris st;
          songs_found_count := songs_found_count st;
          search_calls := (search_calls st ++ calls1 ++ calls2)%list;
          search_world := w2 |}.

Fixpoint search_loop (songs : list pyval) (st : search_state) : result search_state :=
  match songs with
  | [] => Ok st
  | song :: rest =>
      if (10 <=? songs_found_count st)%nat then Ok st
      else
        st' <- search_song st song;;
        search_loop rest st'
  end.

Definition reconcile (w : World) (songs_to_search : list pyval) : result search_state :=
  search_loop songs_to_search (search_init w).
End Reconciler.

End App.

(** ** The vocabulary of the specification *)

Module Spec.
Import Py.

(** Field [k] of a record, [None] when the record has no such field. *)
Definition field (k : string) (t : pyval) : pyval :=
  match t with
  | VDict d => dict_get k d VNone
  | _ => VNone
  end.

Definition has_field (k : string) (t : pyval) : bool :=
  match t with
  | VDict d => dict_has k d
  | _ => false
  end.

(** The Track invariants of the data model. *)
Definition nonempty_id (t : pyval) : bool := truthy (field "id" t).

Definition nonempty_name (t : pyval) : bool := truthy (field "name" t).

Definition nonempty_artists (t : pyval) : bool :=
  match field "artists" t with
  | VList (_ :: _) => true
  | _ => false
  end.

Definition popularity_in_range (t : pyval) : bool :=
  match field "popularity" t with
  | VInt z => (0 <=? z) && (z <=? 100)
  | _ => false
  end.

Definition usable_album (t : pyval) : bool :=
  truthy (field "album" t) && is_dict (field "album" t).

(** A raw item the sanitizer keeps: it has a candidate track object, and
    the candidate has a non-empty [id]. *)
Definition candidate (item : pyval) : option pydict :=
  match AppV2.track_object item with
  | Some d =>
      if truthy (VDict d) && truthy (dict_get "id" d VNone) then Some d else None
  | None => None
  end.

(** What one raw item contributes to the clean list. *)
Definition emitted (item : pyval) : list pyval :=
  match candidate item with
  | Some d => [VDict (fst (AppV2.patch_track d))]
  | None => []
  end.

Definition dropped (item : pyval) : nat :=
  match candidate item with Some _ => 0 | None => 1 end.

Definition patched (item : pyval) : nat :=
  match candidate item with
  | Some d => if snd (AppV2.patch_track d) then 1 else 0
  | None => 0
  end.

(** An emitted track that a second pass would read as a wrapper: it
    carries a [track] field holding a mapping. *)
Definition looks_like_wrapper (t : pyval) : bool := is_dict (field "track" t).

(** The Track invariants as the specification lists them. *)
Definition track_invariants (t : pyval) : bool :=
  nonempty_id t && nonempty_name t && nonempty_artists t && popularity_in_range t.

(** The sanitizer contract as the specification states it. *)
Definition sanitizer_contract (tracks : list pyval) : Prop :=
  (length (AppV2.sanitize_track_list tracks) <= length tracks)%nat /\
  forallb track_invariants (AppV2.sanitize_track_list tracks) = true.

(** Idempotence as the specification states it: a second pass gives the
    same list, drops nothing and patches nothing. *)
Definition sanitizer_idempotent (tracks : list pyval) : Prop :=
  AppV2.sanitize_run (AppV2.sanitize_track_list tracks) =
  {| AppV2.clean_tracks := AppV2.sanitize_track_list tracks;
     AppV2.invalid_count := 0;
     AppV2.patched_count := 0 |}.

(** A track object on which none of the four field checks fires. *)
Definition fully_populated (d : pydict) : bool :=
  truthy (dict_get "name" d VNone)
  && (truthy (dict_get "artists" d VNone) && is_list (dict_get "artists" d VNone))
  && (truthy (dict_get "album" d VNone) && is_dict (dict_get "album" d VNone))
  && dict_has "popularity" d.

(** The popularity the sanitizer leaves on a candidate. *)
Definition popularity_after (cand : pydict) : pyval :=
  if dict_has "popularity" cand then dict_get "popularity" cand VNone else VInt 0.

(** *** Decades *)

(** [album.release_date], absent when either level is missing. *)
Definition release_date (track : pyval) : pyval :=
  field "release_date" (field "album" track).

(** The decade of a release date: the date is a text of at least four
    characters whose first four parse as a whole number, the year; the
    decade is the year floor-divided by ten, times ten. *)
Definition decade_of_date (date : pyval) : option Z :=
  match date with
  | VStr s =>
      if (4 <=? str_len s)%nat
      then option_map (fun year => year / 10 * 10) (int_of_string (str_take 4 s))
      else None
  | _ => None
  end.

(** The histogram bucket a track falls in, if any. *)
Definition bucket_of (track : pyval) : option string :=
  option_map AppV2.decade_label (decade_of_date (release_date track)).

(** How many of the tracks fall in the bucket [label]. *)
Definition bucket_count (label : string) (tracks : list pyval) : nat :=
  occurrences bucket_of label tracks.

(** Counting one track into a histogram. *)
Definition add_bucket (decades : gmap string nat) (track : pyval) : gmap string nat :=
  tally bucket_of decades track.

(** The release date is empty or something [len] applies to: the decade
    analysis does not stop on it. *)
Definition date_has_len (track : pyval) : bool :=
  negb (truthy (release_date track))
  || match py_len (release_date track) with Ok _ => true | Raise _ => false end.

(** A kept item whose album is missing or is not a mapping. *)
Definition album_unusable (item : pyval) : bool :=
  match candidate item with
  | Some cand => negb (is_dict (dict_get "album" cand VNone))
  | None => false
  end.

(** Raw items for examples: two without an album, one whose album is a
    text, one with a dated album, and one that is no record at all. *)
Definition mixed_albums : list pyval :=
  [VDict [("id", VStr "a")];
   VDict [("track", VDict [("id", VStr "b"); ("album", VStr "Greatest Hits")])];
   VDict [("id", VStr "c"); ("album", VDict [("release_date", VStr "1987")])];
   VDict [("id", VStr "d"); ("album", VNone)];
   VBool true].

(** The first example scenario of the specification. *)
Definition scenario_item : pyval :=
  VDict [("track",
          VDict [("id", VStr "t1"); ("popularity", VInt 80);
                 ("album", VDict [("release_date", VStr "1994-03-01")])])].

Definition scenario_histogram (label : string) : Prop :=
  AppV2.get_decade_distribution (AppV2.sanitize_track_list [scenario_item]) =
  Ok {[label := 1%nat]}.

(** *** Popularity *)





(** *** Genres and artists *)

(** The artist references a track yields to the analysis. *)
Definition artist_items (track : pyval) : list pyval :=
  match track with
  | VDict d =>
      match py_iter (dict_get "artists" d (VList [])) with
      | Ok items => items
      | Raise _ => []
      end
  | _ => []
  end.

(** The id under which an artist reference is looked up: the reference
    is a record with a non-empty id. *)
Definition looked_up_id (artist : pyval) : option key :=
  match artist with
  | VDict a =>
      if truthy (dict_get "id" a VNone) then key_of (dict_get "id" a VNone)
      else None
  | _ => None
  end.

(** The name under which such a reference is counted. *)
Definition counted_name (artist : pyval) : option key :=
  match artist with
  | VDict a =>
      if truthy (dict_get "id" a VNone)
      then key_of (dict_get "name" a (VStr "Unknown"))
      else None
  | _ => None
  end.

(** How often the name occurs on the tracks. *)
Definition appearances (name : key) (tracks : list pyval) : nat :=
  occurrences counted_name name (flat_map artist_items tracks).

(** An artist reference the analysis can hash: one it passes over, or a
    record whose id and name are hashable. *)
Definition artist_ok (artist : pyval) : bool :=
  match artist with
  | VDict a =>
      if truthy (dict_get "id" a VNone) then
        match key_of (dict_get "id" a VNone),
              key_of (dict_get "name" a (VStr "Unknown")) with
        | Some _, Some _ => true
        | _, _ => false
        end
      else true
  | _ => true
  end.

(** A track the genre analysis runs through: a record whose artists can
    be iterated and hashed. *)
Definition genre_input_ok (track : pyval) : bool :=
  match track with
  | VDict d =>
      match py_iter (dict_get "artists" d (VList [])) with
      | Ok items => forallb artist_ok items
      | Raise _ => false
      end
  | _ => false
  end.

(** The ids looked up so far, as keys. *)
Definition call_keys (calls : list pyval) : list key := omap key_of calls.

(** What the loop keeps true of its lookups: no id was looked up twice,
    every looked-up id is in the processed set, and nothing else is. *)
Definition lookup_inv {World : Type} (st : @AppV2.genre_state World) : Prop :=
  NoDup (call_keys (AppV2.artist_calls st)) /\
  length (call_keys (AppV2.artist_calls st)) = length (AppV2.artist_calls st) /\
  forall k, k ∈ call_keys (AppV2.artist_calls st) <-> k ∈ AppV2.processed_artists st.

(** A catalog stand-in for examples: its state counts the calls made,
    and every artist it is asked about plays rock. *)
Definition counting_catalog (calls : nat) (artist_id : pyval) : nat * result pyval :=
  (S calls, Ok (VDict [("genres", VList [VStr "rock"])])).

Definition three_tracks_two_artists : list pyval :=
  [VDict [("id", VStr "t1");
          ("artists", VList [VDict [("id", VStr "x"); ("name", VStr "X")]])];
   VDict [("id", VStr "t2");
          ("artists", VList [VDict [("id", VStr "x"); ("name", VStr "X")];
                             VDict [("id", VStr "y"); ("name", VStr "Y")]])];
   VDict [("id", VStr "t3");
          ("artists", VList [VDict [("id", VStr "x"); ("name", VStr "X")]])]].

(** *** Merging sources *)

(** The key a track is merged under: its id, when the track is a record
    with a non-empty id. *)
Definition merge_key (track : pyval) : option key :=
  match track with
  | VDict d =>
      if truthy (dict_get "id" d VNone) then key_of (dict_get "id" d VNone)
      else None
  | _ => None
  end.

(** A track the merge can take: a falsy value, or a record whose id is
    empty or hashable. *)
Definition mergeable (track : pyval) : bool :=
  negb (truthy track)
  || match track with
     | VDict d =>
         negb (truthy (dict_get "id" d VNone))
         || match key_of (dict_get "id" d VNone) with
            | Some _ => true
            | None => false
            end
     | _ => false
     end.

(** Entering one track under its key. *)
Definition merge_step (d : AppV2.tracks_dict) (track : pyval) : AppV2.tracks_dict :=
  match merge_key track with
  | Some k => AppV2.tracks_dict_set k track d
  | None => d
  end.

(** Reading the insertion-ordered map. *)
Fixpoint tracks_dict_get (k : key) (d : AppV2.tracks_dict) : option pyval :=
  match d with
  | [] => None
  | (k', track) :: rest =>
      if decide (k = k') then Some track else tracks_dict_get k rest
  end.

(** The tracks a playlist contributes: none when the playlist record has
    no id to fetch by, or when the fetch fails. *)
Definition playlist_source (get_playlist_tracks : pyval -> result (list pyval))
    (playlist : pyval) : list pyval :=
  match (playlist_id <- py_item playlist "id";;
         get_playlist_tracks playlist_id) with
  | Ok playlist_tracks => playlist_tracks
  | Raise _ => []
  end.

(** The library followed by the playlists, in scan order. *)
Definition all_sources (get_playlist_tracks : pyval -> result (list pyval))
    (saved_tracks playlists : list pyval) : list pyval :=
  saved_tracks ++ flat_map (playlist_source get_playlist_tracks) playlists.

(** The last track of the sources that carries the key [k]. *)
Definition last_with_key (k : key) (sources : list pyval) : option pyval :=
  last (List.filter (fun track => bool_decide (merge_key track = Some k)) sources).

(** The distinct keys of the sources. *)
Definition distinct_keys (sources : list pyval) : list key :=
  remove_dups (omap merge_key sources).

(** A playlist service for examples: playlist [p1] holds tracks [x9] and
    [b], playlist [p2] holds [x9] again, in another version, and [c];
    any other playlist fails to load. *)
Definition two_playlists (playlist_id : pyval) : result (list pyval) :=
  match playlist_id with
  | VStr "p1" =>
      Ok [VDict [("id", VStr "x9"); ("name", VStr "first")];
          VDict [("id", VStr "b")]]
  | VStr "p2" =>
      Ok [VDict [("id", VStr "x9"); ("name", VStr "second")];
          VDict [("id", VStr "c")]]
  | _ => Raise ServiceError
  end.

(** *** Reconciliation *)

(** The text an f-string puts for the scalar values; lists and records
    print as their [repr], which is not modelled, and the examples carry
    text only. *)
Definition format_text (v : pyval) : string :=
  match v with
  | VStr s => s
  | VInt z => pretty z
  | VNone => "None"
  | VBool true => "True"
  | VBool false => "False"
  | VList _ | VDict _ => ""
  end.

Definition search_hit (uri : string) : pyval :=
  VDict [("tracks", VDict [("items", VList [VDict [("uri", VStr uri)]])])].

(** Catalogs for examples; their state counts the searches made. The
    first finds every query. The second fails, with an exception, every
    field query (those that open with [track:]) and finds every other
    one. *)
Definition finds_all (searches : nat) (query : string) : nat * result pyval :=
  (S searches, Ok (search_hit "spotify:track:1")).

Definition finds_free_text_only (searches : nat) (query : string)
  : nat * result pyval :=
  if String.prefix "track:" query then (S searches, Raise ServiceError)
  else (S searches, Ok (search_hit "spotify:track:2")).

Definition song (artist track : string) : pyval :=
  VDict [("artist", VStr artist); ("track", VStr track)].

(** Twelve suggestions. *)
Definition twelve_songs : list pyval :=
  map (song "Artist")
    ["1"; "2"; "3"; "4"; "5"; "6"; "7"; "8"; "9"; "10"; "11"; "12"].

End Spec.

(** ** appv2.py: the calls to the catalog client around the core *)

Module Client.
Import Py AppV2.

(** [range(n)] *)
Definition py_range (n : Z) : list Z := map Z.of_nat (seq 0 (Z.to_nat n)).

(** [a == b] on decoded values: [True == 1], lists item by item, dicts
    key by key whatever the order. *)
Fixpoint py_eq (a b : pyval) : bool :=
  match a, b with
  | VNone, VNone => true
  | VBool x, VBool y => Bool.eqb x y
  | VBool x, VInt y => Z.b2z x =? y
  | VInt x, VBool y => x =? Z.b2z y
  | VInt x, VInt y => x =? y
  | VStr x, VStr y => String.eqb x y
  | VList x, VList y =>
      (fix eq_items (x y : list pyval) {struct x} : bool :=
         match x, y with
         | [], [] => true
         | u :: x', v :: y' => py_eq u v && eq_items x' y'
         | _, _ => false
         end) x y
  | VDict x, VDict y =>
      (length x =? length y)%nat
      && (fix eq_entries (x : pydict) {struct x} : bool :=
            match x with
            | [] => true
            | (k, u) :: x' =>
                match dict_lookup k y with
                | Some v => py_eq u v && eq_entries x'
                | None => false
                end
            end) x
  | _, _ => false
  end.

(** [v > 0] *)
Definition py_gt_zero (v : pyval) : result bool :=
  match v with
  | VInt z => Ok (0 <? z)
  | VBool b => Ok b
  | _ => Raise TypeError
  end.

(** *** The retry decorator *)

(** What a decorated call leaves behind: the service as the last attempt
    left it, the attempts made and the seconds slept between them. *)
Record retry_run (World : Type) : Type := {
  retry_world : World;
  retry_calls : nat;
  retry_slept : Z
}.
Arguments Build_retry_run {World}.
Arguments retry_world {World}.
Arguments retry_calls {World}.
Arguments retry_slept {World}.

Section Retry.
Context {World A : Type}.
Variable max_retries : Z.
Variable delay : Z.
(** The decorated function applied to its arguments: [None] when the call
    does not return. *)
Variable func : World -> option (World * result A).

(** [for attempt in range(max_retries)] over the attempts left. The
    result [Ok None] is the [return None] after the loop;
    [time.sleep] raises [ValueError] on a negative delay. *)
Fixpoint retry_loop (attempts : list Z) (st : retry_run World)
  : option (retry_run World * result (option A)) :=
  match attempts with
  | [] => Some (st, Ok None)
  | attempt :: rest =>
      match func (retry_world st) with
      | None => None
      | Some (w, r) =>
          let st' := {| retry_world := w;
                        retry_calls := S (retry_calls st);
                        retry_slept := retry_slept st |} in
          match r with
          | Ok a => Some (st', Ok (Some a))
          | Raise e =>
              if attempt =? max_retries - 1 then Some (st', Raise e)
              else if delay <? 0 then Some (st', Raise ValueError)
              else retry_loop rest
                     {| retry_world := w;
                        retry_calls := S (retry_calls st);
                        retry_slept := retry_slept st + delay |}
          end
      end
  end.

(** The [wrapper] that [retry_on_error(max_retries, delay)] puts around
    [func]. *)
Definition retry_on_error (w : World)
  : option (retry_run World * result (option A)) :=
  retry_loop (py_range max_retries)
    {| retry_world := w; retry_calls := 0; retry_slept := 0 |}.
End Retry.

(** A function body that returns, under [@retry_on_error(max_retries=3)]. *)
Definition retried {World A : Type} (body : World -> World * A) (w : World)
  : option (retry_run World * result (option A)) :=
  retry_on_error 3 2 (fun w => let '(w', a) := body w in Some (w', Ok a)) w.

(** *** Top lists, recent plays and the library size *)

Section Fetchers.
Context {World : Type}.
(** The calls of [self.sp]: each takes the state of the service and
    gives the new state with the decoded response, or the exception the
    call ends with. *)
Variable sp_current_user_top_tracks : World -> pyval -> pyval -> World * result pyval.
Variable sp_current_user_top_artists : World -> pyval -> pyval -> World * result pyval.
Variable sp_current_user_recently_played : World -> pyval -> World * result pyval.
Variable sp_current_user_saved_tracks : World -> pyval -> World * result pyval.
Variable sp_current_user_playlists : World -> pyval -> World * result pyval.
Variable sp_playlist_tracks : World -> pyval -> pyval -> World * result pyval.
Variable sp_next : World -> pyval -> World * result pyval.

(** [isinstance(track, dict) and track.get('id')] *)
Definition keeps_id (track : pyval) : bool :=
  match track with
  | VDict d => truthy (dict_get "id" d VNone)
  | _ => false
  end.

(** The [try] block of [get_top_tracks]. *)
Definition top_tracks_of (response : result pyval) : result (list pyval) :=
  results <- response;;
  items <- py_get results "items" (VList []);;
  tracks <- py_iter items;;
  Ok (List.filter keeps_id tracks).

(** The [try] block of [get_top_artists] and of [get_recently_played]. *)
Definition items_of (response : result pyval) : result pyval :=
  results <- response;;
  py_get results "items" (VList []).

(** [get_top_tracks] as written under the decorator: the [except] branch
    returns the empty list. *)
Definition get_top_tracks_body (time_range limit : pyval) (w : World)
  : World * list pyval :=
  let '(w', response) := sp_current_user_top_tracks w time_range limit in
  (w', match top_tracks_of response with
       | Ok tracks => tracks
       | Raise _ => []
       end).

Definition get_top_tracks (w : World) (time_range limit : pyval)
  : option (retry_run World * result (option (list pyval))) :=
  retried (get_top_tracks_body time_range limit) w.

(** [get_top_artists] as written under the decorator. *)
Definition get_top_artists_body (time_range limit : pyval) (w : World)
  : World * pyval :=
  let '(w', response) := sp_current_user_top_artists w time_range limit in
  (w', match items_of response with
       | Ok items => items
       | Raise _ => VList []
       end).

Definition get_top_artists (w : World) (time_range limit : pyval)
  : option (retry_run World * result (option pyval)) :=
  retried (get_top_artists_body time_range limit) w.

(** [get_recently_played] as written under the decorator. *)
Definition get_recently_played_body (limit : pyval) (w : World)
  : World * pyval :=
  let '(w', response) := sp_current_user_recently_played w limit in
  (w', match items_of response with
       | Ok items => items
       | Raise _ => VList []
       end).

Definition get_recently_played (w : World) (limit : pyval)
  : option (retry_run World * result (option pyval)) :=
  retried (get_recently_played_body limit) w.

(** [get_saved_tracks_count]: the announced total, zero when anything
    raises. *)
Definition get_saved_tracks_count (w : World) : World * pyval :=
  let '(w', response) := sp_current_user_saved_tracks w (VInt 1) in
  (w', match (results <- response;; py_get results "total" (VInt 0)) with
       | Ok total => total
       | Raise _ => VInt 0
       end).

(** *** Paged fetches of tracks *)

(** [[item['track'] for item in items if isinstance(safe_get(item,
    'track'), dict) and safe_get(item, 'track', 'id')]] *)
Fixpoint page_tracks (items : list pyval) : result (list pyval) :=
  match items with
  | [] => Ok []
  | item :: rest =>
      if is_dict (safe_get item ["track"] VNone)
         && truthy (safe_get item ["track"; "id"] VNone)
      then
        track <- py_item item "track";;
        tracks <- page_tracks rest;;
        Ok (track :: tracks)
      else page_tracks rest
  end.

(** One pass of [while results:] up to [tracks.extend]: the value of
    [items] and the tracks to append. *)
Definition read_page (results : pyval) : result (pyval * list pyval) :=
  items <- py_get results "items" (VList []);;
  page <- py_iter items;;
  tracks <- page_tracks page;;
  Ok (items, tracks).

(** The pass from [fetched += len(items)] to the test of [next]. *)
Definition after_extend (results total items : pyval) (fetched : nat)
  : result (nat * pyval) :=
  n <- py_len items;;
  shown <- py_gt_zero total;;
  next <- py_get results "next" VNone;;
  Ok ((fetched + n)%nat, next).

(** The [while results:] loop inside the [try], one unit of fuel a pass.
    An exception leaves the loop with the tracks appended so far. *)
Fixpoint fetch_pages (fuel : nat) (w : World) (results total : pyval)
    (fetched : nat) (tracks : list pyval) : option (World * list pyval) :=
  match fuel with
  | O => None
  | S fuel' =>
      if truthy results then
        match read_page results with
        | Raise _ => Some (w, tracks)
        | Ok (items, page) =>
            let tracks := tracks ++ page in
            match after_extend results total items fetched with
            | Raise _ => Some (w, tracks)
            | Ok (fetched, next) =>
                if truthy next then
                  let '(w', response) := sp_next w results in
                  match response with
                  | Ok results' =>
                      fetch_pages fuel' w' results' total fetched tracks
                  | Raise _ => Some (w', tracks)
                  end
                else Some (w, tracks)
            end
        end
      else Some (w, tracks)
  end.

(** The body shared by [get_all_saved_tracks] and [get_playlist_tracks],
    after the first call. *)
Definition fetch_all (fuel : nat) (first : World * result pyval)
  : option (World * list pyval) :=
  let '(w, response) := first in
  match (results <- response;;
         total <- py_get results "total" (VInt 0);;
         Ok (results, total)) with
  | Ok (results, total) => fetch_pages fuel w results total 0 []
  | Raise _ => Some (w, [])
  end.

Definition get_all_saved_tracks (fuel : nat) (w : World)
  : option (World * list pyval) :=
  fetch_all fuel (sp_current_user_saved_tracks w (VInt 50)).

Definition get_playlist_tracks (fuel : nat) (w : World) (playlist_id : pyval)
  : option (World * list pyval) :=
  fetch_all fuel (sp_playlist_tracks w playlist_id (VInt 100)).

(** *** The user's playlists *)

(** The [while results:] loop of [get_user_playlists]: here an exception
    leaves the whole [try]. *)
Fixpoint playlist_pages (fuel : nat) (w : World) (results : pyval)
    (playlists : list pyval) : option (World * result (list pyval)) :=
  match fuel with
  | O => None
  | S fuel' =>
      if truthy results then
        match (items <- py_get results "items" (VList []);;
               page <- py_iter items;;
               next <- py_get results "next" VNone;;
               Ok (page, next)) with
        | Raise e => Some (w, Raise e)
        | Ok (page, next) =>
            let playlists := playlists ++ page in
            if truthy next then
              let '(w', response) := sp_next w results in
              match response with
              | Ok results' => playlist_pages fuel' w' results' playlists
              | Raise e => Some (w', Raise e)
              end
            else Some (w, Ok playlists)
        end
      else Some (w, Ok playlists)
  end.

(** [p and (safe_get(p, 'owner', 'id') == self.user_id or
    p.get('collaborative'))] *)
Definition is_user_playlist (user_id p : pyval) : result bool :=
  if truthy p then
    if py_eq (safe_get p ["owner"; "id"] VNone) user_id then Ok true
    else
      collaborative <- py_get p "collaborative" VNone;;
      Ok (truthy collaborative)
  else Ok false.

(** [[p for p in playlists if ...]] *)
Fixpoint user_playlists (user_id : pyval) (playlists : list pyval)
  : result (list pyval) :=
  match playlists with
  | [] => Ok []
  | p :: rest =>
      keep <- is_user_playlist user_id p;;
      kept <- user_playlists user_id rest;;
      Ok (if keep : bool then p :: kept else kept)
  end.

(** [get_user_playlists] as written under the decorator: every
    exception inside the [try] gives the empty list. *)
Definition get_user_playlists_body (fuel : nat) (user_id : pyval) (w : World)
  : option (World * list pyval) :=
  let '(w1, response) := sp_current_user_playlists w (VInt 50) in
  match response with
  | Raise _ => Some (w1, [])
  | Ok results =>
      match playlist_pages fuel w1 results [] with
      | None => None
      | Some (w2, fetched) =>
          Some (w2, match (playlists <- fetched;;
                           user_playlists user_id playlists) with
                    | Ok kept => kept
                    | Raise _ => []
                    end)
      end
  end.

Definition get_user_playlists (fuel : nat) (w : World) (user_id : pyval)
  : option (retry_run World * result (option (list pyval))) :=
  retry_on_error 3 2
    (fun w => match get_user_playlists_body fuel user_id w with
              | Some (w', playlists) => Some (w', Ok playlists)
              | None => None
              end) w.
End Fetchers.

(** *** The report: the [top_tracks] entry of [run_analysis_on_tracklist] *)

(** [[f(x) for x in l]] where [f] can raise. *)
Fixpoint comprehension {A B : Type} (f : A -> result B) (l : list A)
  : result (list B) :=
  match l with
  | [] => Ok []
  | x :: rest =>
      y <- f x;;
      ys <- comprehension f rest;;
      Ok (y :: ys)
  end.

(** [[a.get('name', 'Unknown') for a in track.get('artists', [])]] *)
Definition artist_names (track : pyval) : result (list pyval) :=
  artists <- py_get track "artists" (VList []);;
  items <- py_iter artists;;
  comprehension (fun a => py_get a "name" (VStr "Unknown")) items.

Definition top_track_entry (track : pyval) : result pyval :=
  name <- py_get track "name" (VStr "Unknown");;
  artists <- artist_names track;;
  Ok (VDict [("name", name);
             ("artists", VList artists);
             ("album", safe_get track ["album"; "name"] (VStr "Unknown"))]).

(** [[{...} for track in clean_tracks[:20]]] *)
Definition report_top_tracks (clean_tracks : list pyval) : result (list pyval) :=
  comprehension top_track_entry (take 20 clean_tracks).

(** *** [get_top_tracks_and_artists] *)

(** One entry of [top_artists_data]. *)
Definition artist_summary (artist : pyval) : result pyval :=
  name <- py_get artist "name" (VStr "Unknown");;
  popularity <- py_get artist "popularity" (VInt 0);;
  genres <- py_get artist "genres" (VList []);;
  Ok (VDict [("name", name);
             ("popularity", popularity);
             ("followers", safe_get artist ["followers"; "total"] (VInt 0));
             ("genres", genres)]).

(** [for artist in top_artists_api], on what the decorated
    [get_top_artists] returned. *)
Definition top_artists_data (top_artists_api : option pyval)
  : result (list pyval) :=
  artists <- match top_artists_api with
             | Some items => py_iter items
             | None => Raise TypeError
             end;;
  comprehension artist_summary artists.

Section TopLists.
Context {World : Type}.
Variable sp_current_user_top_tracks : World -> pyval -> pyval -> World * result pyval.
Variable sp_current_user_top_artists : World -> pyval -> pyval -> World * result pyval.

Definition get_top_tracks_and_artists (w : World) (time_range : pyval)
  : option (World * result (option (list pyval) * list pyval)) :=
  match get_top_tracks sp_current_user_top_tracks w time_range (VInt 50) with
  | None => None
  | Some (run1, Raise e) => Some (retry_world run1, Raise e)
  | Some (run1, Ok top_tracks) =>
      match get_top_artists sp_current_user_top_artists (retry_world run1)
              time_range (VInt 50) with
      | None => None
      | Some (run2, fetched) =>
          Some (retry_world run2,
                top_artists_api <- fetched;;
                data <- top_artists_data top_artists_api;;
                Ok (top_tracks, data))
      end
  end.
End TopLists.

(** *** [create_spotify_playlist], from the decoded suggestion on *)

Inductive creation_outcome : Type :=
  | EmptySuggestions
  | NothingFound
  | Created
  | Failed (e : exn).

(** How the function ends, with the calls it made that write to the
    account: the names passed to [user_playlist_create] and the
    arguments of [playlist_add_items]. *)
Record creation_run : Type := {
  outcome : creation_outcome;
  create_calls : list string;
  add_calls : list (pyval * list pyval)
}.

Section Creation.
Context {World : Type}.
Variable sp_search : World -> string -> World * result pyval.
Variable sp_user_playlist_create : World -> pyval -> string -> World * result pyval.
Variable sp_playlist_add_items : World -> pyval -> list pyval -> World * result pyval.
Variable format : pyval -> string.

(** From [data.get('songs', [])] to the end of the search loop. [None]
    is the early [return] on an empty suggestion list. *)
Definition search_suggestions (w : World) (decoded : result pyval)
  : result (option (search_state (World := World))) :=
  data <- decoded;;
  songs_to_search <- py_get data "songs" (VList []);;
  if negb (truthy songs_to_search) then Ok None
  else
    n <- py_len songs_to_search;;
    songs <- py_iter songs_to_search;;
    st <- reconcile sp_search format w songs;;
    Ok (Some st).

(** [playlist_json] enters as what [json.loads] made of it. *)
Definition create_spotify_playlist (w : World) (user_id : pyval)
    (playlist_name : string) (decoded : result pyval) : creation_run :=
  match search_suggestions w decoded with
  | Raise e => {| outcome := Failed e; create_calls := []; add_calls := [] |}
  | Ok None =>
      {| outcome := EmptySuggestions; create_calls := []; add_calls := [] |}
  | Ok (Some st) =>
      if negb (truthy (VList (track_uris st))) then
        {| outcome := NothingFound; create_calls := []; add_calls := [] |}
      else
        let '(w1, created) :=
          sp_user_playlist_create (search_world st) user_id playlist_name in
        match (playlist <- created;;
               playlist_id <- py_item playlist "id";;
               Ok (playlist, playlist_id)) with
        | Raise e =>
            {| outcome := Failed e;
               create_calls := [playlist_name]; add_calls := [] |}
        | Ok (playlist, playlist_id) =>
            let '(w2, added) :=
              sp_playlist_add_items w1 playlist_id (track_uris st) in
            {| outcome :=
                 match (_ <- added;;
                        urls <- py_item playlist "external_urls";;
                        py_item urls "spotify") with
                 | Ok _ => Created
                 | Raise e => Failed e
                 end;
               create_calls := [playlist_name];
               add_calls := [(playlist_id, track_uris st)] |}
        end
  end.
End Creation.

End Client.

(** ** app.py: gathering the audio features *)

Module Audio.
Import Py.

(** [range(0, n, 50)] *)
Definition batch_starts (n : nat) : list nat :=
  map (fun k => (k * 50)%nat) (seq 0 (Nat.div (n + 49) 50)).

Section Features.
Context {World : Type}.
Variable sp_audio_features : World -> list pyval -> World * result pyval.

Definition is_none (v : pyval) : bool :=
  match v with VNone => true | _ => false end.

Definition get_audio_features (w : World) (track_ids : list pyval)
  : World * list pyval :=
  let '(w', response) := sp_audio_features w track_ids in
  (w', match (features <- response;;
              items <- py_iter features;;
              Ok (List.filter (fun f => negb (is_none f)) items)) with
       | Ok found => found
       | Raise _ => []
       end).

(** [[track['id'] for track in tracks if track.get('id')]] *)
Fixpoint track_ids_of (tracks : list pyval) : result (list pyval) :=
  match tracks with
  | [] => Ok []
  | track :: rest =>
      id <- py_get track "id" VNone;;
      if truthy id then
        id' <- py_item track "id";;
        ids <- track_ids_of rest;;
        Ok (id' :: ids)
      else track_ids_of rest
  end.

(** [track_ids[i:i+50]] for the [i] of [range(0, len(track_ids), 50)] *)
Definition batches (track_ids : list pyval) : list (list pyval) :=
  map (fun i => take 50 (drop i track_ids))
      (batch_starts (length track_ids)).

Record gather_state : Type := {
  all_features : list pyval;
  feature_calls : list (list pyval);
  feature_world : World
}.

(** One pass of [for i in range(0, len(track_ids), 50)]. *)
Definition gather_batch (st : gather_state) (batch : list pyval) : gather_state :=
  let '(w, found) := get_audio_features (feature_world st) batch in
  {| all_features := all_features st ++ found;
     feature_calls := feature_calls st ++ [batch];
     feature_world := w |}.

(** [analyze_audio_features] up to the second [return None]: the
    features gathered, or [None] where the function returns [None]. What
    follows averages fractional numbers. *)
Definition gather_audio_features (w : World) (tracks : list pyval)
  : result (gather_state * option (list pyval)) :=
  track_ids <- track_ids_of tracks;;
  let st0 := {| all_features := []; feature_calls := []; feature_world := w |} in
  if negb (truthy (VList track_ids)) then Ok (st0, None)
  else
    let st := fold_left gather_batch (batches track_ids) st0 in
    if negb (truthy (VList (all_features st))) then Ok (st, None)
    else Ok (st, Some (all_features st)).
End Features.

End Audio.

(** ** Vocabulary for the client wrappers *)

Module ClientSpec.
Import Py AppV2 Spec Client.

(** [fails func k w w']: from [w], [k] calls of [func] in a row end with
    an exception and leave the service in [w']. *)
Inductive fails {World A : Type} (func : World -> option (World * result A))
  : nat -> World -> World -> Prop :=
  | fails_none (w : World) : fails func 0 w w
  | fails_more (k : nat) (w w1 w2 : World) (e : exn) :
      func w = Some (w1, Raise e) ->
      fails func k w1 w2 ->
      fails func (S k) w w2.

(** What a response holds under [items]: the empty list when it has
    none, is no record, or the call raised. *)
Definition items_or_empty (response : result pyval) : pyval :=
  match response with
  | Ok (VDict d) => dict_get "items" d (VList [])
  | _ => VList []
  end.

(** A service that counts its calls and answers from call [good_at] on. *)
Definition flaky (good_at : nat) (w : nat) : option (nat * result pyval) :=
  Some (S w, if (w <? good_at)%nat then Raise ServiceError
             else Ok (VInt (Z.of_nat w))).

(** *** Pages *)

(** The items of a page: a non-empty record whose [items] can be
    iterated. *)
Definition page_items (results : pyval) : option (list pyval) :=
  match results with
  | VDict d =>
      if truthy results then
        match py_iter (dict_get "items" d (VList [])) with
        | Ok items => Some items
        | Raise _ => None
        end
      else None
  | _ => None
  end.

Inductive ending : Type := Finished | Broken.

Section Pages.
Context {World : Type}.
Variable sp_next : World -> pyval -> World * result pyval.

(** [paged w results pages ending w']: starting from the response
    [results] with the service in [w], following [next] visits [pages]
    and leaves the service in [w']. The walk is [Finished] at a falsy
    response or at a page without [next]; it is [Broken] when the call
    for the next page raises or answers something that is no page. *)
Inductive paged : World -> pyval -> list (list pyval) -> ending -> World -> Prop :=
  | paged_done (w : World) (results : pyval) :
      truthy results = false ->
      paged w results [] Finished w
  | paged_malformed (w : World) (results : pyval) :
      truthy results = true ->
      page_items results = None ->
      paged w results [] Broken w
  | paged_last (w : World) (results : pyval) (items : list pyval) :
      page_items results = Some items ->
      truthy (field "next" results) = false ->
      paged w results [items] Finished w
  | paged_broken (w w' : World) (results : pyval) (items : list pyval) (e : exn) :
      page_items results = Some items ->
      truthy (field "next" results) = true ->
      sp_next w results = (w', Raise e) ->
      paged w results [items] Broken w'
  | paged_next (w w1 w' : World) (results results' : pyval)
      (items : list pyval) (pages : list (list pyval)) (how : ending) :
      page_items results = Some items ->
      truthy (field "next" results) = true ->
      sp_next w results = (w1, Ok results') ->
      paged w1 results' pages how w' ->
      paged w results (items :: pages) how w'.
End Pages.

(** The tracks a page of wrapped items carries: the [track] of every
    item where it is a record with a non-empty id. *)
Definition tracks_on (items : list pyval) : list pyval :=
  flat_map (fun item => if nonempty_id (field "track" item)
                           && is_dict (field "track" item)
                        then [field "track" item] else [])
           items.

(** The [total] a first response announces. *)
Definition total_of (results : pyval) : pyval :=
  match results with
  | VDict d => dict_get "total" d (VInt 0)
  | _ => VInt 0
  end.

Definition is_number (v : pyval) : bool :=
  match v with
  | VInt _ | VBool _ => true
  | _ => false
  end.

(** A playlist record the user owns, or a collaborative one. *)
Definition owned_or_collaborative (user_id p : pyval) : bool :=
  py_eq (field "id" (field "owner" p)) user_id
  || truthy (field "collaborative" p).

Definition record_or_falsy (p : pyval) : bool :=
  is_dict p || negb (truthy p).

(** *** Example services *)

(** A library of three pages; the state of the service counts the calls
    made. The second item of the first page has no track. *)
Definition wrapped (id : string) : pyval :=
  VDict [("added_at", VStr "2024-01-01");
         ("track", VDict [("id", VStr id); ("name", VStr id)])].

Definition library_page (n : Z) : pyval :=
  match n with
  | 0 => VDict [("items", VList [wrapped "a"; VDict [("track", VNone)]]);
                ("total", VInt 4); ("next", VStr "page-1")]
  | 1 => VDict [("items", VList [wrapped "b"; wrapped "c"]);
                ("total", VInt 4); ("next", VStr "page-2")]
  | _ => VDict [("items", VList [wrapped "d"]);
                ("total", VInt 4); ("next", VNone)]
  end.

Definition library_first (w : nat) (limit : pyval) : nat * result pyval :=
  (S w, Ok (library_page 0)).

Definition library_next (w : nat) (results : pyval) : nat * result pyval :=
  (S w, match field "next" results with
        | VStr "page-1" => Ok (library_page 1)
        | VStr "page-2" => Ok (library_page 2)
        | _ => Raise ServiceError
        end).

(** The same library when the call for the third page fails. *)
Definition library_next_failing (w : nat) (results : pyval) : nat * result pyval :=
  (S w, match field "next" results with
        | VStr "page-1" => Ok (library_page 1)
        | _ => Raise ServiceError
        end).

(** A playlist with the pages of that library, and one whose first page
    announces no total. *)
Definition playlist_first (w : nat) (playlist_id limit : pyval)
  : nat * result pyval :=
  (S w, Ok (library_page 0)).

Definition untotalled_page : pyval :=
  VDict [("items", VList [wrapped "a"]); ("total", VNone);
         ("next", VStr "page-1")].

Definition untotalled_first (w : nat) (playlist_id limit : pyval)
  : nat * result pyval :=
  (S w, Ok untotalled_page).

(** A library page whose second track has a list as its id. *)
Definition odd_id_page : pyval :=
  VDict [("items",
          VList [wrapped "a";
                 VDict [("track", VDict [("id", VList [VInt 7])])]]);
         ("total", VInt 2); ("next", VNone)].

Definition odd_id_first (w : nat) (limit : pyval) : nat * result pyval :=
  (S w, Ok odd_id_page).

(** Two pages of playlists for the user [me]. *)
Definition playlist_entry (id owner : string) (collaborative : bool) : pyval :=
  VDict [("id", VStr id); ("owner", VDict [("id", VStr owner)]);
         ("collaborative", VBool collaborative)].

Definition playlists_page (n : Z) : pyval :=
  match n with
  | 0 => VDict [("items", VList [playlist_entry "p1" "me" false;
                                 playlist_entry "p2" "you" false]);
                ("next", VStr "page-1")]
  | _ => VDict [("items", VList [playlist_entry "p3" "you" true; VNone]);
                ("next", VNone)]
  end.

Definition playlists_first (w : nat) (limit : pyval) : nat * result pyval :=
  (S w, Ok (playlists_page 0)).

Definition playlists_next (w : nat) (results : pyval) : nat * result pyval :=
  (S w, match field "next" results with
        | VStr "page-1" => Ok (playlists_page 1)
        | _ => Raise ServiceError
        end).

Definition playlists_next_failing (w : nat) (results : pyval) : nat * result pyval :=
  (S w, Raise ServiceError).

(** A page of playlists with an entry that is no record. *)
Definition stray_page : pyval :=
  VDict [("items", VList [playlist_entry "p1" "me" false; VStr "stray"]);
         ("next", VNone)].

Definition stray_first (w : nat) (limit : pyval) : nat * result pyval :=
  (S w, Ok stray_page).

(** A top-tracks response with one entry that is no record and one
    without an id. *)
Definition top_response : pyval :=
  VDict [("items",
          VList [VDict [("id", VStr "t1"); ("name", VStr "One")];
                 VStr "stray";
                 VDict [("id", VNone); ("name", VStr "Local file")];
                 VDict [("id", VStr "t2")]])].

Definition top_service (w : nat) (time_range limit : pyval) : nat * result pyval :=
  (S w, Ok top_response).

End ClientSpec.

(** ** Vocabulary for the audio features *)

Module AudioSpec.
Import Py Spec Audio.

(** The ids the analysis asks features for: the non-empty ids of the
    tracks, in order. *)
Definition ids_with_features (tracks : list pyval) : list pyval :=
  List.filter truthy (map (field "id") tracks).

(** [n] tracks numbered from one, and a service that counts its calls
    and answers one record for each id asked. *)
Definition numbered_tracks (n : nat) : list pyval :=
  map (fun k => VDict [("id", VInt (Z.of_nat k))]) (seq 1 n).

Definition features_service (w : nat) (track_ids : list pyval)
  : nat * result pyval :=
  (S w, Ok (VList (map (fun id => VDict [("id", id)]) track_ids))).

End AudioSpec.

(** ** The interpreter operations on sample values *)

Module PyExamples.
Import Py.

Example int_plain : int_of_string "1994" = Some 1994.
Proof. reflexivity. Qed.

Example int_blanks_and_sign : int_of_string " -19 " = Some (-19).
Proof. reflexivity. Qed.

Example int_underscore : int_of_string "1_99" = Some 199.
Proof. reflexivity. Qed.

Example int_rejects_dash : int_of_string "199-" = None.
Proof. reflexivity. Qed.

Example int_rejects_double_underscore : int_of_string "1__9" = None.
Proof. reflexivity. Qed.

Example int_rejects_empty : int_of_string "  " = None.
Proof. reflexivity. Qed.

(** The digits and blanks of other scripts count as [int] has them;
    a sign of another script does not. *)
Example int_full_width_digits : int_of_string "１９９４" = Some 1994.
Proof. reflexivity. Qed.

Example int_arabic_indic_digits : int_of_string "٣٤" = Some 34.
Proof. reflexivity. Qed.

Example int_mixed_scripts : int_of_string "1٣" = Some 13.
Proof. reflexivity. Qed.

Example int_ideographic_blanks : int_of_string "　19　" = Some 19.
Proof. reflexivity. Qed.

Example int_rejects_minus_sign : int_of_string "−5" = None.
Proof. reflexivity. Qed.

Example int_rejects_superscript : int_of_string "19²" = None.
Proof. reflexivity. Qed.

Example code_point_of_wide_one : code_point "１" = 65297.
Proof. reflexivity. Qed.

(** Python's [//] rounds down, as [Z.div] does. *)
Example floor_division_negative : (-199) / 10 * 10 = -200.
Proof. reflexivity. Qed.

Example len_counts_characters : str_len "Albüm" = 5%nat.
Proof. reflexivity. Qed.

Example slice_counts_characters : str_take 4 "çok-uzun" = "çok-".
Proof. reflexivity. Qed.

Example chars_of_text : str_chars "üç" = ["ü"; "ç"].
Proof. reflexivity. Qed.

Example true_and_one_are_one_key : key_of (VBool true) = key_of (VInt 1).
Proof. reflexivity. Qed.

Example dict_set_keeps_position :
  dict_set "a" (VInt 2) [("a", VInt 1); ("b", VInt 0)] =
  [("a", VInt 2); ("b", VInt 0)].
Proof. reflexivity. Qed.

Example dict_set_appends :
  dict_set "c" (VInt 2) [("a", VInt 1); ("b", VInt 0)] =
  [("a", VInt 1); ("b", VInt 0); ("c", VInt 2)].
Proof. reflexivity. Qed.

Example median_even : median [3; 1; 2; 4] = 5 # 2.
Proof. reflexivity. Qed.

Example median_odd : median [3; 1; 2] = 2 # 1.
Proof. reflexivity. Qed.

Example mean_whole : mean [80; 80] = 80 # 1.
Proof. reflexivity. Qed.

End PyExamples.

(** ** Dictionaries: reading after writing *)

Section DictFacts.
Import Py.

Lemma dict_lookup_set (k k' : string) (v : pyval) (d : pydict) :
  dict_lookup k (dict_set k' v d) =
  if String.eqb k k' then Some v else dict_lookup k d.
Proof.
  induction d as [|[k0 v0] d IH]; simpl.
  - destruct (String.eqb k k'); reflexivity.
  - destruct (String.eqb k' k0) eqn:E0; simpl.
    + apply String.eqb_eq in E0. subst k0.
      destruct (String.eqb k k'); reflexivity.
    + rewrite IH. destruct (String.eqb k k0) eqn:E1; [|reflexivity].
      apply String.eqb_eq in E1. subst k0.
      destruct (String.eqb k k') eqn:E2; [|reflexivity].
      apply String.eqb_eq in E2. subst k'.
      rewrite String.eqb_refl in E0. discriminate.
Qed.

Lemma dict_get_set (k k' : string) (v dflt : pyval) (d : pydict) :
  dict_get k (dict_set k' v d) dflt =
  if String.eqb k k' then v else dict_get k d dflt.
Proof.
  unfold dict_get. rewrite dict_lookup_set.
  destruct (String.eqb k k'); reflexivity.
Qed.

Lemma dict_has_set (k k' : string) (v : pyval) (d : pydict) :
  dict_has k (dict_set k' v d) = String.eqb k k' || dict_has k d.
Proof.
  unfold dict_has. rewrite dict_lookup_set.
  destruct (String.eqb k k'); reflexivity.
Qed.

Lemma truthy_get_has (k : string) (d : pydict) :
  truthy (dict_get k d VNone) = true -> dict_has k d = true.
Proof.
  unfold dict_get, dict_has. destruct (dict_lookup k d); [reflexivity|discriminate].
Qed.

Lemma dict_has_nonempty (k : string) (d : pydict) :
  dict_has k d = true -> truthy (VDict d) = true.
Proof. destruct d; [discriminate|reflexivity]. Qed.

End DictFacts.


(** ** The track sanitizer *)

Module Sanitizer.
Import Py AppV2 Spec.

(** A patch stage leaves the fields of the other stages alone. *)
Lemma patch_name_other k s : String.eqb k "name" = false ->
  dict_lookup k (fst (patch_name s)) = dict_lookup k (fst s).
Proof.
  intros Hk. destruct s as [d b]. unfold patch_name.
  destruct (negb _); simpl; [|reflexivity].
  rewrite dict_lookup_set, Hk. reflexivity.
Qed.

Lemma patch_artists_other k s : String.eqb k "artists" = false ->
  dict_lookup k (fst (patch_artists s)) = dict_lookup k (fst s).
Proof.
  intros Hk. destruct s as [d b]. unfold patch_artists.
  destruct (_ || _); simpl; [|reflexivity].
  rewrite dict_lookup_set, Hk. reflexivity.
Qed.

Lemma patch_album_other k s : String.eqb k "album" = false ->
  dict_lookup k (fst (patch_album s)) = dict_lookup k (fst s).
Proof.
  intros Hk. destruct s as [d b]. unfold patch_album.
  destruct (_ || _); simpl; [|reflexivity].
  rewrite dict_lookup_set, Hk. reflexivity.
Qed.

Lemma patch_popularity_other k s : String.eqb k "popularity" = false ->
  dict_lookup k (fst (patch_popularity s)) = dict_lookup k (fst s).
Proof.
  intros Hk. destruct s as [d b]. unfold patch_popularity.
  destruct (negb _); simpl; [|reflexivity].
  rewrite dict_lookup_set, Hk. reflexivity.
Qed.

(** Each stage establishes its own field. *)
Lemma patch_name_own s :
  truthy (dict_get "name" (fst (patch_name s)) VNone) = true.
Proof.
  destruct s as [d b]. unfold patch_name.
  destruct (truthy (dict_get "name" d VNone)) eqn:E; simpl; [exact E|].
  rewrite dict_get_set. reflexivity.
Qed.

Lemma patch_artists_own s :
  exists a l, dict_get "artists" (fst (patch_artists s)) VNone = VList (a :: l).
Proof.
  destruct s as [d b]. unfold patch_artists.
  destruct (_ || _) eqn:E; simpl.
  - rewrite dict_get_set. simpl. eauto.
  - destruct (dict_get "artists" d VNone) as [| | | |[|a l]|];
      simpl in E; rewrite ?orb_true_r in E; try discriminate.
    eauto.
Qed.

Lemma patch_album_own s :
  truthy (dict_get "album" (fst (patch_album s)) VNone) = true /\
  is_dict (dict_get "album" (fst (patch_album s)) VNone) = true.
Proof.
  destruct s as [d b]. unfold patch_album.
  destruct (_ || _) eqn:E; simpl.
  - rewrite dict_get_set. simpl. split; reflexivity.
  - apply orb_false_elim in E as [E1 E2].
    apply negb_false_iff in E1, E2. split; assumption.
Qed.

Lemma patch_popularity_own s :
  dict_lookup "popularity" (fst (patch_popularity s)) =
  Some (popularity_after (fst s)).
Proof.
  destruct s as [d b]. unfold patch_popularity, popularity_after, dict_has, dict_get.
  simpl. destruct (dict_lookup "popularity" d) eqn:E; simpl.
  - exact E.
  - rewrite dict_lookup_set. reflexivity.
Qed.

#[local] Ltac through_stages :=
  unfold dict_get, dict_has;
  rewrite ?patch_popularity_other, ?patch_album_other, ?patch_artists_other,
    ?patch_name_other by reflexivity.

(** What [patch_track] leaves on a candidate, field by field. *)
Lemma patch_track_fields (cand : pydict) :
  let t := VDict (fst (patch_track cand)) in
  nonempty_name t = true /\
  nonempty_artists t = true /\
  usable_album t = true /\
  has_field "popularity" t = true /\
  field "popularity" t = popularity_after cand /\
  field "id" t = dict_get "id" cand VNone /\
  field "track" t = dict_get "track" cand VNone.
Proof.
  unfold patch_track, nonempty_name, nonempty_artists, usable_album,
    has_field, field. cbv beta iota zeta.
  repeat split.
  - pose proof (patch_name_own (cand, false)) as H.
    revert H. through_stages. exact id.
  - destruct (patch_artists_own (patch_name (cand, false))) as (a & l & H).
    revert H. through_stages. intros ->. reflexivity.
  - destruct (patch_album_own (patch_artists (patch_name (cand, false))))
      as [H1 H2].
    revert H1 H2. through_stages. intros -> ->. reflexivity.
  - unfold dict_has. rewrite patch_popularity_own. reflexivity.
  - unfold dict_get at 1. rewrite patch_popularity_own.
    unfold popularity_after. through_stages. reflexivity.
  - through_stages. reflexivity.
  - through_stages. reflexivity.
Qed.

Lemma patch_track_populated (cand : pydict) :
  fully_populated (fst (patch_track cand)) = true.
Proof.
  destruct (patch_track_fields cand) as (Hn & Ha & Hb & Hp & _).
  unfold nonempty_name, nonempty_artists, usable_album, has_field, field in *.
  unfold fully_populated. rewrite Hn, Hb, Hp.
  destruct (dict_get "artists" (patch_track cand).1 VNone) as [| | | |[|a l]|];
    try discriminate.
  reflexivity.
Qed.

(** On a fully populated track object no check fires. *)
Lemma patch_track_fixed (d : pydict) :
  fully_populated d = true -> patch_track d = (d, false).
Proof.
  unfold fully_populated. intros H.
  apply andb_prop in H as [H Hp]. apply andb_prop in H as [H Hb].
  apply andb_prop in H as [Hn Ha]. apply andb_prop in Ha as [Ha1 Ha2].
  apply andb_prop in Hb as [Hb1 Hb2].
  unfold patch_track, patch_name. rewrite Hn. simpl.
  rewrite Ha1, Ha2. simpl. rewrite Hb1, Hb2. simpl. rewrite Hp. reflexivity.
Qed.

(** One loop iteration, in terms of what the item contributes. *)
Lemma sanitize_item_spec (st : sanitize_state) (item : pyval) :
  sanitize_item st item =
  {| clean_tracks := clean_tracks st ++ emitted item;
     invalid_count := invalid_count st + dropped item;
     patched_count := patched_count st + patched item |}.
Proof.
  unfold sanitize_item, emitted, dropped, patched, candidate, count_invalid.
  destruct st as [c i p]. cbn [clean_tracks invalid_count patched_count].
  destruct (track_object item) as [d|].
  - destruct (truthy (VDict d)); cbn [negb andb].
    + destruct (truthy (dict_get "id" d VNone)); cbn [negb].
      * destruct (patch_track d) as [d' [|]]; cbn [fst snd]; f_equal; lia.
      * rewrite app_nil_r. f_equal; lia.
    + rewrite app_nil_r. f_equal; lia.
  - rewrite app_nil_r. f_equal; lia.
Qed.

Lemma sanitize_fold (tracks : list pyval) (st : sanitize_state) :
  fold_left sanitize_item tracks st =
  {| clean_tracks := clean_tracks st ++ flat_map emitted tracks;
     invalid_count := invalid_count st + list_sum (map dropped tracks);
     patched_count := patched_count st + list_sum (map patched tracks) |}.
Proof.
  revert st. induction tracks as [|item tracks IH]; intros st; simpl.
  - destruct st; simpl. rewrite app_nil_r. f_equal; lia.
  - rewrite IH, sanitize_item_spec. simpl. rewrite <- app_assoc.
    f_equal; lia.
Qed.

Lemma sanitize_run_spec (tracks : list pyval) :
  sanitize_run tracks =
  {| clean_tracks := flat_map emitted tracks;
     invalid_count := list_sum (map dropped tracks);
     patched_count := list_sum (map patched tracks) |}.
Proof.
  destruct tracks as [|item tracks]; [reflexivity|].
  unfold sanitize_run. rewrite sanitize_fold. reflexivity.
Qed.

Lemma sanitize_track_list_spec (tracks : list pyval) :
  sanitize_track_list tracks = flat_map emitted tracks.
Proof. unfold sanitize_track_list. rewrite sanitize_run_spec. reflexivity. Qed.

Lemma emitted_length (item : pyval) : (length (emitted item) <= 1)%nat.
Proof. unfold emitted. destruct (candidate item); simpl; lia. Qed.

Lemma sanitize_length (tracks : list pyval) :
  (length (sanitize_track_list tracks) <= length tracks)%nat.
Proof.
  rewrite sanitize_track_list_spec.
  induction tracks as [|item tracks IH]; simpl; [lia|].
  rewrite length_app. pose proof (emitted_length item). lia.
Qed.

(** Every emitted track comes from a kept item of the input. *)
Lemma sanitize_emitted_from (tracks : list pyval) (t : pyval) :
  In t (sanitize_track_list tracks) ->
  exists item cand,
    In item tracks /\ candidate item = Some cand /\
    t = VDict (fst (patch_track cand)).
Proof.
  rewrite sanitize_track_list_spec. intros H.
  apply in_flat_map in H as (item & Hin & Hem).
  unfold emitted in Hem. destruct (candidate item) as [cand|] eqn:E.
  - destruct Hem as [<-|[]]. eauto.
  - destruct Hem.
Qed.

Lemma candidate_id (item : pyval) (cand : pydict) :
  candidate item = Some cand -> truthy (dict_get "id" cand VNone) = true.
Proof.
  unfold candidate. destruct (track_object item) as [d|]; [|discriminate].
  destruct (truthy (VDict d)); simpl; [|discriminate].
  destruct (truthy (dict_get "id" d VNone)) eqn:E; [|discriminate].
  intros [= <-]. exact E.
Qed.

(** A clean track that does not look like a wrapper goes through a
    second pass untouched. *)
Lemma resanitize_item (d : pydict) :
  truthy (dict_get "id" d VNone) = true ->
  fully_populated d = true ->
  looks_like_wrapper (VDict d) = false ->
  emitted (VDict d) = [VDict d] /\ dropped (VDict d) = 0%nat /\
  patched (VDict d) = 0%nat.
Proof.
  intros Hid Hpop Hw.
  unfold looks_like_wrapper, field in Hw.
  unfold emitted, dropped, patched, candidate, track_object.
  rewrite Hw, andb_false_r, (truthy_get_has _ _ Hid).
  rewrite (dict_has_nonempty "id" d (truthy_get_has _ _ Hid)), Hid.
  cbn [andb]. rewrite (patch_track_fixed d Hpop). auto.
Qed.

Lemma resanitize_list (out : list pyval) :
  Forall (fun t => emitted t = [t] /\ dropped t = 0%nat /\ patched t = 0%nat) out ->
  sanitize_run out =
  {| clean_tracks := out; invalid_count := 0; patched_count := 0 |}.
Proof.
  intros H. rewrite sanitize_run_spec.
  induction H as [|t out (He & Hd & Hp) _ IH]; [reflexivity|].
  injection IH as IH1 IH2 IH3.
  simpl. rewrite He, Hd, Hp, IH1, IH2, IH3. reflexivity.
Qed.

(** Scenario 2: an item that is no record is dropped and counted. *)
Lemma sanitize_drops_true :
  sanitize_run [VBool true] =
  {| clean_tracks := []; invalid_count := 1; patched_count := 0 |} /\
  analyze_popularity (sanitize_track_list [VBool true]) = Ok None /\
  get_decade_distribution (sanitize_track_list [VBool true]) = Ok ∅.
Proof. repeat split; reflexivity. Qed.

(** C1 as stated fails: a popularity that is present is never looked at,
    so the track with popularity 250 comes out with popularity 250. *)
Lemma sanitizer_contract_fails :
  ~ sanitizer_contract [VDict [("id", VStr "t1"); ("popularity", VInt 250)]].
Proof. intros [_ H]. vm_compute in H. discriminate H. Qed.

(** C1 (amended): the clean list is no longer than the input, and every
    emitted track is the patched candidate of some input item, with a
    non-empty [id], a non-empty [name], a non-empty [artists] list and a
    [popularity] key: [0] when the candidate had no such key, the
    candidate's own value, whatever it is, otherwise. *)
Theorem sanitize_output_invariants (tracks : list pyval) :
  (length (sanitize_track_list tracks) <= length tracks)%nat /\
  Forall (fun t =>
    exists item cand,
      In item tracks /\ candidate item = Some cand /\
      t = VDict (fst (patch_track cand)) /\
      nonempty_id t = true /\ nonempty_name t = true /\
      nonempty_artists t = true /\
      has_field "popularity" t = true /\
      field "popularity" t = popularity_after cand)
    (sanitize_track_list tracks).
Proof.
  split; [apply sanitize_length|].
  apply List.Forall_forall. intros t Hin.
  destruct (sanitize_emitted_from tracks t Hin) as (item & cand & Hi & Hc & ->).
  destruct (patch_track_fields cand) as (Hn & Ha & _ & Hp & Hv & Hid & _).
  exists item, cand. repeat split; try assumption.
  unfold nonempty_id. rewrite Hid. exact (candidate_id item cand Hc).
Qed.

(** C5 as stated fails: an emitted track that itself carries a [track]
    mapping is read as a wrapper by the second pass, which then emits the
    inner record instead, and patches it. *)
Lemma sanitizer_idempotent_fails :
  ~ sanitizer_idempotent
      [VDict [("track",
               VDict [("id", VStr "b"); ("track", VDict [("id", VStr "c")])])]].
Proof. intros H. vm_compute in H. discriminate H. Qed.

(** C5 (amended): when no emitted track carries a [track] field holding a
    mapping, sanitizing the output again yields the same list, with no
    item dropped and no item patched. *)
Theorem sanitize_idempotent_without_wrappers (tracks : list pyval) :
  forallb (fun t => negb (looks_like_wrapper t)) (sanitize_track_list tracks) = true ->
  sanitizer_idempotent tracks.
Proof.
  intros Hw. unfold sanitizer_idempotent. apply resanitize_list.
  apply List.Forall_forall. intros t Hin.
  pose proof (proj1 (forallb_forall _ _) Hw t Hin) as Ht.
  apply negb_true_iff in Ht.
  destruct (sanitize_emitted_from tracks t Hin) as (item & cand & _ & Hc & ->).
  apply resanitize_item; [|apply patch_track_populated|exact Ht].
  destruct (patch_track_fields cand) as (_ & _ & _ & _ & _ & Hid & _).
  unfold field in Hid. rewrite Hid. exact (candidate_id item cand Hc).
Qed.

Lemma sanitize_idempotent_without_wrappers_witness :
  sanitizer_idempotent
    [VDict [("track", VDict [("id", VStr "t1"); ("popularity", VInt 80)])];
     VBool true;
     VDict [("id", VStr "t2"); ("name", VStr "Song"); ("track", VBool true)];
     VDict [("name", VStr "no id")]].
Proof. apply sanitize_idempotent_without_wrappers. reflexivity. Defined.

End Sanitizer.

(** ** Counters *)

Section CounterFacts.
Import Py Spec.
Context `{Countable K}.

Lemma counter_incr_lookup (k k' : K) (c : gmap K nat) :
  counter_incr k c !! k' =
  if decide (k = k') then Some (S (counter_get k c)) else c !! k'.
Proof.
  unfold counter_incr, counter_get. destruct (decide (k = k')) as [->|Hne].
  - apply lookup_insert_eq.
  - apply lookup_insert_ne. exact Hne.
Qed.

Lemma counter_get_incr (k k' : K) (c : gmap K nat) :
  counter_get k' (counter_incr k c) =
  if decide (k = k') then S (counter_get k c) else counter_get k' c.
Proof.
  unfold counter_get at 1. rewrite counter_incr_lookup.
  destruct (decide (k = k')); reflexivity.
Qed.

(** An entry that holds [entry_of n] holds [entry_of (S n)] after one
    more increment. *)
Lemma counter_incr_entry (k : K) (c : gmap K nat) (n : nat) :
  c !! k = entry_of n -> counter_incr k c !! k = entry_of (S n).
Proof.
  intros Hc. rewrite counter_incr_lookup. rewrite decide_True by reflexivity.
  unfold counter_get. rewrite Hc. destruct n; reflexivity.
Qed.

(** The entry of a key after a tally: what it held, plus the items that
    have the key. *)
Lemma fold_tally_entry {A : Type} (f : A -> option K) (l : list A)
    (c : gmap K nat) (k : K) (n : nat) :
  c !! k = entry_of n ->
  fold_left (tally f) l c !! k = entry_of (n + occurrences f k l).
Proof.
  revert c n. induction l as [|a l IH]; intros c n Hn.
  - simpl. rewrite Nat.add_0_r. exact Hn.
  - simpl. unfold occurrences. simpl. unfold tally at 2.
    destruct (f a) as [k'|] eqn:Hf.
    + destruct (decide (k' = k)) as [->|Hne].
      * rewrite bool_decide_eq_true_2 by reflexivity. simpl.
        rewrite Nat.add_succ_r, <- Nat.add_succ_l.
        apply IH, counter_incr_entry, Hn.
      * rewrite bool_decide_eq_false_2 by congruence.
        apply IH. rewrite counter_incr_lookup, decide_False by exact Hne.
        exact Hn.
    + rewrite bool_decide_eq_false_2 by discriminate. apply IH, Hn.
Qed.

Lemma occurrences_app {A : Type} (f : A -> option K) (k : K) (l1 l2 : list A) :
  occurrences f k (l1 ++ l2) = (occurrences f k l1 + occurrences f k l2)%nat.
Proof. unfold occurrences. rewrite List.filter_app, length_app. reflexivity. Qed.

End CounterFacts.

(** ** The decade histogram *)

Module Decades.
Import Py AppV2 Spec.

(** [safe_get] with its default [''] and the two-level field access
    agree, up to the falsy value that stands for a missing date. *)
Lemma safe_get_release_date (track : pyval) :
  safe_get track ["album"; "release_date"] (VStr "") = release_date track \/
  (safe_get track ["album"; "release_date"] (VStr "") = VStr "" /\
   release_date track = VNone).
Proof.
  unfold release_date, field.
  destruct track as [| | | | |d]; simpl; auto.
  unfold dict_get. destruct (dict_lookup "album" d) as [album|]; simpl; auto.
  destruct album as [| | | | |a]; simpl; auto.
  destruct (dict_lookup "release_date" a); simpl; auto.
Qed.

(** The test and the [try] block of one iteration, on the date alone. *)
Lemma date_step (decades : gmap string nat) (date : pyval) :
  (if truthy date then
     n <- py_len date;;
     if (4 <=? n)%nat then
       match decade_of date with
       | Ok decade => Ok (counter_incr (decade_label decade) decades)
       | Raise ValueError | Raise TypeError => Ok decades
       | Raise e => Raise e
       end
     else Ok decades
   else Ok decades) =
  if negb (truthy date)
     || match py_len date with Ok _ => true | Raise _ => false end
  then Ok (match option_map decade_label (decade_of_date date) with
           | Some label => counter_incr label decades
           | None => decades
           end)
  else Raise TypeError.
Proof.
  destruct date as [|b|z|s|l|d].
  - reflexivity.
  - destruct b; reflexivity.
  - simpl. destruct (z =? 0); reflexivity.
  - destruct s as [|c s]; [reflexivity|].
    unfold py_len, decade_of_date, decade_of, py_slice_to.
    set (n := str_len (String c s)). set (p := str_take 4 (String c s)).
    cbn [truthy negb orb bind py_int].
    destruct (4 <=? n)%nat; [|reflexivity].
    destruct (int_of_string p); reflexivity.
  - destruct l as [|x l]; [reflexivity|].
    unfold py_len. set (n := length (x :: l)).
    cbn [truthy negb orb bind]. destruct (4 <=? n)%nat; reflexivity.
  - destruct d as [|x d]; [reflexivity|].
    unfold py_len. set (n := length (x :: d)).
    cbn [truthy negb orb bind]. destruct (4 <=? n)%nat; reflexivity.
Qed.

Lemma decade_step_spec (decades : gmap string nat) (track : pyval) :
  decade_step decades track =
  if date_has_len track then Ok (add_bucket decades track) else Raise TypeError.
Proof.
  unfold decade_step, date_has_len, add_bucket, tally, bucket_of. cbv zeta.
  rewrite date_step.
  destruct (safe_get_release_date track) as [->|[-> ->]]; reflexivity.
Qed.

Lemma decade_loop_total (tracks : list pyval) (decades : gmap string nat) :
  forallb date_has_len tracks = true ->
  decade_loop tracks decades = Ok (fold_left add_bucket tracks decades).
Proof.
  revert decades. induction tracks as [|track tracks IH]; intros decades Hlen.
  - reflexivity.
  - simpl in Hlen. apply andb_prop in Hlen as [H1 H2].
    simpl. rewrite decade_step_spec, H1. simpl. apply IH, H2.
Qed.

Lemma decade_loop_result (tracks : list pyval) (decades h : gmap string nat) :
  decade_loop tracks decades = Ok h -> h = fold_left add_bucket tracks decades.
Proof.
  revert decades. induction tracks as [|track tracks IH]; intros decades.
  - simpl. congruence.
  - simpl. rewrite decade_step_spec.
    destruct (date_has_len track); simpl; [apply IH|discriminate].
Qed.

(** The entry of a bucket after the loop: what it held, plus the tracks
    that fall in it. *)
Lemma fold_add_bucket_entry (tracks : list pyval) (decades : gmap string nat)
    (label : string) (n : nat) :
  decades !! label = entry_of n ->
  fold_left add_bucket tracks decades !! label =
  entry_of (n + bucket_count label tracks).
Proof. apply fold_tally_entry. Qed.

(** C4: when every release date is something the length test can be
    applied to, the histogram is produced, and the entry of each label is
    exactly the number of tracks whose date is a text of at least four
    characters whose first four parse as a year with that decade label;
    a label no such track has gets no entry. *)
Theorem decade_histogram_counts (tracks : list pyval) :
  forallb date_has_len tracks = true ->
  exists h,
    get_decade_distribution tracks = Ok h /\
    forall label, h !! label = entry_of (bucket_count label tracks).
Proof.
  intros Hlen. exists (fold_left add_bucket tracks ∅). split.
  - apply decade_loop_total, Hlen.
  - intros label. apply (fold_add_bucket_entry tracks ∅ label 0).
    apply lookup_empty.
Qed.

Lemma decade_histogram_counts_witness :
  exists h,
    get_decade_distribution
      [VDict [("album", VDict [("release_date", VStr "1994-03-01")])];
       VDict [("album", VDict [("release_date", VStr "199")])];
       VDict [("album", VDict [("release_date", VStr "")])];
       VDict [("album", VDict [("release_date", VStr "19x4-01-01")])];
       VDict [("id", VStr "no album")];
       VDict [("album", VDict [("release_date", VStr "1999")])]] = Ok h /\
    forall label,
      h !! label =
      entry_of (bucket_count label
        [VDict [("album", VDict [("release_date", VStr "1994-03-01")])];
         VDict [("album", VDict [("release_date", VStr "199")])];
         VDict [("album", VDict [("release_date", VStr "")])];
         VDict [("album", VDict [("release_date", VStr "19x4-01-01")])];
         VDict [("id", VStr "no album")];
         VDict [("album", VDict [("release_date", VStr "1999")])]]).
Proof. apply decade_histogram_counts. reflexivity. Defined.

(** A year written in the digits of another script is a year: the first
    four characters are taken, not the first four bytes, and [int] reads
    them. *)
Example full_width_year_bucketed :
  get_decade_distribution
    [VDict [("album", VDict [("release_date", VStr "１９９４-03-01")])];
     VDict [("album", VDict [("release_date", VStr "1994-03-01")])]] =
  Ok {["1990'ler" := 2%nat]} /\
  bucket_of (VDict [("album", VDict [("release_date", VStr "１９９４-03-01")])]) =
  Some "1990'ler".
Proof. split; reflexivity. Qed.

(** The dates the specification excludes fall in no bucket. *)
Lemma bucket_of_empty_date (track : pyval) :
  truthy (release_date track) = false -> bucket_of track = None.
Proof.
  unfold bucket_of. destruct (release_date track) as [| | |s| |]; try reflexivity.
  destruct s; [reflexivity|discriminate].
Qed.

Lemma bucket_of_short_date (track : pyval) (s : string) :
  release_date track = VStr s -> (str_len s < 4)%nat -> bucket_of track = None.
Proof.
  intros Hs Hlen. unfold bucket_of, decade_of_date. rewrite Hs.
  destruct (4 <=? str_len s)%nat eqn:E; [|reflexivity].
  apply Nat.leb_le in E. lia.
Qed.

Lemma bucket_of_unparseable_date (track : pyval) (s : string) :
  release_date track = VStr s -> int_of_string (str_take 4 s) = None ->
  bucket_of track = None.
Proof.
  intros Hs Hp. unfold bucket_of, decade_of_date. rewrite Hs, Hp.
  destruct (4 <=? str_len s)%nat; reflexivity.
Qed.

Lemma bucket_of_year (track : pyval) (s : string) (year : Z) :
  release_date track = VStr s -> (4 <= str_len s)%nat ->
  int_of_string (str_take 4 s) = Some year ->
  bucket_of track = Some (decade_label (year / 10 * 10)).
Proof.
  intros Hs Hlen Hp. unfold bucket_of, decade_of_date. rewrite Hs, Hp.
  apply Nat.leb_le in Hlen. rewrite Hlen. reflexivity.
Qed.

(** C9 as stated fails on the label: the bucket is named with the
    Turkish suffix the code writes, not with an English one. *)
Lemma scenario_histogram_label_differs : ~ scenario_histogram "1990's".
Proof.
  unfold scenario_histogram. intros H.
  apply (f_equal (fun r => match r with
                           | Ok h => h !! "1990's"
                           | Raise _ => None
                           end)) in H.
  vm_compute in H. discriminate H.
Qed.

(** C9 (amended): sanitizing the scenario item keeps it, counts one
    patch, fills [name] and [artists] with the placeholders, leaves
    [popularity] at 80 and the album as it came; the decade histogram of
    the result is the single entry ["1990'ler"] with count 1. *)
Theorem scenario_sanitize_then_decades :
  exists t,
    sanitize_run [scenario_item] =
      {| clean_tracks := [t]; invalid_count := 0; patched_count := 1 |} /\
    field "name" t = NAME_PLACEHOLDER /\
    field "artists" t = ARTISTS_PLACEHOLDER /\
    field "popularity" t = VInt 80 /\
    field "album" t = VDict [("release_date", VStr "1994-03-01")] /\
    scenario_histogram "1990'ler".
Proof.
  eexists. split; [reflexivity|].
  repeat split; try reflexivity.
Qed.

(** *** The placeholder album and the 1900 bucket *)

Lemma patch_album_sets (s : pydict * bool) :
  is_dict (dict_get "album" (fst s) VNone) = false ->
  dict_get "album" (fst (patch_album s)) VNone = ALBUM_PLACEHOLDER.
Proof.
  destruct s as [d b]. cbn [fst]. intros Hd. unfold patch_album.
  rewrite Hd, orb_true_r. cbn [fst]. rewrite dict_get_set. reflexivity.
Qed.

Lemma patch_track_album_placeholder (cand : pydict) :
  is_dict (dict_get "album" cand VNone) = false ->
  field "album" (VDict (fst (patch_track cand))) = ALBUM_PLACEHOLDER.
Proof.
  intros Hd. unfold patch_track, field. cbv zeta.
  unfold dict_get at 1.
  rewrite Sanitizer.patch_popularity_other by reflexivity.
  fold (dict_get "album" (patch_album (patch_artists (patch_name (cand, false)))).1 VNone).
  apply patch_album_sets. unfold dict_get.
  rewrite Sanitizer.patch_artists_other, Sanitizer.patch_name_other by reflexivity.
  exact Hd.
Qed.

(** A kept item with an unusable album contributes one track, with the
    placeholder album, and that track falls in the 1900 bucket. *)
Lemma emitted_album_unusable (item : pyval) :
  album_unusable item = true ->
  exists t, emitted item = [t] /\ field "album" t = ALBUM_PLACEHOLDER /\
            bucket_of t = Some "1900'ler".
Proof.
  unfold album_unusable, emitted.
  destruct (candidate item) as [cand|]; [|discriminate].
  intros Hd. apply negb_true_iff in Hd.
  eexists. split; [reflexivity|].
  pose proof (patch_track_album_placeholder cand Hd) as Ha.
  split; [exact Ha|].
  unfold bucket_of, release_date. rewrite Ha. reflexivity.
Qed.

Lemma bucket_count_app (label : string) (l1 l2 : list pyval) :
  bucket_count label (l1 ++ l2) =
  (bucket_count label l1 + bucket_count label l2)%nat.
Proof. apply occurrences_app. Qed.

Lemma bucket_count_unusable (tracks : list pyval) :
  (length (List.filter album_unusable tracks) <=
   bucket_count "1900'ler" (flat_map emitted tracks))%nat.
Proof.
  induction tracks as [|item tracks IH]; simpl; [lia|].
  rewrite bucket_count_app.
  destruct (album_unusable item) eqn:Hu; simpl; [|lia].
  destruct (emitted_album_unusable item Hu) as (t & -> & _ & Hb).
  unfold bucket_count at 1, occurrences. simpl.
  rewrite bool_decide_eq_true_2 by exact Hb. simpl. lia.
Qed.

Lemma emitted_unusable_albums (tracks : list pyval) :
  Forall (fun t => field "album" t = ALBUM_PLACEHOLDER)
    (flat_map emitted (List.filter album_unusable tracks)).
Proof.
  apply List.Forall_forall. intros t Hin.
  apply in_flat_map in Hin as (item & Hi & Ht).
  apply List.filter_In in Hi as [_ Hu].
  destruct (emitted_album_unusable item Hu) as (t' & He & Ha & _).
  rewrite He in Ht. destruct Ht as [<-|[]]. exact Ha.
Qed.

(** C10: every kept item whose album is missing or is not a mapping is
    emitted with the placeholder album (release date 1900), and the
    decade histogram of the sanitized list, when the decade analysis runs
    through, counts each of them under the 1900 label. *)
Theorem placeholder_album_counted (tracks : list pyval) :
  forallb date_has_len (sanitize_track_list tracks) = true ->
  Forall (fun t => field "album" t = ALBUM_PLACEHOLDER)
    (flat_map emitted (List.filter album_unusable tracks)) /\
  exists h,
    get_decade_distribution (sanitize_track_list tracks) = Ok h /\
    (length (List.filter album_unusable tracks) <= counter_get "1900'ler" h)%nat.
Proof.
  intros Hlen. split; [apply emitted_unusable_albums|].
  exists (fold_left add_bucket (sanitize_track_list tracks) ∅). split.
  - apply decade_loop_total, Hlen.
  - unfold counter_get.
    rewrite (fold_add_bucket_entry _ ∅ "1900'ler" 0) by apply lookup_empty.
    rewrite Sanitizer.sanitize_track_list_spec. simpl.
    pose proof (bucket_count_unusable tracks) as Hc.
    destruct (bucket_count "1900'ler" (flat_map emitted tracks)); simpl; lia.
Qed.

Lemma placeholder_album_counted_witness :
  Forall (fun t => field "album" t = ALBUM_PLACEHOLDER)
    (flat_map emitted (List.filter album_unusable mixed_albums)) /\
  exists h,
    get_decade_distribution (sanitize_track_list mixed_albums) = Ok h /\
    (length (List.filter album_unusable mixed_albums) <= counter_get "1900'ler" h)%nat.
Proof. apply placeholder_album_counted. reflexivity. Defined.

(** With nothing but such items the histogram is the 1900 bucket alone. *)
Lemma placeholder_album_only :
  get_decade_distribution
    (sanitize_track_list
       [VDict [("id", VStr "a")]; VDict [("id", VStr "d"); ("album", VNone)]]) =
  Ok {["1900'ler" := 2%nat]}.
Proof. reflexivity. Qed.

End Decades.

(** ** Popularity statistics *)

Module Popularity.
Import Py AppV2 Spec.









Lemma numbers_of_nil (vs : list pyval) (zs : list Z) :
  numbers_of vs = Ok zs -> zs = [] -> vs = [].
Proof.
  destruct vs as [|v vs]; [reflexivity|]. simpl.
  destruct (number_of v); simpl; [|discriminate].
  destruct (numbers_of vs); simpl; [|discriminate].
  intros [= <-]. discriminate.
Qed.




End Popularity.

(** ** Genre and artist analysis *)

Module Genres.
Import Py AppV2 Spec.

Section Lookups.
Context {World : Type}.
Variable sp_artist : World -> pyval -> World * result pyval.

(** The artist counter after one step. *)
Lemma artist_step_counter (st st' : genre_state) (artist : pyval) :
  artist_step sp_artist st artist = Ok st' ->
  artist_counter st' = tally counted_name (artist_counter st) artist.
Proof.
  unfold artist_step, tally, counted_name.
  destruct artist as [| | | | |a]; try (intros [= <-]; reflexivity).
  destruct (truthy (dict_get "id" a VNone)); cbn [negb];
    [|intros [= <-]; reflexivity].
  unfold py_hash.
  destruct (key_of (dict_get "name" a (VStr "Unknown"))) as [n|];
    cbn [bind]; [|discriminate].
  destruct (key_of (dict_get "id" a VNone)) as [k|];
    cbn [bind]; [|discriminate].
  destruct (decide (k ∈ processed_artists st)).
  - intros [= <-]. reflexivity.
  - destruct (sp_artist (genre_world st) (dict_get "id" a VNone)) as [w r].
    match goal with
    | |- context [let '(_, _) := ?e in _] => destruct e as [gc gba]
    end.
    intros [= <-]. reflexivity.
Qed.

(** The ways one step of the artist loop can end well. *)
Lemma artist_step_inv (st st' : genre_state) (artist : pyval) :
  artist_step sp_artist st artist = Ok st' ->
  (counted_name artist = None /\ looked_up_id artist = None /\ st' = st) \/
  exists n k,
    counted_name artist = Some n /\ looked_up_id artist = Some k /\
    artist_counter st' = counter_incr n (artist_counter st) /\
    (((k ∈ processed_artists st) /\
      artist_calls st' = artist_calls st /\
      processed_artists st' = processed_artists st) \/
     ((k ∉ processed_artists st) /\
      exists v, key_of v = Some k /\
        artist_calls st' = (artist_calls st ++ [v])%list /\
        processed_artists st' = {[k]} ∪ processed_artists st)).
Proof.
  unfold artist_step, counted_name, looked_up_id.
  destruct artist as [| | | | |a]; try (intros [= <-]; left; auto).
  destruct (truthy (dict_get "id" a VNone)); cbn [negb];
    [|intros [= <-]; left; auto].
  unfold py_hash.
  destruct (key_of (dict_get "name" a (VStr "Unknown"))) as [n|];
    cbn [bind]; [|discriminate].
  destruct (key_of (dict_get "id" a VNone)) as [k|] eqn:Hk;
    cbn [bind]; [|discriminate].
  destruct (decide (k ∈ processed_artists st)) as [Hin|Hnin].
  - intros [= <-]. right. exists n, k. cbn. auto 10.
  - destruct (sp_artist (genre_world st) (dict_get "id" a VNone)) as [w r].
    match goal with
    | |- context [let '(_, _) := ?e in _] => destruct e as [gc gba]
    end.
    intros [= <-]. right. exists n, k. cbn.
    split; [reflexivity|]. split; [reflexivity|]. split; [reflexivity|].
    right. split; [exact Hnin|]. eauto.
Qed.

Lemma call_keys_snoc (calls : list pyval) (v : pyval) (k : key) :
  key_of v = Some k -> call_keys (calls ++ [v]) = call_keys calls ++ [k].
Proof.
  intros Hk. unfold call_keys. rewrite omap_app. simpl. rewrite Hk. reflexivity.
Qed.

(** One step keeps the lookup invariant, only adds to the processed
    set, and leaves the id of the artist it saw in that set. *)
Lemma artist_step_lookups (st st' : genre_state) (artist : pyval) :
  artist_step sp_artist st artist = Ok st' ->
  lookup_inv st ->
  lookup_inv st' /\
  processed_artists st ⊆ processed_artists st' /\
  forall k, looked_up_id artist = Some k -> k ∈ processed_artists st'.
Proof.
  intros Hstep Hinv. pose proof Hinv as (Hnd & Hlen & Hmem).
  destruct (artist_step_inv st st' artist Hstep)
    as [(_ & Hid & ->)|(n & k & _ & Hid & _ & [(Hin & Hc & Hp)|(Hnin & v & Hv & Hc & Hp)])].
  - split; [exact Hinv|]. split; [reflexivity|].
    intros k Hk. congruence.
  - unfold lookup_inv. rewrite Hc, Hp.
    split; [exact Hinv|]. split; [reflexivity|].
    intros k' Hk'. congruence.
  - unfold lookup_inv. rewrite Hc, Hp, (call_keys_snoc _ v k Hv).
    split; [split; [|split]|split].
    + apply NoDup_app. split; [exact Hnd|]. split; [|apply NoDup_singleton].
      intros x Hx Hx'. apply list_elem_of_singleton in Hx'. subst x.
      apply Hnin, Hmem, Hx.
    + rewrite !length_app, Hlen. reflexivity.
    + intros k'. rewrite elem_of_app, list_elem_of_singleton, Hmem.
      rewrite elem_of_union, elem_of_singleton. tauto.
    + apply union_subseteq_r.
    + intros k' Hk'. assert (k' = k) as -> by congruence.
      apply elem_of_union_l, elem_of_singleton. reflexivity.
Qed.

Lemma artists_loop_spec (items : list pyval) (st st' : genre_state) :
  artists_loop sp_artist items st = Ok st' ->
  lookup_inv st ->
  lookup_inv st' /\
  artist_counter st' = fold_left (tally counted_name) items (artist_counter st) /\
  processed_artists st ⊆ processed_artists st' /\
  Forall (fun artist => forall k, looked_up_id artist = Some k ->
                                  k ∈ processed_artists st') items.
Proof.
  revert st. induction items as [|artist items IH]; intros st.
  - simpl. intros [= <-] Hinv.
    split; [exact Hinv|]. split; [reflexivity|]. split; [reflexivity|constructor].
  - simpl. destruct (artist_step sp_artist st artist) as [st1|] eqn:Hstep;
      cbn [bind]; [|discriminate].
    intros Hloop Hinv.
    destruct (artist_step_lookups st st1 artist Hstep Hinv) as (Hinv1 & Hsub1 & Hid1).
    destruct (IH st1 Hloop Hinv1) as (Hinv' & Hc & Hsub & Hall).
    split; [exact Hinv'|]. split; [|split].
    + rewrite Hc, (artist_step_counter st st1 artist Hstep). reflexivity.
    + transitivity (processed_artists st1); assumption.
    + constructor; [|exact Hall]. intros k Hk. apply Hsub, Hid1, Hk.
Qed.

Lemma track_step_items (st : genre_state) (track : pyval) (st' : genre_state) :
  track_step sp_artist st track = Ok st' ->
  artists_loop sp_artist (artist_items track) st = Ok st'.
Proof.
  unfold track_step, artist_items.
  destruct track as [| | | | |d]; try discriminate. cbn [py_get bind].
  destruct (py_iter (dict_get "artists" d (VList []))); cbn [bind];
    [exact id|discriminate].
Qed.

Lemma tracks_loop_spec (tracks : list pyval) (st st' : genre_state) :
  tracks_loop sp_artist tracks st = Ok st' ->
  lookup_inv st ->
  lookup_inv st' /\
  artist_counter st' =
    fold_left (tally counted_name) (flat_map artist_items tracks) (artist_counter st) /\
  processed_artists st ⊆ processed_artists st' /\
  Forall (fun artist => forall k, looked_up_id artist = Some k ->
                                  k ∈ processed_artists st')
    (flat_map artist_items tracks).
Proof.
  revert st. induction tracks as [|track tracks IH]; intros st.
  - simpl. intros [= <-] Hinv.
    split; [exact Hinv|]. split; [reflexivity|]. split; [reflexivity|constructor].
  - simpl. destruct (track_step sp_artist st track) as [st1|] eqn:Hstep;
      cbn [bind]; [|discriminate].
    intros Hloop Hinv. apply track_step_items in Hstep.
    destruct (artists_loop_spec _ st st1 Hstep Hinv) as (Hinv1 & Hc1 & Hsub1 & Hall1).
    destruct (IH st1 Hloop Hinv1) as (Hinv' & Hc & Hsub & Hall).
    split; [exact Hinv'|]. split; [|split].
    + rewrite Hc, Hc1, fold_left_app. reflexivity.
    + transitivity (processed_artists st1); assumption.
    + apply Forall_app. split; [|exact Hall].
      eapply Forall_impl; [exact Hall1|].
      intros artist Ha k Hk. apply Hsub, Ha, Hk.
Qed.

Lemma genre_init_inv (w : World) : lookup_inv (genre_init w).
Proof.
  unfold lookup_inv, genre_init, call_keys. simpl.
  split; [constructor|]. split; [reflexivity|].
  intros k. rewrite elem_of_nil, elem_of_empty. tauto.
Qed.

(** *** The analysis runs through on hashable input *)

Lemma artist_step_total (st : genre_state) (artist : pyval) :
  artist_ok artist = true -> exists st', artist_step sp_artist st artist = Ok st'.
Proof.
  unfold artist_ok, artist_step.
  destruct artist as [| | | | |a]; try solve [intros _; eauto].
  destruct (truthy (dict_get "id" a VNone)); cbn [negb]; [|eauto].
  unfold py_hash.
  destruct (key_of (dict_get "id" a VNone)) as [k|];
    cbv beta iota; [|discriminate].
  destruct (key_of (dict_get "name" a (VStr "Unknown"))) as [n|];
    cbv beta iota; [|discriminate].
  intros _. cbn [bind].
  destruct (decide (k ∈ processed_artists st)); [eauto|].
  destruct (sp_artist (genre_world st) (dict_get "id" a VNone)) as [w r].
  match goal with
  | |- context [let '(_, _) := ?e in _] => destruct e as [gc gba]
  end.
  eauto.
Qed.

Lemma artists_loop_total (items : list pyval) (st : genre_state) :
  forallb artist_ok items = true ->
  exists st', artists_loop sp_artist items st = Ok st'.
Proof.
  revert st. induction items as [|artist items IH]; intros st Hok.
  - simpl. eauto.
  - simpl in Hok. apply andb_prop in Hok as [Ha Hok].
    destruct (artist_step_total st artist Ha) as [st1 Hst1].
    simpl. rewrite Hst1. cbn [bind]. apply IH, Hok.
Qed.

Lemma tracks_loop_total (tracks : list pyval) (st : genre_state) :
  forallb genre_input_ok tracks = true ->
  exists st', tracks_loop sp_artist tracks st = Ok st'.
Proof.
  revert st. induction tracks as [|track tracks IH]; intros st Hok.
  - simpl. eauto.
  - simpl in Hok. apply andb_prop in Hok as [Ht Hok].
    unfold genre_input_ok in Ht.
    destruct track as [| | | | |d]; try discriminate.
    simpl. unfold track_step. cbn [py_get bind].
    destruct (py_iter (dict_get "artists" d (VList []))) as [items|];
      [|discriminate].
    cbn [bind]. destruct (artists_loop_total items st Ht) as [st1 Hst1].
    rewrite Hst1. cbn [bind]. apply IH, Hok.
Qed.

(** C2: on tracks whose artist ids and names are hashable, the analysis
    runs through; no artist id is looked up more than once, whatever the
    number of tracks it appears on; every id that appears is looked up;
    and the artist counter holds, for each name, the number of its
    appearances. *)
Theorem genre_lookup_once (w : World) (tracks : list pyval) :
  forallb genre_input_ok tracks = true ->
  exists st,
    analyze_genres sp_artist w tracks = Ok st /\
    NoDup (call_keys (artist_calls st)) /\
    length (call_keys (artist_calls st)) = length (artist_calls st) /\
    Forall (fun artist => forall k, looked_up_id artist = Some k ->
                                    k ∈ call_keys (artist_calls st))
      (flat_map artist_items tracks) /\
    forall name, artist_counter st !! name = entry_of (appearances name tracks).
Proof.
  intros Hok. unfold analyze_genres.
  destruct (tracks_loop_total tracks (genre_init w) Hok) as [st Hst].
  exists st. split; [exact Hst|].
  destruct (tracks_loop_spec tracks _ st Hst (genre_init_inv w))
    as ((Hnd & Hlen & Hmem) & Hc & _ & Hall).
  split; [exact Hnd|]. split; [exact Hlen|]. split.
  - eapply Forall_impl; [exact Hall|].
    intros artist Ha k Hk. apply Hmem, Ha, Hk.
  - intros name. rewrite Hc. unfold appearances.
    apply (fold_tally_entry counted_name _ _ name 0). apply lookup_empty.
Qed.

End Lookups.

Lemma genre_lookup_once_witness :
  exists st,
    analyze_genres counting_catalog 0%nat three_tracks_two_artists = Ok st /\
    NoDup (call_keys (artist_calls st)) /\
    length (call_keys (artist_calls st)) = length (artist_calls st) /\
    Forall (fun artist => forall k, looked_up_id artist = Some k ->
                                    k ∈ call_keys (artist_calls st))
      (flat_map artist_items three_tracks_two_artists) /\
    forall name,
      artist_counter st !! name =
      entry_of (appearances name three_tracks_two_artists).
Proof. apply genre_lookup_once. reflexivity. Defined.

(** Three appearances of [x], one lookup. *)
Lemma genre_lookup_example :
  exists st,
    analyze_genres counting_catalog 0%nat three_tracks_two_artists = Ok st /\
    artist_calls st = [VStr "x"; VStr "y"] /\
    genre_world st = 2%nat /\
    artist_counter st !! KStr "X" = Some 3%nat /\
    genre_counter st !! KStr "rock" = Some 2%nat.
Proof. eexists. split; [reflexivity|]. repeat split; reflexivity. Qed.

End Genres.

(** ** Merging the library with the playlists *)

Module Merge.
Import Py AppV2 Spec.

Lemma tracks_dict_get_set (k k' : key) (track : pyval) (d : tracks_dict) :
  tracks_dict_get k' (tracks_dict_set k track d) =
  if decide (k = k') then Some track else tracks_dict_get k' d.
Proof.
  induction d as [|[k0 t0] d IH]; simpl.
  - destruct (decide (k' = k)), (decide (k = k')); congruence.
  - destruct (decide (k = k0)) as [->|Hne]; simpl.
    + destruct (decide (k' = k0)), (decide (k0 = k')); congruence.
    + rewrite IH.
      destruct (decide (k' = k0)), (decide (k = k')); congruence.
Qed.

Lemma tracks_dict_keys_set (k k' : key) (track : pyval) (d : tracks_dict) :
  k' ∈ map fst (tracks_dict_set k track d) <-> k' = k \/ k' ∈ map fst d.
Proof.
  induction d as [|[k0 t0] d IH]; simpl.
  - rewrite list_elem_of_singleton, elem_of_nil. tauto.
  - destruct (decide (k = k0)) as [->|Hne]; simpl.
    + rewrite elem_of_cons. tauto.
    + rewrite !elem_of_cons, IH. tauto.
Qed.

Lemma tracks_dict_nodup_set (k : key) (track : pyval) (d : tracks_dict) :
  NoDup (map fst d) -> NoDup (map fst (tracks_dict_set k track d)).
Proof.
  induction d as [|[k0 t0] d IH]; simpl; intros Hnd.
  - apply NoDup_singleton.
  - destruct (decide (k = k0)) as [->|Hne]; simpl; [exact Hnd|].
    apply NoDup_cons in Hnd as [Hnin Hnd].
    apply NoDup_cons. split; [|apply IH, Hnd].
    rewrite tracks_dict_keys_set. intros [Heq|Hin]; [congruence|tauto].
Qed.

Lemma tracks_dict_get_elem (k : key) (track : pyval) (d : tracks_dict) :
  NoDup (map fst d) -> (k, track) ∈ d -> tracks_dict_get k d = Some track.
Proof.
  induction d as [|[k0 t0] d IH]; simpl; intros Hnd Hin.
  - apply elem_of_nil in Hin. destruct Hin.
  - apply NoDup_cons in Hnd as [Hnin Hnd].
    apply elem_of_cons in Hin as [[= -> ->]|Hin].
    + rewrite decide_True by reflexivity. reflexivity.
    + destruct (decide (k = k0)) as [->|Hne]; [|apply IH; assumption].
      exfalso. apply Hnin. apply (list_elem_of_fmap_2 fst) in Hin. exact Hin.
Qed.

(** *** The fold the two loops compute *)

Lemma last_with_key_cons (k : key) (track : pyval) (sources : list pyval) :
  last_with_key k (track :: sources) =
  match last_with_key k sources with
  | Some t => Some t
  | None => if bool_decide (merge_key track = Some k) then Some track else None
  end.
Proof.
  unfold last_with_key. simpl.
  destruct (bool_decide (merge_key track = Some k)); [|destruct (last _); reflexivity].
  rewrite last_cons. reflexivity.
Qed.

Lemma merge_fold_get (sources : list pyval) (d : tracks_dict) (k : key) :
  tracks_dict_get k (fold_left merge_step sources d) =
  match last_with_key k sources with
  | Some t => Some t
  | None => tracks_dict_get k d
  end.
Proof.
  revert d. induction sources as [|track sources IH]; intros d; [reflexivity|].
  simpl. rewrite IH, last_with_key_cons.
  destruct (last_with_key k sources); [reflexivity|].
  unfold merge_step. destruct (merge_key track) as [k'|].
  - rewrite tracks_dict_get_set. destruct (decide (k' = k)) as [->|Hne].
    + rewrite bool_decide_eq_true_2 by reflexivity. reflexivity.
    + rewrite bool_decide_eq_false_2 by congruence. reflexivity.
  - rewrite bool_decide_eq_false_2 by discriminate. reflexivity.
Qed.

Lemma merge_fold_keys (sources : list pyval) (d : tracks_dict) (k : key) :
  k ∈ map fst (fold_left merge_step sources d) <->
  k ∈ map fst d \/ k ∈ omap merge_key sources.
Proof.
  revert d. induction sources as [|track sources IH]; intros d; simpl.
  - rewrite elem_of_nil. tauto.
  - rewrite IH. unfold merge_step.
    destruct (merge_key track) as [k'|]; [|tauto].
    rewrite tracks_dict_keys_set, elem_of_cons. tauto.
Qed.

Lemma merge_fold_nodup (sources : list pyval) (d : tracks_dict) :
  NoDup (map fst d) -> NoDup (map fst (fold_left merge_step sources d)).
Proof.
  revert d. induction sources as [|track sources IH]; intros d Hnd; [exact Hnd|].
  simpl. apply IH. unfold merge_step.
  destruct (merge_key track); [apply tracks_dict_nodup_set|]; exact Hnd.
Qed.

Lemma last_with_key_key (k : key) (sources : list pyval) (track : pyval) :
  last_with_key k sources = Some track -> merge_key track = Some k.
Proof.
  unfold last_with_key. intros Hl. apply last_Some_elem_of in Hl.
  apply list_elem_of_In, List.filter_In in Hl as [_ Hk].
  apply bool_decide_eq_true_1 in Hk. exact Hk.
Qed.

(** The merged map of the sources, read as a list of tracks. *)
Lemma merge_fold_entries (sources : list pyval) :
  let d := fold_left merge_step sources [] in
  NoDup (map fst d) /\
  Forall (fun e => merge_key (snd e) = Some (fst e) /\
                   last_with_key (fst e) sources = Some (snd e)) d.
Proof.
  intros d. assert (NoDup (map fst d)) as Hnd
    by (apply merge_fold_nodup; constructor).
  split; [exact Hnd|]. apply List.Forall_forall. intros [k t] Hin.
  apply list_elem_of_In in Hin. cbn [fst snd].
  pose proof (tracks_dict_get_elem k t d Hnd Hin) as Hget.
  unfold d in Hget. rewrite merge_fold_get in Hget. simpl in Hget.
  destruct (last_with_key k sources) as [t'|] eqn:Hl; [|discriminate].
  injection Hget as ->. split; [|reflexivity].
  apply (last_with_key_key k sources t Hl).
Qed.

Lemma omap_merge_key_values (d : tracks_dict) :
  Forall (fun e => merge_key (snd e) = Some (fst e)) d ->
  omap merge_key (map snd d) = map fst d.
Proof.
  induction 1 as [|[k t] d Hk _ IH]; [reflexivity|].
  cbn [fst snd] in Hk. cbn [map fst snd omap list_omap]. rewrite Hk.
  f_equal. exact IH.
Qed.

(** *** The loops compute that fold *)

Lemma add_track_spec (d : tracks_dict) (track : pyval) :
  mergeable track = true -> add_track d track = Ok (merge_step d track).
Proof.
  unfold mergeable, add_track, merge_step, merge_key.
  destruct track as [|b|z|s|l|t]; simpl.
  - reflexivity.
  - destruct b; [discriminate|reflexivity].
  - destruct (z =? 0); [reflexivity|discriminate].
  - destruct s; [reflexivity|discriminate].
  - destruct l; [reflexivity|discriminate].
  - destruct t as [|e t]; [reflexivity|]. cbn [negb orb bind].
    destruct (truthy (dict_get "id" (e :: t) VNone)); [|reflexivity].
    unfold py_hash. cbn [negb orb].
    destruct (key_of (dict_get "id" (e :: t) VNone)); [reflexivity|discriminate].
Qed.

Lemma add_saved_spec (saved_tracks : list pyval) (d : tracks_dict) :
  forallb mergeable saved_tracks = true ->
  add_saved saved_tracks d = Ok (fold_left merge_step saved_tracks d).
Proof.
  revert d. induction saved_tracks as [|track rest IH]; intros d Hm; [reflexivity|].
  simpl in Hm. apply andb_prop in Hm as [Ht Hm].
  simpl. rewrite (add_track_spec d track Ht). cbn [bind]. apply IH, Hm.
Qed.

Lemma add_playlist_tracks_spec (playlist_tracks : list pyval) (d : tracks_dict) :
  forallb mergeable playlist_tracks = true ->
  add_playlist_tracks playlist_tracks d = fold_left merge_step playlist_tracks d.
Proof.
  revert d. induction playlist_tracks as [|track rest IH]; intros d Hm; [reflexivity|].
  simpl in Hm. apply andb_prop in Hm as [Ht Hm].
  simpl. rewrite (add_track_spec d track Ht). apply IH, Hm.
Qed.

Section Scan.
Variable get_playlist_tracks : pyval -> result (list pyval).

Lemma scan_playlists_spec (playlists : list pyval) (d : tracks_dict) :
  forallb mergeable (flat_map (playlist_source get_playlist_tracks) playlists) = true ->
  fold_left (scan_playlist get_playlist_tracks) playlists d =
  fold_left merge_step (flat_map (playlist_source get_playlist_tracks) playlists) d.
Proof.
  revert d. induction playlists as [|playlist rest IH]; intros d Hm; [reflexivity|].
  simpl in Hm. rewrite forallb_app in Hm. apply andb_prop in Hm as [Hp Hm].
  simpl. rewrite fold_left_app, (IH _ Hm). f_equal.
  unfold scan_playlist, playlist_source in *.
  destruct (playlist_id <- py_item playlist "id";;
            get_playlist_tracks playlist_id); [|reflexivity].
  apply add_playlist_tracks_spec, Hp.
Qed.

(** C6: when every source track is a record whose id is empty or
    hashable, the merge returns a list with one track for each distinct
    non-empty id of the sources, no id twice, and the track kept for an id
    is the last one the sources give for it. *)
Theorem merge_distinct_last_wins (saved_tracks playlists : list pyval) :
  forallb mergeable (all_sources get_playlist_tracks saved_tracks playlists) = true ->
  exists merged,
    get_all_user_tracks_heavy get_playlist_tracks saved_tracks playlists = Ok merged /\
    length merged =
      length (distinct_keys (all_sources get_playlist_tracks saved_tracks playlists)) /\
    NoDup (omap merge_key merged) /\
    length (omap merge_key merged) = length merged /\
    Forall (fun track => exists k,
              merge_key track = Some k /\
              last_with_key k (all_sources get_playlist_tracks saved_tracks playlists)
                = Some track) merged.
Proof.
  intros Hm. unfold all_sources in *.
  rewrite forallb_app in Hm. apply andb_prop in Hm as [Hs Hp].
  unfold get_all_user_tracks_heavy.
  rewrite (add_saved_spec saved_tracks [] Hs). cbn [bind].
  rewrite (scan_playlists_spec playlists _ Hp), <- fold_left_app.
  set (sources := saved_tracks ++ flat_map (playlist_source get_playlist_tracks) playlists).
  destruct (merge_fold_entries sources) as [Hnd Hall].
  set (d := fold_left merge_step sources []) in *.
  assert (omap merge_key (map snd d) = map fst d) as Hkeys.
  { apply omap_merge_key_values. eapply Forall_impl; [exact Hall|].
    intros e [He _]. exact He. }
  eexists. split; [reflexivity|]. rewrite Hkeys.
  split; [|split; [exact Hnd|split]].
  - rewrite length_map, <- (length_map fst d). apply Permutation_length.
    apply NoDup_Permutation; [exact Hnd|apply NoDup_remove_dups|].
    intros k. unfold distinct_keys. rewrite elem_of_remove_dups.
    unfold d. rewrite merge_fold_keys. simpl. rewrite elem_of_nil. tauto.
  - rewrite !length_map. reflexivity.
  - apply Forall_fmap. eapply Forall_impl; [exact Hall|].
    intros [k t] [He Hl]. exists k. auto.
Qed.
End Scan.

Lemma merge_distinct_last_wins_witness :
  exists merged,
    get_all_user_tracks_heavy two_playlists
      [VDict [("id", VStr "a")]; VDict [("id", VStr "x9"); ("name", VStr "saved")]]
      [VDict [("id", VStr "p1")]; VDict [("name", VStr "no id")];
       VDict [("id", VStr "p2")]] = Ok merged /\
    length merged =
      length (distinct_keys (all_sources two_playlists
        [VDict [("id", VStr "a")]; VDict [("id", VStr "x9"); ("name", VStr "saved")]]
        [VDict [("id", VStr "p1")]; VDict [("name", VStr "no id")];
         VDict [("id", VStr "p2")]])) /\
    NoDup (omap merge_key merged) /\
    length (omap merge_key merged) = length merged /\
    Forall (fun track => exists k,
              merge_key track = Some k /\
              last_with_key k (all_sources two_playlists
                [VDict [("id", VStr "a")]; VDict [("id", VStr "x9"); ("name", VStr "saved")]]
                [VDict [("id", VStr "p1")]; VDict [("name", VStr "no id")];
                 VDict [("id", VStr "p2")]]) = Some track) merged.
Proof. apply merge_distinct_last_wins. reflexivity. Defined.

(** Scenario 5: track [x9] is in the library and in both playlists; the
    merged list holds it once, in the version seen last. *)
Lemma merge_example :
  get_all_user_tracks_heavy two_playlists
    [VDict [("id", VStr "a")]; VDict [("id", VStr "x9"); ("name", VStr "saved")]]
    [VDict [("id", VStr "p1")]; VDict [("name", VStr "no id")];
     VDict [("id", VStr "p2")]] =
  Ok [VDict [("id", VStr "a")];
      VDict [("id", VStr "x9"); ("name", VStr "second")];
      VDict [("id", VStr "b")];
      VDict [("id", VStr "c")]].
Proof. reflexivity. Qed.

End Merge.

(** ** The recommendation reconciler *)

Module Reconciler.
Import Py AppV2 Spec.

Section Search.
Context {World : Type}.
Variable sp_search : World -> string -> World * result pyval.
Variable format : pyval -> string.



Lemma search_phase_world (query : string) (w : World) (track_uri : pyval) :
  fst (search_phase sp_search query w track_uri) = fst (sp_search w query).
Proof.
  unfold search_phase. destruct (sp_search w query) as [w' r].
  destruct (results <- r;; first_uri results track_uri); reflexivity.
Qed.

(** One suggestion: the calls made and the outcome, phase by phase. *)
Lemma search_song_dict (st : search_state) (d : pydict) :
  let artist_name := dict_get "artist" d (VStr "Unknown") in
  let track_name := dict_get "track" d (VStr "Unknown") in
  let q1 := query_specific format track_name artist_name in
  let q2 := query_general format track_name artist_name in
  let p1 := search_phase sp_search q1 (search_world st) VNone in
  let p2 := if truthy (snd p1) then p1 else search_phase sp_search q2 (fst p1) (snd p1) in
  exists st',
    search_song sp_search format st (VDict d) = Ok st' /\
    search_calls st' =
      search_calls st ++ q1 :: (if truthy (snd p1) then [] else [q2]) /\
    search_world st' = fst p2 /\
    (if truthy (snd p2)
     then track_uris st' = track_uris st ++ [snd p2] /\
          songs_found_count st' = S (songs_found_count st) /\
          not_found_songs st' = not_found_songs st
     else track_uris st' = track_uris st /\
          songs_found_count st' = songs_found_count st /\
          not_found_songs st' =
            not_found_songs st ++ [format track_name +:+ " - " +:+ format artist_name]).
Proof.
  intros artist_name track_name q1 q2 p1 p2.
  unfold search_song. cbn [py_get bind]. cbv zeta.
  fold artist_name track_name. fold q1 q2. fold p1.
  subst p2. destruct p1 as [w1 u1]. cbn [fst snd].
  destruct (truthy u1) eqn:E1; cbn [negb].
  - rewrite E1. eexists. split; [reflexivity|]. cbn. rewrite E1. auto.
  - destruct (search_phase sp_search q2 w1 u1) as [w2 u2].
    cbn [fst snd]. destruct (truthy u2) eqn:E2.
    + eexists. split; [reflexivity|]. cbn. rewrite <- app_assoc. auto.
    + eexists. split; [reflexivity|]. cbn. rewrite <- app_assoc. auto.
Qed.

Lemma search_song_total (st : search_state) (song : pyval) :
  is_dict song = true -> exists st', search_song sp_search format st song = Ok st'.
Proof.
  destruct song as [| | | | |d]; try discriminate. intros _.
  destruct (search_song_dict st d) as (st' & Hst & _). eauto.
Qed.

Lemma search_loop_cons (song : pyval) (songs : list pyval) (st : search_state) :
  search_loop sp_search format (song :: songs) st =
  if (PLAYLIST_TARGET_SIZE <=? songs_found_count st)%nat then Ok st
  else st' <- search_song sp_search format st song;;
       search_loop sp_search format songs st'.
Proof. reflexivity. Qed.

(** A suggestion adds no uri, or one. *)
Lemma search_song_count (st st' : search_state) (song : pyval) :
  search_song sp_search format st song = Ok st' ->
  (songs_found_count st' = songs_found_count st /\
   length (track_uris st') = length (track_uris st)) \/
  (songs_found_count st' = S (songs_found_count st) /\
   length (track_uris st') = S (length (track_uris st))).
Proof.
  destruct song as [| | | | |d]; try discriminate.
  destruct (search_song_dict st d) as (st1 & Hst & _ & _ & Hout).
  rewrite Hst. intros [= <-].
  destruct (truthy _) in Hout; destruct Hout as (Hu & Hc & _); rewrite Hu, Hc.
  - right. rewrite length_app. simpl. split; [reflexivity|lia].
  - left. auto.
Qed.

Lemma search_loop_bound (songs : list pyval) (st st' : search_state) :
  search_loop sp_search format songs st = Ok st' ->
  length (track_uris st) = songs_found_count st ->
  (songs_found_count st <= PLAYLIST_TARGET_SIZE)%nat ->
  length (track_uris st') = songs_found_count st' /\
  (songs_found_count st' <= PLAYLIST_TARGET_SIZE)%nat.
Proof.
  revert st. induction songs as [|song songs IH]; intros st.
  - simpl. intros [= <-]. auto.
  - rewrite search_loop_cons.
    destruct (PLAYLIST_TARGET_SIZE <=? songs_found_count st)%nat eqn:E.
    + intros [= <-]. auto.
    + apply Nat.leb_gt in E.
      destruct (search_song sp_search format st song) as [st1|] eqn:Hsong; cbn [bind]; [|discriminate].
      intros Hloop Hlen Hle. apply (IH st1 Hloop).
      * destruct (search_song_count st st1 song Hsong) as [[-> ->]|[-> ->]]; lia.
      * destruct (search_song_count st st1 song Hsong) as [[-> _]|[-> _]]; lia.
Qed.

Lemma search_loop_total (songs : list pyval) (st : search_state) :
  forallb is_dict songs = true -> exists st', search_loop sp_search format songs st = Ok st'.
Proof.
  revert st. induction songs as [|song songs IH]; intros st Hd.
  - simpl. eauto.
  - simpl in Hd. apply andb_prop in Hd as [Hs Hd]. rewrite search_loop_cons.
    destruct (PLAYLIST_TARGET_SIZE <=? songs_found_count st)%nat; [eauto|].
    destruct (search_song_total st song Hs) as [st1 ->]. cbn [bind].
    apply IH, Hd.
Qed.

(** Once the target is met the loop does nothing more. *)
Lemma search_loop_done (songs : list pyval) (st : search_state) :
  (PLAYLIST_TARGET_SIZE <= songs_found_count st)%nat ->
  search_loop sp_search format songs st = Ok st.
Proof.
  intros Hle. destruct songs as [|song songs]; [reflexivity|].
  rewrite search_loop_cons. apply Nat.leb_le in Hle. rewrite Hle. reflexivity.
Qed.

Lemma search_loop_early_stop (pre post : list pyval) (st st1 : search_state) :
  search_loop sp_search format pre st = Ok st1 ->
  (PLAYLIST_TARGET_SIZE <= songs_found_count st1)%nat ->
  search_loop sp_search format (pre ++ post) st = Ok st1.
Proof.
  revert st. induction pre as [|song pre IH]; intros st.
  - simpl. intros [= <-] Hle. apply search_loop_done, Hle.
  - rewrite <- app_comm_cons, !search_loop_cons.
    destruct (PLAYLIST_TARGET_SIZE <=? songs_found_count st)%nat eqn:E.
    + intros [= <-] _. reflexivity.
    + destruct (search_song sp_search format st song) as [st2|]; cbn [bind]; [|discriminate].
      apply IH.
Qed.

(** C3: on suggestion records the loop runs through, whatever the
    catalog answers; it ends with at most the target number of uris; and
    if the target is met after a prefix of the list, the run over the
    whole list ends in the very state the run over the prefix ends in:
    same uris, same searches made, same catalog state. *)
Theorem reconcile_target_cap (w : World) (songs : list pyval) :
  forallb is_dict songs = true ->
  exists st,
    reconcile sp_search format w songs = Ok st /\
    (length (track_uris st) <= PLAYLIST_TARGET_SIZE)%nat /\
    length (track_uris st) = songs_found_count st /\
    forall pre post st1,
      songs = pre ++ post ->
      reconcile sp_search format w pre = Ok st1 ->
      (PLAYLIST_TARGET_SIZE <= songs_found_count st1)%nat ->
      st = st1.
Proof.
  intros Hd. unfold reconcile.
  destruct (search_loop_total songs (search_init w) Hd) as [st Hst].
  exists st. split; [exact Hst|].
  destruct (search_loop_bound songs _ st Hst) as [Hlen Hle];
    [reflexivity|unfold PLAYLIST_TARGET_SIZE; simpl; lia|].
  split; [lia|]. split; [exact Hlen|].
  intros pre post st1 -> Hpre Hmet.
  rewrite (search_loop_early_stop pre post _ st1 Hpre Hmet) in Hst.
  congruence.
Qed.


End Search.

Lemma reconcile_target_cap_witness :
  exists st,
    reconcile finds_all format_text 0%nat twelve_songs = Ok st /\
    (length (track_uris st) <= PLAYLIST_TARGET_SIZE)%nat /\
    length (track_uris st) = songs_found_count st /\
    forall pre post st1,
      twelve_songs = pre ++ post ->
      reconcile finds_all format_text 0%nat pre = Ok st1 ->
      (PLAYLIST_TARGET_SIZE <= songs_found_count st1)%nat ->
      st = st1.
Proof. apply reconcile_target_cap. reflexivity. Defined.

(** Scenario 3: twelve suggestions that all resolve in the first phase:
    ten uris, ten searches, nothing asked about the last two. *)
Lemma reconcile_stops_at_ten :
  exists st,
    reconcile finds_all format_text 0%nat twelve_songs = Ok st /\
    length (track_uris st) = 10%nat /\
    search_world st = 10%nat /\
    last (search_calls st) =
      Some ("track:" +:+ dquote +:+ "10" +:+ dquote +:+
            " artist:" +:+ dquote +:+ "Artist" +:+ dquote).
Proof. eexists. split; [vm_compute; reflexivity|]. repeat split; reflexivity. Qed.

(** Scenario 4: the field search raises, the free-text search finds the
    song: two searches, one uri, and no exception leaves the step. *)
Lemma reconcile_falls_back :
  reconcile finds_free_text_only format_text 0%nat [song "Artist" "Title"] =
  Ok {| track_uris := [VStr "spotify:track:2"];
        songs_found_count := 1;
        not_found_songs := [];
        search_calls :=
          ["track:" +:+ dquote +:+ "Title" +:+ dquote +:+
           " artist:" +:+ dquote +:+ "Artist" +:+ dquote;
           "Artist Title"];
        search_world := 2%nat |}.
Proof. vm_compute. reflexivity. Qed.

End Reconciler.

(** ** app.py: where the earlier variants agree and where they differ *)

Module Legacy.
Import Py Spec.

(** [analyze_genres] of app.py keeps no processed set: artist [x] of the
    three example tracks is looked up three times. *)
Lemma app_genres_repeat_lookup :
  exists st,
    App.analyze_genres counting_catalog 0%nat three_tracks_two_artists = Ok st /\
    App.artist_calls st = [VStr "x"; VStr "x"; VStr "y"; VStr "x"] /\
    App.genre_world st = 4%nat /\
    App.artist_counter st !! KStr "X" = Some 3%nat.
Proof. eexists. split; [vm_compute; reflexivity|]. repeat split; reflexivity. Qed.

(** [get_decade_distribution] of app.py has no length test: a
    three-character date is parsed whole and gets a bucket. *)
Lemma app_decades_short_date :
  App.get_decade_distribution
    [VDict [("album", VDict [("release_date", VStr "199")])]] =
  Ok {["190'ler" := 1%nat]} /\
  AppV2.get_decade_distribution
    [VDict [("album", VDict [("release_date", VStr "199")])]] = Ok ∅.
Proof. split; reflexivity. Qed.

(** On records without a [track] field the two popularity analyses are
    the same function. *)
Lemma app_popularity_agrees (tracks : list pyval) :
  forallb (fun t => is_dict t && negb (has_field "track" t)) tracks = true ->
  App.analyze_popularity tracks = AppV2.analyze_popularity tracks.
Proof.
  intros Hb. unfold App.analyze_popularity, AppV2.analyze_popularity.
  f_equal. induction tracks as [|track tracks IH]; [reflexivity|].
  simpl in Hb. apply andb_prop in Hb as [Ht Hb].
  apply andb_prop in Ht as [Hd Hn]. apply negb_true_iff in Hn.
  destruct track as [| | | | |d]; try discriminate.
  assert (App.unwrap (VDict d) = Ok (VDict d)) as Hu.
  { unfold App.unwrap, py_get, dict_get. unfold has_field, dict_has in Hn.
    destruct (dict_lookup "track" d); [discriminate|reflexivity]. }
  cbn [App.popularities_of AppV2.popularities_of]. rewrite Hu. cbn [bind].
  rewrite (IH Hb). reflexivity.
Qed.

Section Search.
Context {World : Type}.
Variable sp_search : World -> string -> World * result pyval.
Variable format : pyval -> string.

Lemma app_search_loop_cons (song : pyval) (songs : list pyval)
    (st : App.search_state) :
  App.search_loop sp_search format (song :: songs) st =
  if (10 <=? App.songs_found_count st)%nat then Ok st
  else st' <- App.search_song sp_search format st song;;
       App.search_loop sp_search format songs st'.
Proof. reflexivity. Qed.

Lemma app_search_song_count (st st' : App.search_state) (song : pyval) :
  App.search_song sp_search format st song = Ok st' ->
  (App.songs_found_count st' = App.songs_found_count st /\
   length (App.track_uris st') = length (App.track_uris st)) \/
  (App.songs_found_count st' = S (App.songs_found_count st) /\
   length (App.track_uris st') = S (length (App.track_uris st))).
Proof.
  unfold App.search_song. cbv zeta.
  destruct (App.search_phase sp_search (App.query_specific format song)
              (App.search_world st) VNone) as [[w1 u1] c1].
  destruct (if negb (truthy u1)
            then App.search_phase sp_search (App.query_general format song) w1 u1
            else (w1, u1, [])) as [[w2 u2] c2].
  destruct (truthy u2); destruct (py_item song "track"); cbn [bind];
    try discriminate; intros [= <-]; cbn.
  - right. rewrite length_app. simpl. split; [reflexivity|lia].
  - left. auto.
Qed.

(** The search loop of app.py keeps the same cap of ten. *)
Lemma app_search_loop_bound (songs : list pyval) (st st' : App.search_state) :
  App.search_loop sp_search format songs st = Ok st' ->
  length (App.track_uris st) = App.songs_found_count st ->
  (App.songs_found_count st <= 10)%nat ->
  length (App.track_uris st') = App.songs_found_count st' /\
  (App.songs_found_count st' <= 10)%nat.
Proof.
  revert st. induction songs as [|song songs IH]; intros st.
  - simpl. intros [= <-]. auto.
  - rewrite app_search_loop_cons.
    destruct (10 <=? App.songs_found_count st)%nat eqn:E.
    + intros [= <-]. auto.
    + apply Nat.leb_gt in E.
      destruct (App.search_song sp_search format st song) as [st1|] eqn:Hsong;
        cbn [bind]; [|discriminate].
      intros Hloop Hlen Hle. apply (IH st1 Hloop).
      * destruct (app_search_song_count st st1 song Hsong) as [[-> ->]|[-> ->]]; lia.
      * destruct (app_search_song_count st st1 song Hsong) as [[-> _]|[-> _]]; lia.
Qed.

(** And it stops at the target the same way. *)
Lemma app_search_loop_early_stop (pre post : list pyval)
    (st st1 : App.search_state) :
  App.search_loop sp_search format pre st = Ok st1 ->
  (10 <= App.songs_found_count st1)%nat ->
  App.search_loop sp_search format (pre ++ post) st = Ok st1.
Proof.
  revert st. induction pre as [|song pre IH]; intros st.
  - simpl. intros [= <-] Hle. destruct post as [|song post]; [reflexivity|].
    rewrite app_search_loop_cons. apply Nat.leb_le in Hle. rewrite Hle. reflexivity.
  - rewrite <- app_comm_cons, !app_search_loop_cons.
    destruct (10 <=? App.songs_found_count st)%nat eqn:E.
    + intros [= <-] _. reflexivity.
    + destruct (App.search_song sp_search format st song) as [st2|];
        cbn [bind]; [|discriminate].
      apply IH.
Qed.

(** A phase of app.py never raises: it gives back a state, a uri and the
    queries it issued, and on an exception the uri it was given. *)
Lemma app_search_phase_raise (query : string) (w w' : World)
    (track_uri : pyval) (e : exn) :
  sp_search w query = (w', Raise e) ->
  App.search_phase sp_search (Ok query) w track_uri = (w', track_uri, [query]).
Proof. unfold App.search_phase. intros ->. reflexivity. Qed.

End Search.

Lemma app_reconcile_falls_back :
  App.reconcile finds_free_text_only format_text 0%nat [song "Artist" "Title"] =
  Ok {| App.track_uris := [VStr "spotify:track:2"];
        App.songs_found_count := 1;
        App.search_calls :=
          ["track:" +:+ dquote +:+ "Title" +:+ dquote +:+
           " artist:" +:+ dquote +:+ "Artist" +:+ dquote;
           "Artist Title"];
        App.search_world := 2%nat |}.
Proof. vm_compute. reflexivity. Qed.

End Legacy.

(** ** The retry decorator *)

Module Retry.
Import Py AppV2 Spec Client ClientSpec.

Section Loop.
Context {World A : Type}.
Variable max_retries : Z.
Variable delay : Z.
Variable func : World -> option (World * result A).

(** The loop over the attempts [k, k+1, ..., k+m-1], the last of which
    is attempt [max_retries - 1]: what it ends with, by cases on the
    result. *)
Lemma retry_loop_effort (m k : nat) (st st' : retry_run World)
    (r : result (option A)) :
  0 <= delay ->
  Z.of_nat (k + m) = Z.max 0 max_retries ->
  retry_loop max_retries delay func (map Z.of_nat (seq k m)) st = Some (st', r) ->
  match r with
  | Ok None => m = 0%nat /\ st' = st
  | Ok (Some _) =>
      exists j : nat, (j < m)%nat /\
        retry_calls st' = (retry_calls st + S j)%nat /\
        retry_slept st' = retry_slept st + delay * Z.of_nat j
  | Raise _ =>
      (0 < m)%nat /\
      retry_calls st' = (retry_calls st + m)%nat /\
      retry_slept st' = retry_slept st + delay * (Z.of_nat m - 1)
  end.
Proof.
  intros Hd. revert k st. induction m as [|m IH]; intros k st Hk.
  - simpl. intros [= <- <-]. auto.
  - cbn [seq map retry_loop].
    destruct (func (retry_world st)) as [[w [a|e]]|]; [| |discriminate].
    + intros [= <- <-]. exists 0%nat. cbn [retry_calls retry_slept].
      repeat split; lia.
    + destruct (Z.of_nat k =? max_retries - 1) eqn:E.
      * intros [= <- <-]. cbn [retry_calls retry_slept].
        apply Z.eqb_eq in E. assert (m = 0%nat) by lia. subst m.
        repeat split; lia.
      * apply Z.eqb_neq in E.
        assert (Hdelay : (delay <? 0) = false) by (apply Z.ltb_ge; lia).
        rewrite Hdelay. intros Hloop.
        assert (Hk' : Z.of_nat (S k + m) = Z.max 0 max_retries) by lia.
        specialize (IH (S k) _ Hk' Hloop). cbn [retry_calls retry_slept] in IH.
        destruct r as [[a|]|e'].
        -- destruct IH as (j & Hj & Hc & Hs). exists (S j).
           repeat split; lia.
        -- destruct IH as [-> _]. lia.
        -- destruct IH as (Hm & Hc & Hs). repeat split; lia.
Qed.

(** [k] failures, then whatever the loop does with the attempts left. *)
Lemma retry_loop_fails (k : nat) (w w1 : World) :
  fails func k w w1 ->
  forall (i : nat) (rest : list Z) (calls : nat) (slept : Z),
  0 <= delay ->
  Z.of_nat (i + k) < max_retries ->
  retry_loop max_retries delay func (map Z.of_nat (seq i k) ++ rest)
    {| retry_world := w; retry_calls := calls; retry_slept := slept |} =
  retry_loop max_retries delay func rest
    {| retry_world := w1; retry_calls := (calls + k)%nat;
       retry_slept := slept + delay * Z.of_nat k |}.
Proof.
  induction 1 as [w|k w w1 w2 e Hcall _ IH]; intros i rest calls slept Hd Hi.
  - simpl. do 2 f_equal; [lia|lia].
  - cbn [seq map app retry_loop retry_world]. rewrite Hcall.
    replace (Z.of_nat i =? max_retries - 1) with false
      by (symmetry; apply Z.eqb_neq; lia).
    replace (delay <? 0) with false by (symmetry; apply Z.ltb_ge; lia).
    cbn [retry_calls retry_slept].
    rewrite (IH (S i) rest (S calls) (slept + delay) Hd) by lia.
    do 2 f_equal; lia.
Qed.

Lemma seq_split (n k : nat) :
  (k <= n)%nat -> seq 0 n = seq 0 k ++ seq k (n - k).
Proof.
  intros H. replace n with (k + (n - k))%nat at 1 by lia.
  rewrite seq_app. reflexivity.
Qed.
End Loop.

(** X1: however the decorated function behaves, a wrapper that returns
    has called it at most [max_retries] times. It hands back [None]
    only when [max_retries] is not positive, without any call; it raises
    only after exactly [max_retries] calls; and between two calls it has
    slept [delay] seconds, never after the last one. *)
Theorem retry_effort {World A : Type} (max_retries delay : Z)
    (func : World -> option (World * result A)) (w : World)
    (run : retry_run World) (r : result (option A)) :
  0 <= delay ->
  retry_on_error max_retries delay func w = Some (run, r) ->
  (Z.of_nat (retry_calls run) <= Z.max 0 max_retries) /\
  match r with
  | Ok None => max_retries <= 0 /\ retry_calls run = 0%nat /\ retry_slept run = 0
  | Ok (Some _) =>
      (1 <= retry_calls run)%nat /\
      retry_slept run = delay * (Z.of_nat (retry_calls run) - 1)
  | Raise _ =>
      1 <= max_retries /\
      Z.of_nat (retry_calls run) = max_retries /\
      retry_slept run = delay * (max_retries - 1)
  end.
Proof.
  intros Hd Hrun. unfold retry_on_error, py_range in Hrun.
  apply retry_loop_effort in Hrun; [|exact Hd|lia].
  cbn [retry_calls retry_slept] in Hrun.
  destruct r as [[a|]|e].
  - destruct Hrun as (j & Hj & Hc & Hs). rewrite Hc, Hs.
    repeat split; lia.
  - destruct Hrun as [Hm ->]. cbn [retry_calls retry_slept].
    repeat split; lia.
  - destruct Hrun as (Hm & Hc & Hs). rewrite Hc, Hs.
    repeat split; lia.
Qed.

Lemma retry_effort_witness :
  exists run r,
    retry_on_error 3 2 (flaky 5) 0%nat = Some (run, r) /\
    (Z.of_nat (retry_calls run) <= Z.max 0 3) /\
    match r with
    | Ok None => 3 <= 0 /\ retry_calls run = 0%nat /\ retry_slept run = 0
    | Ok (Some _) =>
        (1 <= retry_calls run)%nat /\
        retry_slept run = 2 * (Z.of_nat (retry_calls run) - 1)
    | Raise _ =>
        1 <= 3 /\ Z.of_nat (retry_calls run) = 3 /\ retry_slept run = 2 * (3 - 1)
    end.
Proof.
  eexists _, _. split; [vm_compute; reflexivity|].
  apply (retry_effort 3 2 (flaky 5) 0%nat); [lia|vm_compute; reflexivity].
Defined.

(** X2: when the first [k] calls fail and call [k+1] succeeds, with
    [k < max_retries], the wrapper returns that value after [k+1] calls
    and [k] sleeps, with the service as the successful call left it. *)
Theorem retry_recovers {World A : Type} (max_retries delay : Z)
    (func : World -> option (World * result A))
    (k : nat) (w w1 w2 : World) (a : A) :
  0 <= delay ->
  Z.of_nat k < max_retries ->
  fails func k w w1 ->
  func w1 = Some (w2, Ok a) ->
  retry_on_error max_retries delay func w =
  Some ({| retry_world := w2; retry_calls := S k;
           retry_slept := delay * Z.of_nat k |}, Ok (Some a)).
Proof.
  intros Hd Hk Hfails Hcall. unfold retry_on_error, py_range.
  rewrite (seq_split (Z.to_nat max_retries) k) by lia.
  rewrite map_app.
  rewrite (retry_loop_fails max_retries delay func k w w1 Hfails 0) by (auto; lia).
  destruct (Z.to_nat max_retries - k)%nat as [|m] eqn:Em; [lia|].
  cbn [seq map retry_loop retry_world]. rewrite Hcall.
  cbn [retry_calls retry_slept]. do 3 f_equal; lia.
Qed.

Lemma retry_recovers_witness :
  retry_on_error 3 2 (flaky 2) 0%nat =
  Some ({| retry_world := 3%nat; retry_calls := 3; retry_slept := 2 * 2 |},
        Ok (Some (VInt 2))).
Proof.
  apply (retry_recovers 3 2 (flaky 2) 2 0%nat 2%nat 3%nat (VInt 2)).
  - lia.
  - lia.
  - apply (fails_more _ 1 0%nat 1%nat 2%nat ServiceError); [reflexivity|].
    apply (fails_more _ 0 1%nat 2%nat 2%nat ServiceError); [reflexivity|].
    apply fails_none.
  - reflexivity.
Defined.

(** X3: when [max_retries] calls in a row fail, the wrapper raises the
    exception of the last call, the earlier ones are dropped; it has
    called [max_retries] times and slept [max_retries - 1] times. *)
Theorem retry_exhausts {World A : Type} (max_retries delay : Z)
    (func : World -> option (World * result A))
    (k : nat) (w w1 w2 : World) (e : exn) :
  0 <= delay ->
  max_retries = Z.of_nat (S k) ->
  fails func k w w1 ->
  func w1 = Some (w2, Raise e) ->
  retry_on_error max_retries delay func w =
  Some ({| retry_world := w2; retry_calls := S k;
           retry_slept := delay * Z.of_nat k |}, Raise e).
Proof.
  intros Hd Hk Hfails Hcall. unfold retry_on_error, py_range.
  rewrite (seq_split (Z.to_nat max_retries) k) by lia.
  rewrite map_app.
  rewrite (retry_loop_fails max_retries delay func k w w1 Hfails 0) by (auto; lia).
  replace (Z.to_nat max_retries - k)%nat with 1%nat by lia.
  cbn [seq map retry_loop retry_world]. rewrite Hcall.
  replace (Z.of_nat k =? max_retries - 1) with true
    by (symmetry; apply Z.eqb_eq; lia).
  cbn [retry_calls retry_slept]. do 3 f_equal; lia.
Qed.

Lemma retry_exhausts_witness :
  retry_on_error 3 2 (flaky 5) 0%nat =
  Some ({| retry_world := 3%nat; retry_calls := 3; retry_slept := 2 * 2 |},
        Raise ServiceError).
Proof.
  apply (retry_exhausts 3 2 (flaky 5) 2 0%nat 2%nat 3%nat ServiceError).
  - lia.
  - reflexivity.
  - apply (fails_more _ 1 0%nat 1%nat 2%nat ServiceError); [reflexivity|].
    apply (fails_more _ 0 1%nat 2%nat 2%nat ServiceError); [reflexivity|].
    apply fails_none.
  - reflexivity.
Defined.

(** A body that returns is called once. *)
Lemma retried_once {World A : Type} (body : World -> World * A) (w : World) :
  retried body w =
  Some ({| retry_world := fst (body w); retry_calls := 1; retry_slept := 0 |},
        Ok (Some (snd (body w)))).
Proof.
  unfold retried, retry_on_error.
  change (py_range 3) with [0; 1; 2].
  cbn [retry_loop retry_world retry_calls retry_slept].
  destruct (body w) as [w' a]. reflexivity.
Qed.

End Retry.

(** ** Top lists and recent plays *)

Module Fetchers.
Import Py AppV2 Spec Client ClientSpec.

Section Calls.
Context {World : Type}.
Variable sp_current_user_top_tracks : World -> pyval -> pyval -> World * result pyval.
Variable sp_current_user_top_artists : World -> pyval -> pyval -> World * result pyval.
Variable sp_current_user_recently_played : World -> pyval -> World * result pyval.

Lemma top_tracks_keep_id (response : result pyval) (tracks : list pyval) :
  top_tracks_of response = Ok tracks -> Forall (fun t => keeps_id t = true) tracks.
Proof.
  unfold top_tracks_of. destruct response as [results|e]; [|discriminate].
  cbn [bind]. destruct (py_get results "items" (VList [])) as [items|e];
    [|discriminate].
  cbn [bind]. destruct (py_iter items) as [l|e]; [|discriminate].
  cbn [bind]. intros [= <-]. apply List.Forall_forall. intros t Ht.
  apply filter_In in Ht. apply Ht.
Qed.

Lemma get_top_tracks_body_keep_id (time_range limit : pyval) (w : World) :
  Forall (fun t => keeps_id t = true)
    (snd (get_top_tracks_body sp_current_user_top_tracks time_range limit w)).
Proof.
  unfold get_top_tracks_body.
  destruct (sp_current_user_top_tracks w time_range limit) as [w' response].
  cbn [snd]. destruct (top_tracks_of response) as [tracks|e] eqn:E.
  - apply (top_tracks_keep_id response), E.
  - constructor.
Qed.
End Calls.

(** X4: the three decorated fetchers call the client exactly once and
    never sleep, whatever the client does: their bodies catch every
    exception, so the retry around them never sees one, and they neither
    raise nor fall through to the wrapper's [None]. [get_top_tracks]
    returns a list of records with non-empty ids, the items of the
    response that are such records, in order. [get_top_artists] and
    [get_recently_played] return what the response holds under [items]
    as it is, list or not, and the empty list when the response has no
    [items], is no record, or the call raised. *)
Theorem decorated_fetchers_call_once {World : Type}
    (sp_current_user_top_tracks : World -> pyval -> pyval -> World * result pyval)
    (sp_current_user_top_artists : World -> pyval -> pyval -> World * result pyval)
    (sp_current_user_recently_played : World -> pyval -> World * result pyval)
    (w : World) (time_range limit : pyval) :
  (exists tracks,
     get_top_tracks sp_current_user_top_tracks w time_range limit =
     Some ({| retry_world := fst (sp_current_user_top_tracks w time_range limit);
              retry_calls := 1; retry_slept := 0 |}, Ok (Some tracks)) /\
     Forall (fun t => is_dict t = true /\ nonempty_id t = true) tracks /\
     tracks =
       match py_iter (items_or_empty
                        (snd (sp_current_user_top_tracks w time_range limit))) with
       | Ok items => List.filter (fun t => is_dict t && nonempty_id t) items
       | Raise _ => []
       end) /\
  get_top_artists sp_current_user_top_artists w time_range limit =
    Some ({| retry_world := fst (sp_current_user_top_artists w time_range limit);
             retry_calls := 1; retry_slept := 0 |},
          Ok (Some (items_or_empty
                      (snd (sp_current_user_top_artists w time_range limit))))) /\
  get_recently_played sp_current_user_recently_played w limit =
    Some ({| retry_world := fst (sp_current_user_recently_played w limit);
             retry_calls := 1; retry_slept := 0 |},
          Ok (Some (items_or_empty
                      (snd (sp_current_user_recently_played w limit))))).
Proof.
  unfold get_top_tracks, get_top_artists, get_recently_played.
  rewrite !Retry.retried_once.
  pose proof (get_top_tracks_body_keep_id sp_current_user_top_tracks
                time_range limit w) as Hkeep.
  unfold get_top_tracks_body, get_top_artists_body, get_recently_played_body
    in *.
  destruct (sp_current_user_top_tracks w time_range limit) as [w1 r1].
  destruct (sp_current_user_top_artists w time_range limit) as [w2 r2].
  destruct (sp_current_user_recently_played w limit) as [w3 r3].
  cbn [fst snd] in *. split; [|split].
  - eexists. split; [reflexivity|]. split.
    + eapply Forall_impl; [exact Hkeep|]. intros t Ht.
      destruct t; try discriminate. split; [reflexivity|exact Ht].
    + unfold top_tracks_of, items_or_empty.
      destruct r1 as [[| | | | |d]|e]; cbn [bind py_get py_iter];
        try reflexivity.
      destruct (py_iter (dict_get "items" d (VList []))) as [items|e];
        cbn [bind]; [|reflexivity].
      apply filter_ext. intros t. destruct t; reflexivity.
  - unfold items_of, items_or_empty.
    destruct r2 as [[| | | | |d]|e]; reflexivity.
  - unfold items_of, items_or_empty.
    destruct r3 as [[| | | | |d]|e]; reflexivity.
Qed.

(** What the two pass on need not be a list: a response whose [items]
    is null is handed over as null. *)
Example top_artists_not_a_list :
  get_top_artists (fun (w : nat) _ _ => (S w, Ok (VDict [("items", VNone)])))
    0%nat (VStr "short_term") (VInt 50) =
  Some ({| retry_world := 1%nat; retry_calls := 1; retry_slept := 0 |},
        Ok (Some VNone)) /\
  get_recently_played (fun (w : nat) _ => (S w, Ok (VDict [("items", VStr "abc")])))
    0%nat (VInt 50) =
  Some ({| retry_world := 1%nat; retry_calls := 1; retry_slept := 0 |},
        Ok (Some (VStr "abc"))).
Proof. split; reflexivity. Qed.

(** A record with an id that holds no record under [track] passes the
    sanitizer as itself, patched. *)
Lemma keeps_id_emitted (t : pyval) :
  keeps_id t = true ->
  looks_like_wrapper t = false ->
  exists d, t = VDict d /\
    emitted t = [VDict (fst (patch_track d))] /\ dropped t = 0%nat.
Proof.
  destruct t as [| | | | |d]; try discriminate.
  cbn [keeps_id]. unfold looks_like_wrapper, field. intros Hid Hw.
  exists d. split; [reflexivity|].
  unfold emitted, dropped, candidate, track_object.
  rewrite Hw, andb_false_r, (truthy_get_has _ _ Hid).
  rewrite (dict_has_nonempty "id" d (truthy_get_has _ _ Hid)), Hid.
  cbn [andb]. auto.
Qed.

Lemma sanitize_keeps_ids (tracks : list pyval) :
  Forall (fun t => keeps_id t = true) tracks ->
  Forall (fun t => looks_like_wrapper t = false) tracks ->
  map (field "id") (sanitize_track_list tracks) = map (field "id") tracks /\
  invalid_count (sanitize_run tracks) = 0%nat.
Proof.
  intros Hid Hw. rewrite Sanitizer.sanitize_track_list_spec,
    Sanitizer.sanitize_run_spec. cbn [invalid_count].
  induction tracks as [|t tracks IH]; [auto|].
  apply Forall_cons in Hid as [Ht Hid]. apply Forall_cons in Hw as [Hwt Hw].
  destruct (IH Hid Hw) as [IH1 IH2].
  destruct (keeps_id_emitted t Ht Hwt) as (d & -> & He & Hd).
  cbn [flat_map map]. rewrite He. cbn [app map]. rewrite IH1.
  split; [|simpl; rewrite Hd, IH2; reflexivity]. f_equal.
  destruct (Sanitizer.patch_track_fields d) as (_ & _ & _ & _ & _ & Hf & _).
  exact Hf.
Qed.

(** X5: the top tracks go through the sanitizer without loss. When no
    track returned by [get_top_tracks] holds a record under [track],
    [sanitize_track_list] keeps every one of them, in order and under
    the same id, and counts no invalid item. *)
Theorem top_tracks_survive_sanitizer {World : Type}
    (sp_current_user_top_tracks : World -> pyval -> pyval -> World * result pyval)
    (w : World) (time_range limit : pyval) :
  let tracks :=
    snd (get_top_tracks_body sp_current_user_top_tracks time_range limit w) in
  Forall (fun t => looks_like_wrapper t = false) tracks ->
  map (field "id") (sanitize_track_list tracks) = map (field "id") tracks /\
  invalid_count (sanitize_run tracks) = 0%nat.
Proof.
  intros tracks Hw. apply sanitize_keeps_ids; [|exact Hw].
  apply get_top_tracks_body_keep_id.
Qed.

Lemma top_tracks_survive_sanitizer_witness :
  let tracks := snd (get_top_tracks_body top_service (VStr "short_term") (VInt 50) 0%nat) in
  map (field "id") tracks = [VStr "t1"; VStr "t2"] /\
  map (field "id") (sanitize_track_list tracks) = map (field "id") tracks /\
  invalid_count (sanitize_run tracks) = 0%nat.
Proof.
  split; [reflexivity|].
  apply (top_tracks_survive_sanitizer top_service 0%nat (VStr "short_term") (VInt 50)).
  vm_compute. repeat constructor.
Defined.

End Fetchers.

(** ** Paged fetches *)

Module Paging.
Import Py AppV2 Spec Client ClientSpec.

Lemma safe_get_track (item : pyval) :
  safe_get item ["track"] VNone = field "track" item.
Proof. destruct item; reflexivity. Qed.

Lemma safe_get_track_id (item : pyval) :
  safe_get item ["track"; "id"] VNone = field "id" (field "track" item).
Proof.
  destruct item as [| | | | |d]; reflexivity.
Qed.

Lemma py_item_track (item : pyval) :
  is_dict (field "track" item) = true ->
  py_item item "track" = Ok (field "track" item).
Proof.
  destruct item as [| | | | |d]; try discriminate.
  cbn [field py_item]. unfold dict_get.
  destruct (dict_lookup "track" d); [reflexivity|discriminate].
Qed.

(** The comprehension never raises: the subscript is guarded by its
    condition. *)
Lemma page_tracks_spec (items : list pyval) :
  page_tracks items = Ok (tracks_on items).
Proof.
  unfold tracks_on. induction items as [|item items IH]; [reflexivity|].
  cbn [page_tracks flat_map]. rewrite safe_get_track, safe_get_track_id, IH.
  unfold nonempty_id.
  destruct (is_dict (field "track" item)) eqn:Ed; cbn [andb];
    [|rewrite andb_false_r; reflexivity].
  destruct (truthy (field "id" (field "track" item))); cbn [andb];
    [|reflexivity].
  rewrite (py_item_track item Ed). reflexivity.
Qed.

Lemma tracks_on_records (items : list pyval) :
  Forall (fun t => is_dict t = true /\ nonempty_id t = true) (tracks_on items).
Proof.
  unfold tracks_on. induction items as [|item items IH]; [constructor|].
  cbn [flat_map].
  destruct (nonempty_id (field "track" item)) eqn:En; cbn [andb]; [|exact IH].
  destruct (is_dict (field "track" item)) eqn:Ed; [|exact IH].
  constructor; auto.
Qed.

Lemma read_page_tracks (results items : pyval) (page : list pyval) :
  read_page results = Ok (items, page) ->
  Forall (fun t => is_dict t = true /\ nonempty_id t = true) page.
Proof.
  unfold read_page.
  destruct (py_get results "items" (VList [])) as [i|]; [|discriminate].
  cbn [bind]. destruct (py_iter i) as [l|]; [|discriminate].
  cbn [bind]. rewrite page_tracks_spec. cbn [bind]. intros [= _ <-].
  apply tracks_on_records.
Qed.

Lemma read_page_items (results : pyval) (items : list pyval) :
  page_items results = Some items ->
  exists raw, read_page results = Ok (raw, tracks_on items) /\
              py_iter raw = Ok items.
Proof.
  unfold page_items, read_page.
  destruct results as [| | | | |d]; try discriminate.
  destruct (truthy (VDict d)); [|discriminate]. cbn [py_get bind].
  destruct (py_iter (dict_get "items" d (VList []))) as [l|] eqn:E;
    [|discriminate].
  intros [= <-]. cbn [bind]. rewrite page_tracks_spec. cbn [bind]. eauto.
Qed.

Lemma page_items_truthy (results : pyval) (items : list pyval) :
  page_items results = Some items -> truthy results = true.
Proof.
  unfold page_items. destruct results as [| | | | |d]; try discriminate.
  destruct (truthy (VDict d)); [reflexivity|discriminate].
Qed.

Lemma read_page_malformed (results : pyval) :
  page_items results = None -> truthy results = true ->
  exists e, read_page results = Raise e.
Proof.
  unfold page_items, read_page. intros Hp Ht.
  destruct results as [| | | | |d]; cbn [py_get bind]; eauto.
  rewrite Ht in Hp.
  destruct (py_iter (dict_get "items" d (VList []))); [discriminate|].
  cbn [bind]. eauto.
Qed.

Lemma py_iter_len (v : pyval) (items : list pyval) :
  py_iter v = Ok items -> exists n, py_len v = Ok n.
Proof. destruct v; try discriminate; cbn [py_len]; eauto. Qed.

Lemma py_gt_zero_number (total : pyval) :
  is_number total = true -> exists b, py_gt_zero total = Ok b.
Proof. destruct total; try discriminate; cbn [py_gt_zero]; eauto. Qed.

Lemma py_gt_zero_other (total : pyval) :
  is_number total = false -> py_gt_zero total = Raise TypeError.
Proof. destruct total; try discriminate; reflexivity. Qed.

Lemma after_extend_page (results total raw : pyval) (items : list pyval)
    (fetched : nat) :
  page_items results = Some items ->
  py_iter raw = Ok items ->
  is_number total = true ->
  exists n, after_extend results total raw fetched = Ok (n, field "next" results).
Proof.
  intros Hp Hraw Hn. unfold after_extend.
  destruct (py_iter_len raw items Hraw) as [n ->].
  destruct (py_gt_zero_number total Hn) as [b ->]. cbn [bind].
  destruct results as [| | | | |d]; try discriminate.
  cbn [py_get bind field]. eauto.
Qed.

Section Walk.
Context {World : Type}.
Variable sp_next : World -> pyval -> World * result pyval.

(** The loop follows the pages: it ends where the walk ends, with the
    tracks of every page it visited. *)
Lemma fetch_pages_walk (w w' : World) (results : pyval)
    (pages : list (list pyval)) (how : ending) :
  paged sp_next w results pages how w' ->
  forall (total : pyval) (fuel fetched : nat) (tracks : list pyval),
  is_number total = true ->
  (length pages < fuel)%nat ->
  fetch_pages sp_next fuel w results total fetched tracks =
  Some (w', tracks ++ flat_map tracks_on pages).
Proof.
  induction 1 as [w results Hf|w results Ht Hp|w results items Hp Hn
                 |w w' results items e Hp Hn Hcall
                 |w w1 w' results results' items pages how Hp Hn Hcall _ IH];
    intros total fuel fetched tracks Htot Hfuel;
    (destruct fuel as [|fuel]; [simpl in Hfuel; lia|]); cbn [fetch_pages].
  - rewrite Hf. cbn [flat_map]. rewrite app_nil_r. reflexivity.
  - rewrite Ht. destruct (read_page_malformed results Hp Ht) as [e ->].
    cbn [flat_map]. rewrite app_nil_r. reflexivity.
  - rewrite (page_items_truthy _ _ Hp).
    destruct (read_page_items results items Hp) as (raw & -> & Hraw).
    destruct (after_extend_page results total raw items fetched Hp Hraw Htot)
      as [n ->].
    rewrite Hn. cbn [flat_map]. rewrite app_nil_r. reflexivity.
  - rewrite (page_items_truthy _ _ Hp).
    destruct (read_page_items results items Hp) as (raw & -> & Hraw).
    destruct (after_extend_page results total raw items fetched Hp Hraw Htot)
      as [n ->].
    rewrite Hn, Hcall. cbn [flat_map]. rewrite app_nil_r. reflexivity.
  - rewrite (page_items_truthy _ _ Hp).
    destruct (read_page_items results items Hp) as (raw & -> & Hraw).
    destruct (after_extend_page results total raw items fetched Hp Hraw Htot)
      as [n ->].
    rewrite Hn, Hcall. cbn [length] in Hfuel.
    rewrite (IH total fuel n (tracks ++ tracks_on items) Htot) by lia.
    cbn [flat_map]. rewrite app_assoc. reflexivity.
Qed.

(** Whatever the service answers, the loop only ever appends records
    with a non-empty id. *)
Lemma fetch_pages_records (fuel : nat) :
  forall (w w' : World) (results total : pyval) (fetched : nat)
         (tracks out : list pyval),
  fetch_pages sp_next fuel w results total fetched tracks = Some (w', out) ->
  Forall (fun t => is_dict t = true /\ nonempty_id t = true) tracks ->
  Forall (fun t => is_dict t = true /\ nonempty_id t = true) out.
Proof.
  induction fuel as [|fuel IH]; intros w w' results total fetched tracks out;
    [discriminate|].
  cbn [fetch_pages]. destruct (truthy results); [|intros [= _ <-]; auto].
  destruct (read_page results) as [[items page]|e] eqn:Hread;
    [|intros [= _ <-]; auto].
  pose proof (read_page_tracks _ _ _ Hread) as Hpage.
  destruct (after_extend results total items fetched) as [[n next]|e].
  - destruct (truthy next).
    + destruct (sp_next w results) as [w1 [results'|e]].
      * intros Hrec Htracks. apply (IH _ _ _ _ _ _ _ Hrec).
        apply Forall_app; auto.
      * intros [= _ <-] Htracks. apply Forall_app; auto.
    + intros [= _ <-] Htracks. apply Forall_app; auto.
  - intros [= _ <-] Htracks. apply Forall_app; auto.
Qed.

Lemma fetch_all_walk (first : World * result pyval) (w0 w' : World)
    (results : pyval) (pages : list (list pyval)) (how : ending) (fuel : nat) :
  first = (w0, Ok results) ->
  paged sp_next w0 results pages how w' ->
  is_number (total_of results) = true ->
  (length pages < fuel)%nat ->
  fetch_all sp_next fuel first = Some (w', flat_map tracks_on pages).
Proof.
  intros -> Hwalk Htot Hfuel. unfold fetch_all. cbn [bind].
  destruct results as [| | | | |d];
    try (cbn [py_get bind];
         inversion Hwalk as [w1 r1 Hf|w1 r1 Ht Hp|w1 r1 items Hp Hn
                            |w1 w2 r1 items e Hp Hn Hcall
                            |w1 w2 w3 r1 r2 items pages' how' Hp Hn Hcall Hrest];
         subst; try discriminate; reflexivity).
  cbn [py_get bind].
  apply (fetch_pages_walk _ _ _ _ _ Hwalk _ fuel 0%nat [] Htot Hfuel).
Qed.

Lemma fetch_all_records (fuel : nat) (first : World * result pyval) (w' : World)
    (out : list pyval) :
  fetch_all sp_next fuel first = Some (w', out) ->
  Forall (fun t => is_dict t = true /\ nonempty_id t = true) out.
Proof.
  unfold fetch_all. destruct first as [w [results|e]]; cbn [bind].
  - destruct (py_get results "total" (VInt 0)) as [total|e]; cbn [bind].
    + intros H. apply (fetch_pages_records _ _ _ _ _ _ _ _ H). constructor.
    + intros [= _ <-]. constructor.
  - intros [= _ <-]. constructor.
Qed.

(** A total that cannot be compared with zero ends the loop in its
    first pass, after the tracks of the page were appended. *)
Lemma fetch_pages_odd_total (fuel : nat) (w : World) (results total : pyval)
    (items : list pyval) (fetched : nat) (tracks : list pyval) :
  page_items results = Some items ->
  is_number total = false ->
  fetch_pages sp_next (S fuel) w results total fetched tracks =
  Some (w, tracks ++ tracks_on items).
Proof.
  intros Hp Htot. cbn [fetch_pages]. rewrite (page_items_truthy _ _ Hp).
  destruct (read_page_items results items Hp) as (raw & -> & Hraw).
  unfold after_extend. destruct (py_iter_len raw items Hraw) as [n ->].
  rewrite (py_gt_zero_other total Htot). reflexivity.
Qed.
End Walk.

(** The library of the example, walked to its end and walked into a
    failing call. *)
Lemma library_walk :
  paged library_next 1%nat (library_page 0)
    [[wrapped "a"; VDict [("track", VNone)]]; [wrapped "b"; wrapped "c"];
     [wrapped "d"]] Finished 3%nat.
Proof.
  eapply paged_next; [reflexivity|reflexivity|reflexivity|].
  eapply paged_next; [reflexivity|reflexivity|reflexivity|].
  apply paged_last; reflexivity.
Qed.

Lemma library_walk_failing :
  paged library_next_failing 1%nat (library_page 0)
    [[wrapped "a"; VDict [("track", VNone)]]; [wrapped "b"; wrapped "c"]]
    Broken 3%nat.
Proof.
  eapply paged_next; [reflexivity|reflexivity|reflexivity|].
  eapply paged_broken; reflexivity.
Qed.

(** X6: [get_all_saved_tracks] follows the pages of the library. With
    fuel for one pass more than the pages, it returns the wrapped tracks
    of every page visited, in order, skipping items without a track
    record or without an id. A walk that breaks off, because the call
    for a next page raised, still returns the tracks of the pages read
    until then. *)
Theorem saved_tracks_follow_pages {World : Type}
    (sp_current_user_saved_tracks : World -> pyval -> World * result pyval)
    (sp_next : World -> pyval -> World * result pyval)
    (w w0 w' : World) (results : pyval) (pages : list (list pyval))
    (how : ending) (fuel : nat) :
  sp_current_user_saved_tracks w (VInt 50) = (w0, Ok results) ->
  paged sp_next w0 results pages how w' ->
  is_number (total_of results) = true ->
  (length pages < fuel)%nat ->
  get_all_saved_tracks sp_current_user_saved_tracks sp_next fuel w =
  Some (w', flat_map tracks_on pages).
Proof.
  intros Hfirst Hwalk Htot Hfuel. unfold get_all_saved_tracks.
  apply (fetch_all_walk sp_next _ w0 w' results pages how fuel);
    assumption.
Qed.

Lemma saved_tracks_follow_pages_witness :
  get_all_saved_tracks library_first library_next 4 0%nat =
  Some (3%nat, [field "track" (wrapped "a"); field "track" (wrapped "b");
                field "track" (wrapped "c"); field "track" (wrapped "d")]) /\
  get_all_saved_tracks library_first library_next_failing 3 0%nat =
  Some (3%nat, [field "track" (wrapped "a"); field "track" (wrapped "b");
                field "track" (wrapped "c")]).
Proof.
  split.
  - apply (saved_tracks_follow_pages library_first library_next 0%nat 1%nat
             3%nat (library_page 0) _ Finished 4 eq_refl library_walk).
    + reflexivity.
    + simpl. lia.
  - apply (saved_tracks_follow_pages library_first library_next_failing
             0%nat 1%nat 3%nat (library_page 0) _ Broken 3 eq_refl
             library_walk_failing).
    + reflexivity.
    + simpl. lia.
Defined.

(** X7: [get_playlist_tracks] follows the pages of a playlist in the
    same way, from the first response of [playlist_tracks]. *)
Theorem playlist_tracks_follow_pages {World : Type}
    (sp_playlist_tracks : World -> pyval -> pyval -> World * result pyval)
    (sp_next : World -> pyval -> World * result pyval)
    (w w0 w' : World) (playlist_id results : pyval)
    (pages : list (list pyval)) (how : ending) (fuel : nat) :
  sp_playlist_tracks w playlist_id (VInt 100) = (w0, Ok results) ->
  paged sp_next w0 results pages how w' ->
  is_number (total_of results) = true ->
  (length pages < fuel)%nat ->
  get_playlist_tracks sp_playlist_tracks sp_next fuel w playlist_id =
  Some (w', flat_map tracks_on pages).
Proof.
  intros Hfirst Hwalk Htot Hfuel. unfold get_playlist_tracks.
  apply (fetch_all_walk sp_next _ w0 w' results pages how fuel);
    assumption.
Qed.

Lemma playlist_tracks_follow_pages_witness :
  get_playlist_tracks playlist_first library_next 4 0%nat (VStr "p1") =
  Some (3%nat, [field "track" (wrapped "a"); field "track" (wrapped "b");
                field "track" (wrapped "c"); field "track" (wrapped "d")]).
Proof.
  apply (playlist_tracks_follow_pages playlist_first library_next 0%nat 1%nat
           3%nat (VStr "p1") (library_page 0) _ Finished 4 eq_refl library_walk).
  - reflexivity.
  - simpl. lia.
Defined.

(** X8: a first response whose [total] is no number, a null for one,
    stops the fetch after its first page. The tracks of that page are
    returned, and the call for the next page is never made, whatever
    [next] says. *)
Theorem playlist_tracks_odd_total {World : Type}
    (sp_playlist_tracks : World -> pyval -> pyval -> World * result pyval)
    (sp_next : World -> pyval -> World * result pyval)
    (w w0 : World) (playlist_id results : pyval) (items : list pyval)
    (fuel : nat) :
  sp_playlist_tracks w playlist_id (VInt 100) = (w0, Ok results) ->
  page_items results = Some items ->
  is_number (total_of results) = false ->
  get_playlist_tracks sp_playlist_tracks sp_next (S fuel) w playlist_id =
  Some (w0, tracks_on items).
Proof.
  intros Hfirst Hp Htot. unfold get_playlist_tracks, fetch_all.
  rewrite Hfirst. cbn [bind].
  destruct results as [| | | | |d]; try discriminate. cbn [py_get bind].
  apply (fetch_pages_odd_total sp_next fuel w0 (VDict d) _ items 0 [] Hp Htot).
Qed.

Lemma playlist_tracks_odd_total_witness :
  get_playlist_tracks untotalled_first library_next 5 0%nat (VStr "p1") =
  Some (1%nat, [field "track" (wrapped "a")]).
Proof.
  apply (playlist_tracks_odd_total untotalled_first library_next 0%nat 1%nat
           (VStr "p1") untotalled_page [wrapped "a"] 4);
    reflexivity.
Defined.

(** X9: whatever the service answers and however the fetch ends, every
    track that [get_all_saved_tracks] and [get_playlist_tracks] return
    is a record with a non-empty id. *)
Theorem fetched_tracks_are_records {World : Type}
    (sp_current_user_saved_tracks : World -> pyval -> World * result pyval)
    (sp_playlist_tracks : World -> pyval -> pyval -> World * result pyval)
    (sp_next : World -> pyval -> World * result pyval)
    (fuel : nat) (w w' : World) (playlist_id : pyval) (out : list pyval) :
  get_all_saved_tracks sp_current_user_saved_tracks sp_next fuel w = Some (w', out)
  \/ get_playlist_tracks sp_playlist_tracks sp_next fuel w playlist_id = Some (w', out) ->
  Forall (fun t => is_dict t = true /\ nonempty_id t = true) out.
Proof.
  unfold get_all_saved_tracks, get_playlist_tracks.
  intros [H|H]; apply (fetch_all_records sp_next _ _ _ _ H).
Qed.

Lemma fetched_tracks_are_records_witness :
  Forall (fun t => is_dict t = true /\ nonempty_id t = true)
    [field "track" (wrapped "a"); field "track" (wrapped "b");
     field "track" (wrapped "c")].
Proof.
  apply (fetched_tracks_are_records library_first playlist_first
           library_next_failing 3 0%nat 3%nat (VStr "p1")).
  left. reflexivity.
Defined.

(** Entering fetched tracks in the merge: only an id that cannot be
    hashed stops it. *)
Lemma add_saved_records (saved : list pyval) (d : tracks_dict) :
  Forall (fun t => is_dict t = true /\ nonempty_id t = true) saved ->
  match add_saved saved d with
  | Ok _ => Forall (fun t => key_of (field "id" t) <> None) saved
  | Raise e =>
      e = TypeError /\ Exists (fun t => key_of (field "id" t) = None) saved
  end.
Proof.
  intros H. revert d. induction H as [|t saved [Hd Hid] _ IH]; intros d.
  - simpl. constructor.
  - destruct t as [| | | | |r]; try discriminate.
    unfold nonempty_id, field in Hid.
    cbn [add_saved]. unfold add_track.
    rewrite (dict_has_nonempty "id" r (truthy_get_has _ _ Hid)).
    cbn [py_get bind]. rewrite Hid. unfold py_hash.
    destruct (key_of (dict_get "id" r VNone)) as [k|] eqn:Ek; cbn [bind].
    + specialize (IH (tracks_dict_set k (VDict r) d)).
      destruct (add_saved saved (tracks_dict_set k (VDict r) d)).
      * constructor; [|exact IH]. cbn [field]. rewrite Ek. discriminate.
      * destruct IH as [-> IH]. split; [reflexivity|].
        apply Exists_cons_tl, IH.
    + split; [reflexivity|]. apply Exists_cons_hd. exact Ek.
Qed.

(** X10: the library fetch feeds the merge. On what
    [get_all_saved_tracks] returned, [get_all_user_tracks_heavy] raises
    only a [TypeError], and only when a fetched track has a list or a
    record as its id; when every id can be hashed it returns, whatever
    the playlists hold. *)
Theorem library_merge_outcome {World : Type}
    (sp_current_user_saved_tracks : World -> pyval -> World * result pyval)
    (sp_next : World -> pyval -> World * result pyval)
    (fuel : nat) (w w' : World) (saved : list pyval)
    (playlist_tracks_of : pyval -> result (list pyval)) (playlists : list pyval) :
  get_all_saved_tracks sp_current_user_saved_tracks sp_next fuel w = Some (w', saved) ->
  match get_all_user_tracks_heavy playlist_tracks_of saved playlists with
  | Ok _ => Forall (fun t => key_of (field "id" t) <> None) saved
  | Raise e =>
      e = TypeError /\ Exists (fun t => key_of (field "id" t) = None) saved
  end.
Proof.
  intros Hfetch. unfold get_all_saved_tracks in Hfetch.
  pose proof (fetch_all_records sp_next _ _ _ _ Hfetch) as Hrec.
  pose proof (add_saved_records saved [] Hrec) as Hadd.
  unfold get_all_user_tracks_heavy.
  destruct (add_saved saved []); cbn [bind]; exact Hadd.
Qed.

Lemma library_merge_outcome_witness :
  get_all_saved_tracks odd_id_first library_next 2 0%nat =
    Some (1%nat, [field "track" (wrapped "a"); VDict [("id", VList [VInt 7])]]) /\
  match get_all_user_tracks_heavy (fun _ => Raise ServiceError)
          [field "track" (wrapped "a"); VDict [("id", VList [VInt 7])]] [] with
  | Ok _ =>
      Forall (fun t => key_of (field "id" t) <> None)
        [field "track" (wrapped "a"); VDict [("id", VList [VInt 7])]]
  | Raise e =>
      e = TypeError /\
      Exists (fun t => key_of (field "id" t) = None)
        [field "track" (wrapped "a"); VDict [("id", VList [VInt 7])]]
  end.
Proof.
  split; [reflexivity|].
  apply (library_merge_outcome odd_id_first library_next 2 0%nat 1%nat).
  reflexivity.
Defined.

End Paging.

(** ** The user's playlists *)

Module Playlists.
Import Py AppV2 Spec Client ClientSpec.

Lemma is_user_playlist_spec (user_id p : pyval) :
  record_or_falsy p = true ->
  is_user_playlist user_id p = Ok (truthy p && owned_or_collaborative user_id p).
Proof.
  unfold record_or_falsy, is_user_playlist, owned_or_collaborative.
  destruct (truthy p) eqn:Et; [|reflexivity].
  destruct p as [| | | | |d]; try discriminate. intros _.
  change (safe_get (VDict d) ["owner"; "id"] VNone)
    with (field "id" (field "owner" (VDict d))).
  destruct (py_eq (field "id" (field "owner" (VDict d))) user_id);
    reflexivity.
Qed.

Lemma user_playlists_spec (user_id : pyval) (entries : list pyval) :
  Forall (fun p => record_or_falsy p = true) entries ->
  user_playlists user_id entries =
  Ok (List.filter (fun p => truthy p && owned_or_collaborative user_id p) entries).
Proof.
  induction 1 as [|p entries Hp _ IH]; [reflexivity|].
  cbn [user_playlists List.filter].
  rewrite (is_user_playlist_spec user_id p Hp), IH. cbn [bind].
  destruct (truthy p && owned_or_collaborative user_id p); reflexivity.
Qed.

Lemma py_eq_none (v : pyval) : v <> VNone -> py_eq VNone v = false.
Proof. destruct v; try reflexivity. intros H. destruct H. reflexivity. Qed.

Lemma is_user_playlist_stray (user_id p : pyval) :
  user_id <> VNone -> truthy p = true -> is_dict p = false ->
  is_user_playlist user_id p = Raise AttributeError.
Proof.
  intros Hu Ht Hd. unfold is_user_playlist. rewrite Ht.
  destruct p as [| | | | |d]; try discriminate;
    cbn [safe_get]; rewrite (py_eq_none user_id Hu); reflexivity.
Qed.

Lemma user_playlists_stray (user_id : pyval) (entries : list pyval) :
  user_id <> VNone ->
  Exists (fun p => truthy p = true /\ is_dict p = false) entries ->
  exists e, user_playlists user_id entries = Raise e.
Proof.
  intros Hu. induction 1 as [p entries [Ht Hd]|p entries _ IH].
  - cbn [user_playlists]. rewrite (is_user_playlist_stray user_id p Hu Ht Hd).
    cbn [bind]. eauto.
  - cbn [user_playlists]. destruct (is_user_playlist user_id p); cbn [bind].
    + destruct IH as [e ->]. cbn [bind]. eauto.
    + eauto.
Qed.

Section Walk.
Context {World : Type}.
Variable sp_current_user_playlists : World -> pyval -> World * result pyval.
Variable sp_next : World -> pyval -> World * result pyval.

Lemma page_items_read (results : pyval) (items : list pyval) :
  page_items results = Some items ->
  (items' <- py_get results "items" (VList []);;
   page <- py_iter items';;
   next <- py_get results "next" VNone;;
   Ok (page, next)) = Ok (items, field "next" results).
Proof.
  unfold page_items. destruct results as [| | | | |d]; try discriminate.
  destruct (truthy (VDict d)); [|discriminate]. cbn [py_get bind].
  destruct (py_iter (dict_get "items" d (VList []))); [|discriminate].
  intros [= <-]. reflexivity.
Qed.

Lemma page_items_unread (results : pyval) :
  page_items results = None -> truthy results = true ->
  exists e,
    (items' <- py_get results "items" (VList []);;
     page <- py_iter items';;
     next <- py_get results "next" VNone;;
     Ok (page, next)) = Raise e.
Proof.
  unfold page_items. intros Hp Ht.
  destruct results as [| | | | |d]; cbn [py_get bind]; eauto.
  rewrite Ht in Hp.
  destruct (py_iter (dict_get "items" d (VList []))); [discriminate|].
  cbn [bind]. eauto.
Qed.

(** The loop follows the pages; a walk that breaks off leaves the
    [try] with an exception. *)
Lemma playlist_pages_walk (w w' : World) (results : pyval)
    (pages : list (list pyval)) (how : ending) :
  paged sp_next w results pages how w' ->
  forall (fuel : nat) (playlists : list pyval),
  (length pages < fuel)%nat ->
  exists r,
    playlist_pages sp_next fuel w results playlists = Some (w', r) /\
    match how with
    | Finished => r = Ok (playlists ++ concat pages)
    | Broken => exists e, r = Raise e
    end.
Proof.
  induction 1 as [w results Hf|w results Ht Hp|w results items Hp Hn
                 |w w' results items e Hp Hn Hcall
                 |w w1 w' results results' items pages how Hp Hn Hcall _ IH];
    intros fuel playlists Hfuel;
    (destruct fuel as [|fuel]; [simpl in Hfuel; lia|]); cbn [playlist_pages].
  - rewrite Hf. eexists. split; [reflexivity|]. cbn [concat].
    rewrite app_nil_r. reflexivity.
  - rewrite Ht. destruct (page_items_unread results Hp Ht) as [e ->]. eauto.
  - rewrite (Paging.page_items_truthy _ _ Hp), (page_items_read _ _ Hp), Hn.
    eexists. split; [reflexivity|]. cbn [concat]. rewrite app_nil_r.
    reflexivity.
  - rewrite (Paging.page_items_truthy _ _ Hp), (page_items_read _ _ Hp), Hn,
      Hcall. eauto.
  - rewrite (Paging.page_items_truthy _ _ Hp), (page_items_read _ _ Hp), Hn,
      Hcall. cbn [length] in Hfuel.
    destruct (IH fuel (playlists ++ items)) as (r & -> & Hr); [lia|].
    eexists. split; [reflexivity|].
    destruct how; [|exact Hr]. cbn [concat]. rewrite Hr, app_assoc.
    reflexivity.
Qed.

(** The decorator around a body that returned: one call, no sleep. *)
Lemma get_user_playlists_once (fuel : nat) (user_id : pyval) (w w' : World)
    (kept : list pyval) :
  get_user_playlists_body sp_current_user_playlists sp_next fuel user_id w =
    Some (w', kept) ->
  get_user_playlists sp_current_user_playlists sp_next fuel w user_id =
  Some ({| retry_world := w'; retry_calls := 1; retry_slept := 0 |},
        Ok (Some kept)).
Proof.
  intros Hbody. unfold get_user_playlists, retry_on_error.
  change (py_range 3) with [0; 1; 2].
  cbn [retry_loop retry_world retry_calls retry_slept]. rewrite Hbody.
  reflexivity.
Qed.
End Walk.

Lemma playlists_walk :
  paged playlists_next 1%nat (playlists_page 0)
    [[playlist_entry "p1" "me" false; playlist_entry "p2" "you" false];
     [playlist_entry "p3" "you" true; VNone]] Finished 2%nat.
Proof.
  eapply paged_next; [reflexivity|reflexivity|reflexivity|].
  apply paged_last; reflexivity.
Qed.

Lemma playlists_walk_failing :
  paged playlists_next_failing 1%nat (playlists_page 0)
    [[playlist_entry "p1" "me" false; playlist_entry "p2" "you" false]]
    Broken 2%nat.
Proof. eapply paged_broken; reflexivity. Qed.

Lemma stray_walk :
  paged playlists_next 1%nat stray_page
    [[playlist_entry "p1" "me" false; VStr "stray"]] Finished 1%nat.
Proof. apply paged_last; reflexivity. Qed.

(** X11: [get_user_playlists] walks every page of playlists and keeps,
    in order, the non-empty entries whose owner id equals the user's or
    whose [collaborative] flag is set. It makes one attempt under its
    retry decorator. This holds when the walk reaches its end and every
    entry is a record or falsy. *)
Theorem user_playlists_kept {World : Type}
    (sp_current_user_playlists : World -> pyval -> World * result pyval)
    (sp_next : World -> pyval -> World * result pyval)
    (w w0 w' : World) (results user_id : pyval) (pages : list (list pyval))
    (fuel : nat) :
  sp_current_user_playlists w (VInt 50) = (w0, Ok results) ->
  paged sp_next w0 results pages Finished w' ->
  Forall (fun p => record_or_falsy p = true) (concat pages) ->
  (length pages < fuel)%nat ->
  get_user_playlists sp_current_user_playlists sp_next fuel w user_id =
  Some ({| retry_world := w'; retry_calls := 1; retry_slept := 0 |},
        Ok (Some (List.filter
                    (fun p => truthy p && owned_or_collaborative user_id p)
                    (concat pages)))).
Proof.
  intros Hfirst Hwalk Hrec Hfuel. apply get_user_playlists_once.
  unfold get_user_playlists_body. rewrite Hfirst.
  destruct (playlist_pages_walk sp_next _ _ _ _ _ Hwalk fuel [] Hfuel)
    as (r & -> & ->).
  cbn [app bind]. rewrite (user_playlists_spec user_id _ Hrec). reflexivity.
Qed.

Lemma user_playlists_kept_witness :
  get_user_playlists playlists_first playlists_next 3 0%nat (VStr "me") =
  Some ({| retry_world := 2%nat; retry_calls := 1; retry_slept := 0 |},
        Ok (Some [playlist_entry "p1" "me" false;
                  playlist_entry "p3" "you" true])).
Proof.
  apply (user_playlists_kept playlists_first playlists_next 0%nat 1%nat 2%nat
           (playlists_page 0) (VStr "me") _ 3 eq_refl playlists_walk).
  - repeat constructor.
  - simpl. lia.
Defined.

(** X12: all or nothing. When a call for a next page of playlists
    raises, or answers something that is no page, [get_user_playlists]
    returns the empty list: the playlists of the pages already read are
    lost, where the track fetchers keep what they have. *)
Theorem user_playlists_all_or_nothing {World : Type}
    (sp_current_user_playlists : World -> pyval -> World * result pyval)
    (sp_next : World -> pyval -> World * result pyval)
    (w w0 w' : World) (results user_id : pyval) (pages : list (list pyval))
    (fuel : nat) :
  sp_current_user_playlists w (VInt 50) = (w0, Ok results) ->
  paged sp_next w0 results pages Broken w' ->
  (length pages < fuel)%nat ->
  get_user_playlists sp_current_user_playlists sp_next fuel w user_id =
  Some ({| retry_world := w'; retry_calls := 1; retry_slept := 0 |},
        Ok (Some [])).
Proof.
  intros Hfirst Hwalk Hfuel. apply get_user_playlists_once.
  unfold get_user_playlists_body. rewrite Hfirst.
  destruct (playlist_pages_walk sp_next _ _ _ _ _ Hwalk fuel [] Hfuel)
    as (r & -> & e & ->).
  reflexivity.
Qed.

Lemma user_playlists_all_or_nothing_witness :
  get_user_playlists playlists_first playlists_next_failing 2 0%nat (VStr "me") =
  Some ({| retry_world := 2%nat; retry_calls := 1; retry_slept := 0 |},
        Ok (Some [])).
Proof.
  apply (user_playlists_all_or_nothing playlists_first playlists_next_failing
           0%nat 1%nat 2%nat (playlists_page 0) (VStr "me") _ 2 eq_refl
           playlists_walk_failing).
  simpl. lia.
Defined.

(** X13: one stray entry empties the result. When the pages hold an
    entry that is truthy and no record, a string for one, the filter
    raises on it and [get_user_playlists] returns the empty list, even
    though every page was fetched. *)
Theorem user_playlists_stray_entry {World : Type}
    (sp_current_user_playlists : World -> pyval -> World * result pyval)
    (sp_next : World -> pyval -> World * result pyval)
    (w w0 w' : World) (results user_id : pyval) (pages : list (list pyval))
    (fuel : nat) :
  sp_current_user_playlists w (VInt 50) = (w0, Ok results) ->
  paged sp_next w0 results pages Finished w' ->
  user_id <> VNone ->
  Exists (fun p => truthy p = true /\ is_dict p = false) (concat pages) ->
  (length pages < fuel)%nat ->
  get_user_playlists sp_current_user_playlists sp_next fuel w user_id =
  Some ({| retry_world := w'; retry_calls := 1; retry_slept := 0 |},
        Ok (Some [])).
Proof.
  intros Hfirst Hwalk Hu Hstray Hfuel. apply get_user_playlists_once.
  unfold get_user_playlists_body. rewrite Hfirst.
  destruct (playlist_pages_walk sp_next _ _ _ _ _ Hwalk fuel [] Hfuel)
    as (r & -> & ->).
  cbn [app bind].
  destruct (user_playlists_stray user_id _ Hu Hstray) as [e ->]. reflexivity.
Qed.

Lemma user_playlists_stray_entry_witness :
  get_user_playlists stray_first playlists_next 2 0%nat (VStr "me") =
  Some ({| retry_world := 1%nat; retry_calls := 1; retry_slept := 0 |},
        Ok (Some [])).
Proof.
  apply (user_playlists_stray_entry stray_first playlists_next 0%nat 1%nat
           1%nat stray_page (VStr "me") _ 2 eq_refl stray_walk).
  - discriminate.
  - apply Exists_cons_tl, Exists_cons_hd. split; reflexivity.
  - simpl. lia.
Defined.

End Playlists.

(** ** Creating the playlist *)

Module Creation.
Import Py AppV2 Spec Client ClientSpec.

Section Writes.
Context {World : Type}.
Variable sp_search : World -> string -> World * result pyval.
Variable sp_user_playlist_create : World -> pyval -> string -> World * result pyval.
Variable sp_playlist_add_items : World -> pyval -> list pyval -> World * result pyval.
Variable format : pyval -> string.

(** Only a truthy uri is appended. *)
Lemma search_song_truthy (st st' : search_state) (song : pyval) :
  search_song sp_search format st song = Ok st' ->
  Forall (fun uri => truthy uri = true) (track_uris st) ->
  Forall (fun uri => truthy uri = true) (track_uris st').
Proof.
  destruct song as [| | | | |d]; try discriminate.
  destruct (Reconciler.search_song_dict sp_search format st d)
    as (st1 & Hst & _ & _ & Hout).
  rewrite Hst. intros [= <-] Hall.
  destruct (truthy _) eqn:E in Hout; destruct Hout as (Hu & _); rewrite Hu.
  - apply Forall_app. split; [exact Hall|]. repeat constructor. exact E.
  - exact Hall.
Qed.

Lemma search_loop_truthy (songs : list pyval) (st st' : search_state) :
  search_loop sp_search format songs st = Ok st' ->
  Forall (fun uri => truthy uri = true) (track_uris st) ->
  Forall (fun uri => truthy uri = true) (track_uris st').
Proof.
  revert st. induction songs as [|song songs IH]; intros st.
  - simpl. intros [= <-]. auto.
  - rewrite Reconciler.search_loop_cons.
    destruct (PLAYLIST_TARGET_SIZE <=? songs_found_count st)%nat.
    + intros [= <-]. auto.
    + destruct (search_song sp_search format st song) as [st1|] eqn:Hsong;
        cbn [bind]; [|discriminate].
      intros Hloop Hall. apply (IH st1 Hloop).
      apply (search_song_truthy st st1 song Hsong Hall).
Qed.

(** What the search hands to the writing part. *)
Lemma search_suggestions_uris (w : World) (decoded : result pyval)
    (st : search_state) :
  search_suggestions sp_search format w decoded = Ok (Some st) ->
  (length (track_uris st) <= PLAYLIST_TARGET_SIZE)%nat /\
  Forall (fun uri => truthy uri = true) (track_uris st).
Proof.
  unfold search_suggestions. destruct decoded as [data|]; [|discriminate].
  cbn [bind]. destruct (py_get data "songs" (VList [])) as [songs_to_search|];
    [|discriminate].
  cbn [bind]. destruct (truthy songs_to_search); cbn [negb]; [|discriminate].
  destruct (py_len songs_to_search); [|discriminate]. cbn [bind].
  destruct (py_iter songs_to_search) as [songs|]; [|discriminate]. cbn [bind].
  destruct (reconcile sp_search format w songs) as [st1|] eqn:Hrec;
    [|discriminate].
  cbn [bind]. intros [= <-]. unfold reconcile in Hrec. split.
  - destruct (Reconciler.search_loop_bound sp_search format songs _ _ Hrec)
      as [Hlen Hle]; [reflexivity|simpl; lia|]. lia.
  - apply (search_loop_truthy songs _ _ Hrec). constructor.
Qed.
End Writes.

(** X14: what [create_spotify_playlist] writes to the account, by how
    it ends. It never creates a playlist when the suggestion list is
    empty or when no suggestion was found in the catalog. It calls
    [user_playlist_create] at most once, with the given name, and
    [playlist_add_items] at most once, after that call, with between
    one and [PLAYLIST_TARGET_SIZE] uris, none of them empty. A failed
    run may have created the playlist already, and may have filled it. *)
Theorem creation_writes {World : Type}
    (sp_search : World -> string -> World * result pyval)
    (sp_user_playlist_create : World -> pyval -> string -> World * result pyval)
    (sp_playlist_add_items : World -> pyval -> list pyval -> World * result pyval)
    (format : pyval -> string)
    (w : World) (user_id : pyval) (playlist_name : string)
    (decoded : result pyval) :
  let run := create_spotify_playlist sp_search sp_user_playlist_create
               sp_playlist_add_items format w user_id playlist_name decoded in
  let filled :=
    exists playlist_id uris,
      add_calls run = [(playlist_id, uris)] /\
      (1 <= length uris <= PLAYLIST_TARGET_SIZE)%nat /\
      Forall (fun uri => truthy uri = true) uris in
  match outcome run with
  | EmptySuggestions | NothingFound =>
      create_calls run = [] /\ add_calls run = []
  | Created => create_calls run = [playlist_name] /\ filled
  | Failed _ =>
      (create_calls run = [] /\ add_calls run = []) \/
      (create_calls run = [playlist_name] /\ (add_calls run = [] \/ filled))
  end.
Proof.
  cbv zeta. unfold create_spotify_playlist.
  destruct (search_suggestions sp_search format w decoded) as [[st|]|e] eqn:Hs;
    cbn [outcome create_calls add_calls]; auto.
  destruct (search_suggestions_uris sp_search format w decoded st Hs)
    as [Hle Hall].
  destruct (track_uris st) as [|uri uris] eqn:Hu;
    cbn [truthy negb outcome create_calls add_calls]; auto.
  destruct (sp_user_playlist_create (search_world st) user_id playlist_name)
    as [w1 [playlist|e]]; cbn [bind outcome create_calls add_calls]; auto.
  destruct (py_item playlist "id") as [playlist_id|e];
    cbn [bind outcome create_calls add_calls]; auto.
  destruct (sp_playlist_add_items w1 playlist_id (uri :: uris)) as [w2 added].
  cbn [outcome create_calls add_calls].
  assert (Hfilled : exists (p : pyval) (us : list pyval),
             [(playlist_id, uri :: uris)] = [(p, us)] /\
             (1 <= length us <= PLAYLIST_TARGET_SIZE)%nat /\
             Forall (fun u => truthy u = true) us).
  { exists playlist_id, (uri :: uris). repeat split; auto. simpl. lia. }
  destruct (_ <- added;; urls <- py_item playlist "external_urls";;
            py_item urls "spotify"); auto.
Qed.

End Creation.

(** ** The report *)

Module Report.
Import Py AppV2 Spec Client ClientSpec.

(** A comprehension over items that each either go through or raise
    [AttributeError]. *)
Lemma comprehension_outcome {A B : Type} (f : A -> result B)
    (good bad : A -> Prop) (l : list A) :
  Forall (fun x => match f x with
                   | Ok _ => good x
                   | Raise e => e = AttributeError /\ bad x
                   end) l ->
  match comprehension f l with
  | Ok ys => length ys = length l /\ Forall good l
  | Raise e => e = AttributeError /\ Exists bad l
  end.
Proof.
  induction 1 as [|x l Hx _ IH]; [simpl; auto|].
  cbn [comprehension]. destruct (f x) as [y|e]; cbn [bind].
  - destruct (comprehension f l) as [ys|e]; cbn [bind].
    + destruct IH as [Hlen Hall]. simpl. auto.
    + destruct IH as [-> Hex]. auto.
  - destruct Hx as [-> Hbad]. auto.
Qed.

Lemma dict_get_list (k : string) (d : pydict) (dflt v : pyval) :
  dict_get k d VNone = v -> v <> VNone -> dict_get k d dflt = v.
Proof.
  unfold dict_get. destruct (dict_lookup k d); [auto|].
  intros <- H. destruct H. reflexivity.
Qed.

(** The names of the artists of a record. *)
Lemma artist_names_outcome (d : pydict) :
  nonempty_artists (VDict d) = true ->
  match artist_names (VDict d) with
  | Ok names => Forall (fun a => is_dict a = true) (artist_items (VDict d))
  | Raise e =>
      e = AttributeError /\
      Exists (fun a => is_dict a = false) (artist_items (VDict d))
  end.
Proof.
  unfold nonempty_artists, artist_names, artist_items. cbn [field py_get bind].
  destruct (dict_get "artists" d VNone) as [| | | |[|a l]|] eqn:E;
    try discriminate.
  intros _. rewrite (dict_get_list "artists" d (VList []) _ E) by discriminate.
  cbn [py_iter bind].
  pose proof (comprehension_outcome
                (fun a => py_get a "name" (VStr "Unknown"))
                (fun a => is_dict a = true) (fun a => is_dict a = false)
                (a :: l)) as H.
  destruct (comprehension _ (a :: l)).
  - apply H. apply List.Forall_forall. intros x _. destruct x; simpl; auto.
  - apply H. apply List.Forall_forall. intros x _. destruct x; simpl; auto.
Qed.

Lemma top_track_entry_outcome (d : pydict) :
  nonempty_artists (VDict d) = true ->
  match top_track_entry (VDict d) with
  | Ok _ => Forall (fun a => is_dict a = true) (artist_items (VDict d))
  | Raise e =>
      e = AttributeError /\
      Exists (fun a => is_dict a = false) (artist_items (VDict d))
  end.
Proof.
  intros Ha. pose proof (artist_names_outcome d Ha) as H.
  unfold top_track_entry. cbn [py_get bind].
  destruct (artist_names (VDict d)); cbn [bind]; exact H.
Qed.

Lemma clean_track_artists (tracks : list pyval) (t : pyval) :
  In t (sanitize_track_list tracks) ->
  exists d, t = VDict d /\ nonempty_artists (VDict d) = true.
Proof.
  intros Hin.
  destruct (Sanitizer.sanitize_emitted_from tracks t Hin)
    as (item & cand & _ & _ & ->).
  eexists. split; [reflexivity|].
  destruct (Sanitizer.patch_track_fields cand) as (_ & Ha & _). exact Ha.
Qed.

(** X15: the [top_tracks] entry of the report on sanitized tracks.
    Building it raises exactly when one of the first twenty clean tracks
    lists an artist that is no record, and then with [AttributeError]:
    the sanitizer checks that [artists] is a non-empty list, not what
    the list holds. Otherwise the entry has one row for each of the
    first twenty clean tracks. *)
Theorem report_top_tracks_outcome (tracks : list pyval) :
  let clean := sanitize_track_list tracks in
  match report_top_tracks clean with
  | Ok rows =>
      length rows = Nat.min 20 (length clean) /\
      Forall (fun t => Forall (fun a => is_dict a = true) (artist_items t))
        (take 20 clean)
  | Raise e =>
      e = AttributeError /\
      Exists (fun t => Exists (fun a => is_dict a = false) (artist_items t))
        (take 20 clean)
  end.
Proof.
  intros clean. unfold report_top_tracks.
  pose proof (comprehension_outcome top_track_entry
                (fun t => Forall (fun a => is_dict a = true) (artist_items t))
                (fun t => Exists (fun a => is_dict a = false) (artist_items t))
                (take 20 clean)) as H.
  assert (Hall : Forall (fun x => match top_track_entry x with
             | Ok _ => Forall (fun a => is_dict a = true) (artist_items x)
             | Raise e => e = AttributeError /\
                 Exists (fun a => is_dict a = false) (artist_items x)
             end) (take 20 clean)).
  { apply List.Forall_forall. intros t Ht.
    assert (Hin : In t clean).
    { apply list_elem_of_In. apply list_elem_of_In in Ht.
      apply (elem_of_sublist _ _ _ Ht (sublist_take clean 20)). }
    destruct (clean_track_artists tracks t Hin) as (d & -> & Ha).
    apply top_track_entry_outcome, Ha. }
  specialize (H Hall).
  destruct (comprehension top_track_entry (take 20 clean)) as [rows|e].
  - destruct H as [Hlen Hgood]. split; [|exact Hgood].
    rewrite Hlen, length_take. reflexivity.
  - exact H.
Qed.

(** A track whose artists are given as plain names passes the sanitizer
    unpatched and breaks the report. *)
Example report_breaks_on_artist_names :
  let track :=
    VDict [("id", VStr "t1"); ("name", VStr "Hello");
           ("artists", VList [VStr "Adele"]);
           ("album", VDict [("name", VStr "25"); ("release_date", VStr "2015")]);
           ("popularity", VInt 80)] in
  sanitize_run [track] =
    {| clean_tracks := [track]; invalid_count := 0; patched_count := 0 |} /\
  report_top_tracks (sanitize_track_list [track]) = Raise AttributeError.
Proof. split; reflexivity. Qed.

End Report.

(** ** Gathering the audio features (app.py) *)

Module AudioBatches.
Import Py Spec Audio AudioSpec.

Lemma track_ids_of_spec (tracks : list pyval) :
  Forall (fun t => is_dict t = true) tracks ->
  track_ids_of tracks = Ok (ids_with_features tracks).
Proof.
  unfold ids_with_features.
  induction 1 as [|t tracks Ht _ IH]; [reflexivity|].
  destruct t as [| | | | |d]; try discriminate.
  cbn [track_ids_of py_get bind map List.filter field].
  destruct (truthy (dict_get "id" d VNone)) eqn:E.
  - cbn [py_item]. unfold dict_get in *.
    destruct (dict_lookup "id" d); [|discriminate].
    cbn [bind]. rewrite IH. reflexivity.
  - exact IH.
Qed.

(** Consecutive slices of fifty put the list back together. *)
Lemma concat_slices (m : nat) (ids : list pyval) :
  forall j : nat,
  (length ids <= (j + m) * 50)%nat ->
  concat (map (fun i => take 50 (drop i ids))
              (map (fun k => (k * 50)%nat) (seq j m))) =
  drop (j * 50) ids.
Proof.
  induction m as [|m IH]; intros j Hlen.
  - simpl. rewrite drop_ge; [reflexivity|lia].
  - cbn [seq map concat]. rewrite IH by lia.
    replace (S j * 50)%nat with (j * 50 + 50)%nat by lia.
    rewrite <- drop_drop. apply take_drop.
Qed.

Lemma slices_sizes (m : nat) (ids : list pyval) :
  forall j : nat,
  ((j + m) * 50 < length ids + 50)%nat ->
  Forall (fun batch => (1 <= length batch <= 50)%nat)
    (map (fun i => take 50 (drop i ids))
         (map (fun k => (k * 50)%nat) (seq j m))).
Proof.
  induction m as [|m IH]; intros j Hlen; [constructor|].
  cbn [seq map]. constructor.
  - rewrite length_take, length_drop. lia.
  - apply IH. lia.
Qed.

Lemma batches_spec (ids : list pyval) :
  concat (batches ids) = ids /\
  Forall (fun batch => (1 <= length batch <= 50)%nat) (batches ids) /\
  length (batches ids) = Nat.div (length ids + 49) 50.
Proof.
  unfold batches, batch_starts.
  pose proof (Nat.div_mod_eq (length ids + 49) 50) as Hdiv.
  pose proof (Nat.mod_upper_bound (length ids + 49) 50) as Hmod.
  set (m := Nat.div (length ids + 49) 50) in *.
  split; [|split].
  - rewrite (concat_slices m ids 0) by lia. reflexivity.
  - apply (slices_sizes m ids 0). lia.
  - rewrite !length_map, length_seq. reflexivity.
Qed.

Section Gather.
Context {World : Type}.
Variable sp_audio_features : World -> list pyval -> World * result pyval.

Lemma get_audio_features_found (w : World) (track_ids : list pyval) :
  Forall (fun f => f <> VNone)
    (snd (get_audio_features sp_audio_features w track_ids)).
Proof.
  unfold get_audio_features.
  destruct (sp_audio_features w track_ids) as [w' [features|e]]; cbn [snd bind];
    [|constructor].
  destruct (py_iter features) as [items|e]; cbn [bind]; [|constructor].
  apply List.Forall_forall. intros f Hf. apply filter_In in Hf as [_ Hf].
  destruct f; [discriminate|..]; discriminate.
Qed.

Lemma gather_fold (bs : list (list pyval)) (st : gather_state) :
  feature_calls (fold_left (gather_batch sp_audio_features) bs st) =
    feature_calls st ++ bs /\
  (Forall (fun f => f <> VNone) (all_features st) ->
   Forall (fun f => f <> VNone)
     (all_features (fold_left (gather_batch sp_audio_features) bs st))).
Proof.
  revert st. induction bs as [|b bs IH]; intros st.
  - simpl. rewrite app_nil_r. auto.
  - cbn [fold_left]. destruct (IH (gather_batch sp_audio_features st b))
      as [Hc Hf].
    pose proof (get_audio_features_found (feature_world st) b) as Hfound.
    unfold gather_batch in *.
    destruct (get_audio_features sp_audio_features (feature_world st) b)
      as [w found].
    cbn [feature_calls all_features snd] in *. split.
    + rewrite Hc, <- app_assoc. reflexivity.
    + intros Hall. apply Hf. apply Forall_app. auto.
Qed.
End Gather.

(** X16: the batches of the audio analysis. On track records the
    function asks the service for the features of the non-empty ids, in
    order, in calls of at most fifty ids, none of them empty, and no more
    calls than that takes; no id is asked twice or left out. It gives up
    with [None] when no feature came back, and no gathered feature is
    null. *)
Theorem audio_batches {World : Type}
    (sp_audio_features : World -> list pyval -> World * result pyval)
    (w : World) (tracks : list pyval) :
  Forall (fun t => is_dict t = true) tracks ->
  exists st r,
    gather_audio_features sp_audio_features w tracks = Ok (st, r) /\
    concat (feature_calls st) = ids_with_features tracks /\
    Forall (fun batch => (1 <= length batch <= 50)%nat) (feature_calls st) /\
    length (feature_calls st) =
      Nat.div (length (ids_with_features tracks) + 49) 50 /\
    Forall (fun f => f <> VNone) (all_features st) /\
    r = match all_features st with
        | [] => None
        | _ => Some (all_features st)
        end.
Proof.
  intros Hd. unfold gather_audio_features.
  rewrite (track_ids_of_spec tracks Hd). cbn [bind].
  set (ids := ids_with_features tracks).
  destruct ids as [|id ids'] eqn:Hids; cbn [truthy negb].
  - eexists _, _. split; [reflexivity|]. cbn [feature_calls all_features].
    repeat split; constructor.
  - rewrite <- Hids.
    set (st0 := {| all_features := []; feature_calls := [];
                   feature_world := w |}).
    destruct (gather_fold sp_audio_features (batches ids) st0) as [Hc Hf].
    destruct (batches_spec ids) as (Hcat & Hsize & Hlen).
    set (st := fold_left (gather_batch sp_audio_features) (batches ids) st0) in *.
    cbn [feature_calls app] in Hc.
    exists st, (match all_features st with
                | [] => None
                | _ => Some (all_features st)
                end).
    split; [destruct (all_features st); reflexivity|].
    rewrite Hc. repeat split; auto.
Qed.

Lemma audio_batches_witness :
  exists st r,
    gather_audio_features features_service 0%nat (numbered_tracks 120) = Ok (st, r) /\
    concat (feature_calls st) = ids_with_features (numbered_tracks 120) /\
    Forall (fun batch => (1 <= length batch <= 50)%nat) (feature_calls st) /\
    length (feature_calls st) =
      Nat.div (length (ids_with_features (numbered_tracks 120)) + 49) 50 /\
    Forall (fun f => f <> VNone) (all_features st) /\
    r = match all_features st with
        | [] => None
        | _ => Some (all_features st)
        end.
Proof.
  apply (audio_batches features_service 0%nat (numbered_tracks 120)).
  unfold numbered_tracks. apply List.Forall_forall. intros t Ht.
  apply in_map_iff in Ht as (k & <- & _). reflexivity.
Defined.

(** The example in numbers: 120 ids go out in three calls, of fifty,
    fifty and twenty. *)
Example features_of_120_tracks :
  match gather_audio_features features_service 0%nat (numbered_tracks 120) with
  | Ok (st, Some found) =>
      map (@length pyval) (feature_calls st) = [50; 50; 20]%nat /\
      length found = 120%nat /\ feature_world st = 3%nat
  | _ => False
  end.
Proof. vm_compute. auto. Qed.

End AudioBatches.

(** ** [safe_get] *)

Module SafeGet.
Import Py AppV2 Spec.

Lemma safe_get_from_default (keys : list string) (default : pyval) :
  is_dict default = false -> safe_get default keys default = default.
Proof.
  intros H. destruct keys as [|k ks]; [reflexivity|].
  destruct default; try reflexivity. discriminate.
Qed.

(** X17: paths compose. With a default that is no record, reading the
    path [keys1 ++ keys2] is reading [keys2] in what the path [keys1]
    gave: a missing key or a value that is no record anywhere on the way
    gives the default. *)
Theorem safe_get_app (data default : pyval) (keys1 keys2 : list string) :
  is_dict default = false ->
  safe_get data (keys1 ++ keys2) default =
  safe_get (safe_get data keys1 default) keys2 default.
Proof.
  intros Hd. revert data. induction keys1 as [|k ks IH]; intros data;
    [reflexivity|].
  cbn [app safe_get]. destruct data; try apply IH;
    symmetry; apply safe_get_from_default, Hd.
Qed.

Lemma safe_get_app_witness :
  safe_get (VDict [("album", VDict [("name", VStr "25")])])
    (["album"] ++ ["name"]) (VStr "Unknown") =
  safe_get
    (safe_get (VDict [("album", VDict [("name", VStr "25")])]) ["album"]
       (VStr "Unknown"))
    ["name"] (VStr "Unknown").
Proof.
  apply (safe_get_app (VDict [("album", VDict [("name", VStr "25")])])
           (VStr "Unknown") ["album"] ["name"]).
  reflexivity.
Defined.

(** With a record as the default the two differ: the lookup goes on
    inside the default. *)
Example safe_get_record_default :
  let default := VDict [("name", VStr "inside")] in
  safe_get (VStr "no record") (["album"] ++ ["name"]) default = default /\
  safe_get (safe_get (VStr "no record") ["album"] default) ["name"] default =
  VStr "inside".
Proof. split; reflexivity. Qed.

End SafeGet.

(** ** The top lists together *)

Module TopLists.
Import Py AppV2 Spec Client ClientSpec.

Lemma artist_summary_outcome (artist : pyval) :
  match artist_summary artist with
  | Ok _ => is_dict artist = true
  | Raise e => e = AttributeError /\ is_dict artist = false
  end.
Proof. destruct artist; simpl; auto. Qed.

(** X18: [get_top_tracks_and_artists] makes two calls to the client,
    for the tracks and then for the artists, and no third one: the
    service is left as the artists call on the state after the tracks
    call leaves it. The function raises only on the artists its fetcher
    handed over: [TypeError] when they cannot be iterated,
    [AttributeError] when one of them is no record. Otherwise it returns
    the top tracks with one summary for each artist. *)
Theorem top_lists_outcome {World : Type}
    (sp_current_user_top_tracks : World -> pyval -> pyval -> World * result pyval)
    (sp_current_user_top_artists : World -> pyval -> pyval -> World * result pyval)
    (w : World) (time_range : pyval) :
  let tracks :=
    get_top_tracks_body sp_current_user_top_tracks time_range (VInt 50) w in
  let artists :=
    get_top_artists_body sp_current_user_top_artists time_range (VInt 50)
      (fst tracks) in
  exists r,
    get_top_tracks_and_artists sp_current_user_top_tracks
      sp_current_user_top_artists w time_range = Some (fst artists, r) /\
    fst artists =
      fst (sp_current_user_top_artists
             (fst (sp_current_user_top_tracks w time_range (VInt 50)))
             time_range (VInt 50)) /\
    match r with
    | Ok (top_tracks, data) =>
        top_tracks = Some (snd tracks) /\
        exists items,
          py_iter (snd artists) = Ok items /\
          length data = length items /\
          Forall (fun a => is_dict a = true) items
    | Raise e =>
        (e = TypeError /\ py_iter (snd artists) = Raise TypeError) \/
        (e = AttributeError /\
         exists items,
           py_iter (snd artists) = Ok items /\
           Exists (fun a => is_dict a = false) items)
    end.
Proof.
  intros tracks artists. unfold get_top_tracks_and_artists.
  unfold get_top_tracks, get_top_artists. rewrite !Retry.retried_once.
  cbn [retry_world]. fold tracks. fold artists. cbn [bind].
  eexists. split; [reflexivity|]. split.
  - subst artists tracks. unfold get_top_artists_body, get_top_tracks_body.
    destruct (sp_current_user_top_tracks w time_range (VInt 50)) as [w1 r1].
    cbn [fst].
    destruct (sp_current_user_top_artists w1 time_range (VInt 50)) as [w2 r2].
    reflexivity.
  - unfold top_artists_data.
    destruct (py_iter (snd artists)) as [items|e] eqn:Hiter; cbn [bind].
    + pose proof (Report.comprehension_outcome artist_summary
                    (fun a => is_dict a = true) (fun a => is_dict a = false)
                    items) as H.
      assert (Hall : Forall (fun x => match artist_summary x with
                 | Ok _ => is_dict x = true
                 | Raise e => e = AttributeError /\ is_dict x = false
                 end) items).
      { apply List.Forall_forall. intros a _. apply artist_summary_outcome. }
      specialize (H Hall).
      destruct (comprehension artist_summary items) as [data|e]; cbn [bind].
      * destruct H as [Hlen Hgood]. split; [reflexivity|].
        exists items. auto.
      * destruct H as [-> Hbad]. right. split; [reflexivity|].
        exists items. auto.
    + left. destruct (snd artists); try discriminate;
        injection Hiter as <-; auto.
Qed.

(** An outage: both calls raise, the function returns two empty lists. *)
Example top_lists_outage :
  get_top_tracks_and_artists
    (fun (w : nat) _ _ => (S w, Raise ServiceError))
    (fun (w : nat) _ _ => (S w, Raise ServiceError))
    0%nat (VStr "short_term") =
  Some (2%nat, Ok (Some [], [])).
Proof. reflexivity. Qed.

End TopLists.
